(** * nrsc5-gui: the receive pipeline of [nrsc5_gui_qt.py]

    A shallow embedding of the parts of [NRSC5Gui] that drive the
    producer/consumer pipeline: the three process handles and the
    radio_running / recording / stopping_radio flags, the handlers of
    the Qt process signals, the scanner of nrsc5's diagnostic stream
    (BER history, now-playing labels, station location), the start-up
    validation and the dependency check, the name and the duration of
    a recording, and the Presets tab with its import, export and
    saved setting.

    Conventions.
    - A Python [str] is a Rocq [string]; the character operations
      ([strip], [splitlines], [lower], the regular expressions, [float],
      [int]) are written for ASCII text.
    - A Python [float] is an IEEE binary64 value, [spec_float] with
      [prec = 53] and [emax = 1024].
    - What the operating system and Qt decide (whether a process starts
      or dies within a wait, which signals it emits meanwhile, the wall
      clock, the file system) is an answer of the environment [Env],
      asked in order; every theorem holds for all environments.
    - Qt calls the slots of a process from the event loop and, inside
      [waitForStarted] and [waitForFinished], for the process waited
      on; when it signals [finished] the process is already not
      running.  A message box is recorded when it opens; the events
      that Qt would deliver while it is open are taken to arrive once
      the handler has returned.
    - Fields that only feed the display and are read by no other code
      (ber_text, relpos_text, vert_text, the summary label, the item
      texts of the preset list) are left out, and so are
      [_update_info_summary_line] and [_update_distances], which write
      nothing else, and the slots that write none of the modelled
      fields (the visibility toggles, the user location and the
      units).  The record timer's tick, [_update_record_duration],
      only rewrites the duration texts; it is modelled on its own and
      is not among the events of [step]. *)

From Stdlib Require Import Bool Arith ZArith Lia List Ascii String.
From Stdlib Require Import SpecFloat DecimalString Permutation.
Import ListNotations.

Local Open Scope string_scope.
Local Open Scope list_scope.
Local Open Scope nat_scope.

(** ** Python text operations (ASCII) *)

Module PyStr.

Definition code (c : ascii) : N := N_of_ascii c.

(** [str.isspace] on one ASCII character: TAB..CR, FS..US and space. *)
Definition is_space (c : ascii) : bool :=
  let n := code c in
  ((9 <=? n) && (n <=? 13) || (28 <=? n) && (n <=? 32))%N.

Definition is_digit (c : ascii) : bool :=
  let n := code c in ((48 <=? n) && (n <=? 57))%N.

Definition digit_val (c : ascii) : option Z :=
  if is_digit c then Some (Z.of_N (code c) - 48)%Z else None.

Definition lower_char (c : ascii) : ascii :=
  let n := code c in
  if ((65 <=? n) && (n <=? 90))%N then ascii_of_N (n + 32) else c.

Fixpoint lower (s : string) : string :=
  match s with
  | EmptyString => EmptyString
  | String c s' => String (lower_char c) (lower s')
  end.

Fixpoint rev_append (s acc : string) : string :=
  match s with
  | EmptyString => acc
  | String c s' => rev_append s' (String c acc)
  end.

Definition rev (s : string) : string := rev_append s EmptyString.

Fixpoint lstrip (s : string) : string :=
  match s with
  | String c s' => if is_space c then lstrip s' else s
  | EmptyString => EmptyString
  end.

(** [s.strip()] *)
Definition strip (s : string) : string := rev (lstrip (rev (lstrip s))).

(** [sub in s] *)
Fixpoint contains (sub s : string) : bool :=
  if prefix sub s then true
  else match s with
       | EmptyString => false
       | String _ s' => contains sub s'
       end.

(** The ASCII line boundaries of [str.splitlines]: LF, VT, FF, CR, FS,
    GS, RS; CR LF counts once. *)
Definition is_linebreak (c : ascii) : bool :=
  let n := code c in
  ((10 <=? n) && (n <=? 13) || (28 <=? n) && (n <=? 30))%N.

Fixpoint splitlines_from (s : string) (cur : string) : list string :=
  match s with
  | EmptyString =>
      match cur with EmptyString => [] | _ => [rev cur] end
  | String c s' =>
      if is_linebreak c then
        rev cur ::
          match s' with
          | String c2 s'' =>
              if (code c =? 13)%N && (code c2 =? 10)%N
              then splitlines_from s'' EmptyString
              else splitlines_from s' EmptyString
          | EmptyString => splitlines_from s' EmptyString
          end
      else splitlines_from s' (String c cur)
  end.

Definition splitlines (s : string) : list string :=
  splitlines_from s EmptyString.

(** [str(n)] for an [int]. *)
Definition str_of_int (n : Z) : string := NilZero.string_of_int (Z.to_int n).

(** A run of decimal digits in which single underscores may separate
    digits (the [digitpart] of the numeric literal grammar); the digits
    read after the first one, and the unread rest. *)
Fixpoint digitpart_rest (s : string) : list Z * string :=
  match s with
  | EmptyString => ([], EmptyString)
  | String c s' =>
      match digit_val c with
      | Some d => let (ds, r) := digitpart_rest s' in (d :: ds, r)
      | None =>
          if (code c =? 95)%N then
            match s' with
            | String c2 s'' =>
                match digit_val c2 with
                | Some d => let (ds, r) := digitpart_rest s'' in (d :: ds, r)
                | None => ([], s)
                end
            | EmptyString => ([], s)
            end
          else ([], s)
      end
  end.

Definition digitpart (s : string) : option (list Z * string) :=
  match s with
  | String c s' =>
      match digit_val c with
      | Some d => let (ds, r) := digitpart_rest s' in Some (d :: ds, r)
      | None => None
      end
  | EmptyString => None
  end.

Definition digits_value (ds : list Z) : Z :=
  fold_left (fun acc d => (10 * acc + d)%Z) ds 0%Z.

(** An optional sign; [true] for minus. *)
Definition take_sign (s : string) : bool * string :=
  match s with
  | String c s' =>
      if (code c =? 45)%N then (true, s')
      else if (code c =? 43)%N then (false, s')
      else (false, s)
  | EmptyString => (false, s)
  end.

(** [int(s)] in base 10; [None] stands for [ValueError]. *)
Definition int_of_str (s : string) : option Z :=
  let (neg, body) := take_sign (strip s) in
  match digitpart body with
  | Some (ds, EmptyString) =>
      Some (if neg then (- digits_value ds)%Z else digits_value ds)
  | _ => None
  end.

End PyStr.

(** ** Python floats *)

Module PyFloat.

Definition float := spec_float.

Definition prec : Z := 53.
Definition emax : Z := 1024.

Definition mul : float -> float -> float := SFmul prec emax.
Definition ltb : float -> float -> bool := SFltb.
Definition leb : float -> float -> bool := SFleb.

Definition zero : float := S754_zero false.

(** The nearest binary64 to [(-1)^neg * m * 10^e], ties to even. *)
Definition of_decimal (neg : bool) (m e : Z) : float :=
  match m with
  | Zpos _ =>
      if (0 <=? e)%Z then
        binary_round prec emax neg (Z.to_pos (m * 10 ^ e)) 0
      else
        let '(q, e', l) := SFdiv_core_binary prec emax m 0 (10 ^ (- e)) 0 in
        binary_round_aux prec emax neg q e' l
  | _ => S754_zero neg
  end.

Definition of_Z (n : Z) : float := of_decimal (n <? 0)%Z (Z.abs n) 0.

(** The optional exponent of a float literal. *)
Definition exponent (s : string) : option (Z * string) :=
  match s with
  | String c s' =>
      if (PyStr.code (PyStr.lower_char c) =? 101)%N then
        let (neg, body) := PyStr.take_sign s' in
        match PyStr.digitpart body with
        | Some (ds, r) =>
            let x := PyStr.digits_value ds in
            Some (if neg then (- x)%Z else x, r)
        | None => None
        end
      else Some (0%Z, s)
  | EmptyString => Some (0%Z, s)
  end.

(** [digitpart ["."] | [digitpart] "." digitpart]: the digits before and
    after the point. *)
Definition number (s : string) : option (list Z * list Z * string) :=
  match PyStr.digitpart s with
  | Some (ip, String c r) =>
      if (PyStr.code c =? 46)%N then
        match PyStr.digitpart r with
        | Some (fp, r') => Some (ip, fp, r')
        | None => Some (ip, [], r)
        end
      else Some (ip, [], String c r)
  | Some (ip, EmptyString) => Some (ip, [], EmptyString)
  | None =>
      match s with
      | String c r =>
          if (PyStr.code c =? 46)%N then
            match PyStr.digitpart r with
            | Some (fp, r') => Some ([], fp, r')
            | None => None
            end
          else None
      | EmptyString => None
      end
  end.

(** [float(s)]; [None] stands for [ValueError]. *)
Definition of_str (s : string) : option float :=
  let (neg, body) := PyStr.take_sign (PyStr.strip s) in
  let low := PyStr.lower body in
  if String.eqb low "inf" || String.eqb low "infinity"
  then Some (S754_infinity neg)
  else if String.eqb low "nan" then Some S754_nan
  else
    match number body with
    | Some (ip, fp, r) =>
        match exponent r with
        | Some (x, EmptyString) =>
            Some (of_decimal neg (PyStr.digits_value (ip ++ fp)%list)
                    (x - Z.of_nat (List.length fp)))
        | _ => None
        end
    | None => None
    end.

(** [max(a, b)] of two floats: the first unless the second is greater. *)
Definition max2 (a b : float) : float := if ltb a b then b else a.

(** [max(l)] of a non-empty list, [d] for the empty one. *)
Definition max_list (d : float) (l : list float) : float :=
  match l with
  | [] => d
  | x :: r => fold_left max2 r x
  end.

End PyFloat.

(** ** The regular expressions of the scanner

    The five patterns only use literals, greedy repetitions of one
    character class, an optional character and groups, so the matcher
    covers exactly that: it backtracks over the repetitions as [re]
    does and reports the text of each group. *)

Module Re.

Inductive item : Type :=
| Lit (c : ascii)
| Rep (cls : ascii -> bool) (least : nat)
| Opt (cls : ascii -> bool)
| GOpen
| GClose.

Definition pattern := list item.

Fixpoint lits (s : string) : pattern :=
  match s with
  | EmptyString => []
  | String c s' => Lit c :: lits s'
  end.

Definition same_char (ignorecase : bool) (a b : ascii) : bool :=
  if ignorecase
  then Ascii.eqb (PyStr.lower_char a) (PyStr.lower_char b)
  else Ascii.eqb a b.

(** [match_here ic p s cur gs]: match [p] at the start of [s]; [cur] holds
    the characters read since the last group opened, newest first. *)
Fixpoint match_here (ic : bool) (p : pattern) (s : string) (cur : string)
    (gs : list string) {struct p} : option (list string) :=
  match p with
  | [] => Some (List.rev gs)
  | Lit c :: p' =>
      match s with
      | String c' s' =>
          if same_char ic c c' then match_here ic p' s' (String c' cur) gs
          else None
      | EmptyString => None
      end
  | GOpen :: p' => match_here ic p' s EmptyString gs
  | GClose :: p' => match_here ic p' s EmptyString (PyStr.rev cur :: gs)
  | Opt cls :: p' =>
      match s with
      | String c s' =>
          if cls c then
            match match_here ic p' s' (String c cur) gs with
            | Some r => Some r
            | None => match_here ic p' s cur gs
            end
          else match_here ic p' s cur gs
      | EmptyString => match_here ic p' s cur gs
      end
  | Rep cls least :: p' =>
      (fix more (s : string) (cur : string) (n : nat) {struct s}
         : option (list string) :=
         let stop := if Nat.leb least n then match_here ic p' s cur gs else None in
         match s with
         | String c s' =>
             if cls c then
               match more s' (String c cur) (S n) with
               | Some r => Some r
               | None => stop
               end
             else stop
         | EmptyString => stop
         end) s cur 0
  end.

(** [p.search(s)]: the groups of the leftmost match. *)
Fixpoint search (ic : bool) (p : pattern) (s : string) : option (list string) :=
  match match_here ic p s EmptyString [] with
  | Some gs => Some gs
  | None =>
      match s with
      | String _ s' => search ic p s'
      | EmptyString => None
      end
  end.

Definition one_of (set : string) (c : ascii) : bool :=
  existsb (Ascii.eqb c) (list_ascii_of_string set).

(** [\s] *)
Definition space : ascii -> bool := PyStr.is_space.
(** [.] *)
Definition dot (c : ascii) : bool := negb (PyStr.code c =? 10)%N.
(** [[0-9]] *)
Definition digit : ascii -> bool := PyStr.is_digit.

End Re.

(** r"Title:\s*(.+)", re.IGNORECASE *)
Definition re_title : Re.pattern :=
  Re.lits "Title:" ++ [Re.Rep Re.space 0; Re.GOpen; Re.Rep Re.dot 1; Re.GClose].
(** r"Artist:\s*(.+)", re.IGNORECASE *)
Definition re_artist : Re.pattern :=
  Re.lits "Artist:" ++ [Re.Rep Re.space 0; Re.GOpen; Re.Rep Re.dot 1; Re.GClose].
(** r"Album:\s*(.+)", re.IGNORECASE *)
Definition re_album : Re.pattern :=
  Re.lits "Album:" ++ [Re.Rep Re.space 0; Re.GOpen; Re.Rep Re.dot 1; Re.GClose].
(** r"BER:\s*([0-9]*\.?[0-9eE+-]+)" *)
Definition re_ber : Re.pattern :=
  Re.lits "BER:" ++
  [Re.Rep Re.space 0; Re.GOpen; Re.Rep Re.digit 0; Re.Opt (Re.one_of ".");
   Re.Rep (fun c => Re.digit c || Re.one_of "eE+-" c) 1; Re.GClose].
(** r"Station location:\s*([0-9.+-]+),\s*([0-9.+-]+),\s*([0-9.+-]+)m",
    re.IGNORECASE *)
Definition re_station_loc : Re.pattern :=
  let num := [Re.GOpen; Re.Rep (fun c => Re.digit c || Re.one_of ".+-" c) 1;
              Re.GClose] in
  Re.lits "Station location:" ++ [Re.Rep Re.space 0] ++ num ++
  Re.lits "," ++ [Re.Rep Re.space 0] ++ num ++
  Re.lits "," ++ [Re.Rep Re.space 0] ++ num ++ Re.lits "m".

(** [m.group(n)], 1-based. *)
Definition group (n : nat) (gs : list string) : string :=
  nth (n - 1) gs EmptyString.

(** ** Qt processes and the outside world *)

(** QProcess.ProcessError, with its integer value. *)
Inductive ProcessError : Type :=
| FailedToStart | Crashed | Timedout | ReadError | WriteError | UnknownError.

Definition int_of_error (e : ProcessError) : Z :=
  match e with
  | FailedToStart => 0 | Crashed => 1 | Timedout => 2
  | ReadError => 3 | WriteError => 4 | UnknownError => 5
  end%Z.

Definition is_crashed (e : ProcessError) : bool :=
  match e with Crashed => true | _ => false end.

Inductive ExitStatus : Type := NormalExit | CrashExit.

Inductive ProcessState : Type := NotRunning | Starting | Running.

Definition is_running (st : ProcessState) : bool :=
  match st with Running => true | _ => false end.

Definition is_not_running (st : ProcessState) : bool :=
  match st with NotRunning => true | _ => false end.

(** A QProcess object: [pid] tells the objects apart, the buffers hold
    what the process has written and the program has not read yet. *)
Record QProcess : Type := {
  pid : nat;
  state : ProcessState;
  stdout_buf : string;
  stderr_buf : string
}.

Definition with_state (st : ProcessState) (p : QProcess) : QProcess :=
  {| pid := pid p; state := st;
     stdout_buf := stdout_buf p; stderr_buf := stderr_buf p |}.

Definition with_stdout (b : string) (p : QProcess) : QProcess :=
  {| pid := pid p; state := state p;
     stdout_buf := b; stderr_buf := stderr_buf p |}.

Definition with_stderr (b : string) (p : QProcess) : QProcess :=
  {| pid := pid p; state := state p;
     stdout_buf := stdout_buf p; stderr_buf := b |}.

(** The three processes the program runs; the slots connected to a
    process are fixed by its role when it is created. *)
Inductive Role : Type := Nrsc5 | Ffplay | Ffmpeg.

(** What a process signals. *)
Inductive signal : Type :=
| SigError (e : ProcessError)                   (* errorOccurred *)
| SigStdout (data : string)                     (* readyReadStandardOutput *)
| SigStderr (text : string)                     (* readyReadStandardError *)
| SigFinished (code : Z) (status : ExitStatus). (* finished *)

(** What a process may signal before it exits. *)
Inductive notice : Type :=
| NError (e : ProcessError)
| NStdout (data : string)
| NStderr (text : string).

Definition signal_of_notice (n : notice) : signal :=
  match n with
  | NError e => SigError e
  | NStdout d => SigStdout d
  | NStderr t => SigStderr t
  end.

(** [start] followed by [waitForStarted]: either the process is running
    when the wait returns True, or the wait returns False after the
    given errors were signalled, the process being still starting or
    not running. *)
Inductive start_result : Type :=
| Started
| NotStarted (errors : list ProcessError) (still_starting : bool).

(** [waitForFinished]: what the process signals during the wait and, if
    it exits within the wait, its exit code and status. *)
Record wait_result : Type := {
  emitted : list notice;
  exited : option (Z * ExitStatus)
}.

(** The answers of the environment, by the number of the question. *)
Record Env : Type := {
  qt_start : nat -> start_result;
  qt_wait : nat -> wait_result;
  datetime_now : nat -> Z;
  make_filename : nat -> string;  (* the path [_make_filename] builds *)
  path_exists : nat -> bool
}.

Inductive Icon : Type := Warning | Critical.

(** What the program does to the outside, in order. *)
Inductive effect : Type :=
| Spawn (p : nat) (program : string) (args : list string)
| Write (p : nat) (data : string)
| CloseWriteChannel (p : nat)
| Terminate (p : nat)
| Kill (p : nat)
| MessageBox (icon : Icon) (title text : string)
| Print (line : string).

Record World : Type := {
  next_pid : nat;
  trace : list effect;
  tick : nat;
  env : Env
}.

(** ** The state of the window *)

Record Flags : Type := {
  radio_running : bool;
  recording : bool;
  stopping_radio : bool
}.

Record Handles : Type := {
  proc_nrsc5 : option QProcess;
  proc_play : option QProcess;
  proc_rec : option QProcess;
  current_record_file : option string
}.

Record Station : Type := {
  station_lat : option PyFloat.float;
  station_lon : option PyFloat.float;
  station_alt : option PyFloat.float
}.

Record BerGraph : Type := {
  ber_history : list PyFloat.float;
  ber_curve : list Z * list PyFloat.float;
  ber_xrange : Z * Z;
  ber_yrange : PyFloat.float * PyFloat.float
}.

(** The first column of a history row is the clock reading, shown as
    %H:%M:%S. *)
Record NowPlaying : Type := {
  title_label : string;
  artist_label : string;
  album_label : string;
  display_title_label : string;
  display_artist_label : string;
  last_title : option string;
  last_artist : option string;
  last_album : option string;
  history_table : list (Z * string * string * string)
}.

Record RecordClock : Type := {
  record_start_time : option Z;
  record_duration_text : string;
  record_timer_active : bool;
  record_time_label : string
}.

(** [inputs_enabled] stands for freq_edit, host_edit, prog_combo,
    port_edit, record_dir_edit and browse_dir_btn, which
    [_update_ui_state] enables and disables together. *)
Record Controls : Type := {
  radio_btn_text : string;
  radio_btn_enabled : bool;
  record_btn_text : string;
  record_btn_style : string;
  record_btn_enabled : bool;
  inputs_enabled : bool
}.

Record Inputs : Type := {
  freq_edit : string;
  host_edit : string;
  port_edit : string;
  prog_combo : Z  (* currentIndex *)
}.

Record gui : Type := {
  flags : Flags;
  handles : Handles;
  station : Station;
  ber : BerGraph;
  playing : NowPlaying;
  rclock : RecordClock;
  controls : Controls;
  inputs : Inputs;
  status_text : string;
  log_text : list string;
  world : World
}.

Definition max_log_lines : nat := 100 * 100.
Definition max_history_rows : nat := 500.
Definition ber_max_points : nat := 300.
Definition prog_items : list string := ["0"; "1"; "2"; "3"].
Definition dash : string := "—".

(** *** Field updates *)

Definition set_flags (f : Flags) (s : gui) : gui :=
  {| flags := f; handles := handles s; station := station s; ber := ber s;
     playing := playing s; rclock := rclock s; controls := controls s;
     inputs := inputs s; status_text := status_text s;
     log_text := log_text s; world := world s |}.

Definition set_handles (h : Handles) (s : gui) : gui :=
  {| flags := flags s; handles := h; station := station s; ber := ber s;
     playing := playing s; rclock := rclock s; controls := controls s;
     inputs := inputs s; status_text := status_text s;
     log_text := log_text s; world := world s |}.

Definition set_station (x : Station) (s : gui) : gui :=
  {| flags := flags s; handles := handles s; station := x; ber := ber s;
     playing := playing s; rclock := rclock s; controls := controls s;
     inputs := inputs s; status_text := status_text s;
     log_text := log_text s; world := world s |}.

Definition set_ber (b : BerGraph) (s : gui) : gui :=
  {| flags := flags s; handles := handles s; station := station s; ber := b;
     playing := playing s; rclock := rclock s; controls := controls s;
     inputs := inputs s; status_text := status_text s;
     log_text := log_text s; world := world s |}.

Definition set_playing (p : NowPlaying) (s : gui) : gui :=
  {| flags := flags s; handles := handles s; station := station s;
     ber := ber s; playing := p; rclock := rclock s; controls := controls s;
     inputs := inputs s; status_text := status_text s;
     log_text := log_text s; world := world s |}.

Definition set_rclock (c : RecordClock) (s : gui) : gui :=
  {| flags := flags s; handles := handles s; station := station s;
     ber := ber s; playing := playing s; rclock := c; controls := controls s;
     inputs := inputs s; status_text := status_text s;
     log_text := log_text s; world := world s |}.

Definition set_controls (c : Controls) (s : gui) : gui :=
  {| flags := flags s; handles := handles s; station := station s;
     ber := ber s; playing := playing s; rclock := rclock s; controls := c;
     inputs := inputs s; status_text := status_text s;
     log_text := log_text s; world := world s |}.

Definition set_inputs (i : Inputs) (s : gui) : gui :=
  {| flags := flags s; handles := handles s; station := station s;
     ber := ber s; playing := playing s; rclock := rclock s;
     controls := controls s; inputs := i; status_text := status_text s;
     log_text := log_text s; world := world s |}.

Definition set_status_text (t : string) (s : gui) : gui :=
  {| flags := flags s; handles := handles s; station := station s;
     ber := ber s; playing := playing s; rclock := rclock s;
     controls := controls s; inputs := inputs s; status_text := t;
     log_text := log_text s; world := world s |}.

Definition set_log_text (l : list string) (s : gui) : gui :=
  {| flags := flags s; handles := handles s; station := station s;
     ber := ber s; playing := playing s; rclock := rclock s;
     controls := controls s; inputs := inputs s;
     status_text := status_text s; log_text := l; world := world s |}.

Definition set_world (w : World) (s : gui) : gui :=
  {| flags := flags s; handles := handles s; station := station s;
     ber := ber s; playing := playing s; rclock := rclock s;
     controls := controls s; inputs := inputs s;
     status_text := status_text s; log_text := log_text s; world := w |}.

Definition set_radio_running (b : bool) (s : gui) : gui :=
  set_flags {| radio_running := b; recording := recording (flags s);
               stopping_radio := stopping_radio (flags s) |} s.

Definition set_recording (b : bool) (s : gui) : gui :=
  set_flags {| radio_running := radio_running (flags s); recording := b;
               stopping_radio := stopping_radio (flags s) |} s.

Definition set_stopping_radio (b : bool) (s : gui) : gui :=
  set_flags {| radio_running := radio_running (flags s);
               recording := recording (flags s); stopping_radio := b |} s.

Definition set_proc_nrsc5 (p : option QProcess) (s : gui) : gui :=
  set_handles {| proc_nrsc5 := p; proc_play := proc_play (handles s);
                 proc_rec := proc_rec (handles s);
                 current_record_file := current_record_file (handles s) |} s.

Definition set_proc_play (p : option QProcess) (s : gui) : gui :=
  set_handles {| proc_nrsc5 := proc_nrsc5 (handles s); proc_play := p;
                 proc_rec := proc_rec (handles s);
                 current_record_file := current_record_file (handles s) |} s.

Definition set_proc_rec (p : option QProcess) (s : gui) : gui :=
  set_handles {| proc_nrsc5 := proc_nrsc5 (handles s);
                 proc_play := proc_play (handles s); proc_rec := p;
                 current_record_file := current_record_file (handles s) |} s.

Definition set_current_record_file (f : option string) (s : gui) : gui :=
  set_handles {| proc_nrsc5 := proc_nrsc5 (handles s);
                 proc_play := proc_play (handles s);
                 proc_rec := proc_rec (handles s);
                 current_record_file := f |} s.

(** The handle of a role, and its update. *)
Definition proc_of (r : Role) (s : gui) : option QProcess :=
  match r with
  | Nrsc5 => proc_nrsc5 (handles s)
  | Ffplay => proc_play (handles s)
  | Ffmpeg => proc_rec (handles s)
  end.

Definition set_proc (r : Role) (p : option QProcess) (s : gui) : gui :=
  match r with
  | Nrsc5 => set_proc_nrsc5 p s
  | Ffplay => set_proc_play p s
  | Ffmpeg => set_proc_rec p s
  end.

(** *** Talking to the world *)

Definition emit (e : effect) (s : gui) : gui :=
  set_world {| next_pid := next_pid (world s);
               trace := trace (world s) ++ [e];
               tick := tick (world s); env := env (world s) |} s.

(** The next answer of the environment. *)
Definition ask {A : Type} (q : Env -> nat -> A) (s : gui) : A * gui :=
  (q (env (world s)) (tick (world s)),
   set_world {| next_pid := next_pid (world s); trace := trace (world s);
                tick := S (tick (world s)); env := env (world s) |} s).

(** [QtCore.QProcess(self)]: a new object, not running. *)
Definition new_process (s : gui) : QProcess * gui :=
  ({| pid := next_pid (world s); state := NotRunning;
      stdout_buf := EmptyString; stderr_buf := EmptyString |},
   set_world {| next_pid := S (next_pid (world s)); trace := trace (world s);
                tick := tick (world s); env := env (world s) |} s).

Definition message_box (i : Icon) (title text : string) (s : gui) : gui :=
  emit (MessageBox i title text) s.

(** ** Log and process diagnostics *)

Definition _append_log_line (line : string) (s : gui) : gui :=
  let l := log_text s ++ [line] in
  set_log_text (skipn (List.length l - max_log_lines) l) s.

Definition err_map (e : ProcessError) : string :=
  match e with
  | FailedToStart => "Failed to start"
  | Crashed => "Crashed"
  | Timedout => "Timed out"
  | WriteError => "Write error"
  | ReadError => "Read error"
  | UnknownError => "Unknown error"
  end.

Definition _on_process_error (name : string) (error : ProcessError) (s : gui)
  : gui :=
  let msg := err_map error in
  if stopping_radio (flags s) && is_crashed error then
    _append_log_line (name ++ " terminated (user stop).")%string s
  else
    let s := _append_log_line
               (name ++ " error: " ++ msg ++ " (" ++
                PyStr.str_of_int (int_of_error error) ++ ")")%string s in
    if String.eqb name "nrsc5" then
      let s := set_status_text ("Status: nrsc5 error: " ++ msg)%string s in
      message_box Warning "nrsc5 Error" ("nrsc5 error: " ++ msg)%string s
    else s.

Definition _on_process_finished (name : string) (exitCode : Z)
    (exitStatus : ExitStatus) (s : gui) : gui :=
  match stopping_radio (flags s), exitStatus with
  | true, CrashExit =>
      _append_log_line (name ++ " terminated (user stop).")%string s
  | _, _ =>
      let status_str :=
        match exitStatus with NormalExit => "normal" | CrashExit => "crashed" end in
      _append_log_line
        (name ++ " finished with code " ++ PyStr.str_of_int exitCode ++
         ", status: " ++ status_str)%string s
  end.

(** ** The data pump *)

Definition write_to (p : QProcess) (data : string) (s : gui) : gui :=
  emit (Write (pid p) data) s.

Definition _distribute_audio_data (s : gui) : gui :=
  match proc_nrsc5 (handles s) with
  | None => s
  | Some n =>
      let data := stdout_buf n in
      let s := set_proc_nrsc5 (Some (with_stdout EmptyString n)) s in
      match data with
      | EmptyString => s
      | _ =>
          let s :=
            match proc_play (handles s) with
            | Some p => if is_running (state p) then write_to p data s else s
            | None => s
            end in
          match proc_rec (handles s) with
          | Some r =>
              if recording (flags s) && is_running (state r)
              then write_to r data s else s
          | None => s
          end
      end
  end.

(** ** Metadata and BER parsing *)

Definition float_10 : PyFloat.float := PyFloat.of_Z 10.
Definition float_100 : PyFloat.float := PyFloat.of_Z 100.
Definition float_1_1 : PyFloat.float := PyFloat.of_decimal false 11 (-1).

(** [list(range(n))] *)
Definition range (n : nat) : list Z := map Z.of_nat (seq 0 n).

Definition _update_ber_graph (ber_value : PyFloat.float) (s : gui) : gui :=
  let h := ber_history (ber s) ++ [ber_value] in
  let h := if ber_max_points <? List.length h
           then skipn (List.length h - ber_max_points) h else h in
  let xr :=
    if List.length h <? ber_max_points then (0, Z.of_nat ber_max_points - 1)%Z
    else (Z.of_nat (List.length h) - Z.of_nat ber_max_points,
          Z.of_nat (List.length h) - 1)%Z in
  let y_max := PyFloat.max_list PyFloat.zero h in
  let upper :=
    PyFloat.max2 float_10
      (if PyFloat.ltb PyFloat.zero y_max
       then PyFloat.mul y_max float_1_1 else float_10) in
  set_ber {| ber_history := h; ber_curve := (range (List.length h), h);
             ber_xrange := xr; ber_yrange := (PyFloat.zero, upper) |} s.

Definition blank_or_dash (t : string) : bool :=
  String.eqb t "" || String.eqb t dash.

Definition same_as_last (t : string) (last : option string) : bool :=
  match last with Some l => String.eqb t l | None => false end.

Definition _maybe_add_history_entry (s : gui) : gui :=
  let np := playing s in
  let title := PyStr.strip (title_label np) in
  let artist := PyStr.strip (artist_label np) in
  let album := PyStr.strip (album_label np) in
  if blank_or_dash title && blank_or_dash artist && blank_or_dash album then s
  else if same_as_last title (last_title np)
          && same_as_last artist (last_artist np)
          && same_as_last album (last_album np) then s
  else
    let (now, s) := ask datetime_now s in
    let rows := history_table np ++ [(now, title, artist, album)] in
    let rows := skipn (List.length rows - max_history_rows) rows in
    set_playing
      {| title_label := title_label np; artist_label := artist_label np;
         album_label := album_label np;
         display_title_label := display_title_label np;
         display_artist_label := display_artist_label np;
         last_title := Some title; last_artist := Some artist;
         last_album := Some album; history_table := rows |} s.

Definition set_title (t : string) (s : gui) : gui :=
  let np := playing s in
  set_playing
    {| title_label := t; artist_label := artist_label np;
       album_label := album_label np; display_title_label := t;
       display_artist_label := display_artist_label np;
       last_title := last_title np; last_artist := last_artist np;
       last_album := last_album np; history_table := history_table np |} s.

Definition set_artist (t shown : string) (s : gui) : gui :=
  let np := playing s in
  set_playing
    {| title_label := title_label np; artist_label := t;
       album_label := album_label np;
       display_title_label := display_title_label np;
       display_artist_label := shown;
       last_title := last_title np; last_artist := last_artist np;
       last_album := last_album np; history_table := history_table np |} s.

Definition set_album (t : string) (s : gui) : gui :=
  let np := playing s in
  set_playing
    {| title_label := title_label np; artist_label := artist_label np;
       album_label := t; display_title_label := display_title_label np;
       display_artist_label := display_artist_label np;
       last_title := last_title np; last_artist := last_artist np;
       last_album := last_album np; history_table := history_table np |} s.

(** The BER step of the loop body. *)
Definition scan_ber (line : string) (s : gui) : gui :=
  match Re.search false re_ber line with
  | Some m =>
      match PyFloat.of_str (group 1 m) with
      | Some ber_val => _update_ber_graph (PyFloat.mul ber_val float_100) s
      | None => s
      end
  | None => s
  end.

(** The title, artist and album steps; the flag is metadata_changed. *)
Definition scan_metadata (line : string) (acc : gui * bool) : gui * bool :=
  let acc :=
    match Re.search true re_title line with
    | Some m => (set_title (PyStr.strip (group 1 m)) (fst acc), true)
    | None => acc
    end in
  let acc :=
    match Re.search true re_artist line with
    | Some m =>
        let artist_text := PyStr.strip (group 1 m) in
        let shown :=
          if PyStr.contains "bieber" (PyStr.lower artist_text)
          then "[artist choice not endorsed]" else artist_text in
        (set_artist artist_text shown (fst acc), true)
    | None => acc
    end in
  match Re.search true re_album line with
  | Some m => (set_album (PyStr.strip (group 1 m)) (fst acc), true)
  | None => acc
  end.

(** The station-location step: the three numbers are converted before
    the first field is assigned. *)
Definition scan_station (line : string) (s : gui) : gui :=
  match Re.search true re_station_loc line with
  | Some m =>
      match PyFloat.of_str (group 1 m) with
      | None => s
      | Some lat =>
          match PyFloat.of_str (group 2 m) with
          | None => s
          | Some lon =>
              match PyFloat.of_str (group 3 m) with
              | None => s
              | Some alt =>
                  set_station {| station_lat := Some lat;
                                 station_lon := Some lon;
                                 station_alt := Some alt |} s
              end
          end
      end
  | None => s
  end.

(** One turn of the loop over the lines. *)
Definition scan_line (acc : gui * bool) (line : string) : gui * bool :=
  let line := PyStr.strip line in
  match line with
  | EmptyString => acc
  | _ =>
      let s := _append_log_line line (fst acc) in
      let s := scan_ber line s in
      let '(s, changed) := scan_metadata line (s, snd acc) in
      (scan_station line s, changed)
  end.

(** [text] is the decoded content of nrsc5's standard error. *)
Definition _parse_metadata_output (s : gui) : gui :=
  match proc_nrsc5 (handles s) with
  | None => s
  | Some n =>
      let text := stderr_buf n in
      let s := set_proc_nrsc5 (Some (with_stderr EmptyString n)) s in
      let '(s, metadata_changed) :=
        fold_left scan_line (PyStr.splitlines text) (s, false) in
      if metadata_changed then _maybe_add_history_entry s else s
  end.

(** ** Signals and waits

    A handler that may run out of fuel returns [None]; fuel only bounds
    how deep [stop_stream] and the finished slot of nrsc5 may call each
    other. *)

Definition handler := gui -> option gui.

Notation "'let*' x ':=' m 'in' k" :=
  (match m with Some x => k | None => None end)
    (at level 10, x pattern, m at level 100, k at level 200).

(** Qt updates the object that signals, if the window still holds it. *)
Definition update_object (r : Role) (p : nat) (sig : signal) (s : gui) : gui :=
  match proc_of r s with
  | Some q =>
      if pid q =? p then
        set_proc r
          (Some match sig with
                | SigError FailedToStart => with_state NotRunning q
                | SigError _ => q
                | SigStdout d => with_stdout (stdout_buf q ++ d)%string q
                | SigStderr t => with_stderr (stderr_buf q ++ t)%string q
                | SigFinished _ _ => with_state NotRunning q
                end) s
      else s
  | None => s
  end.

Definition _on_nrsc5_finished (stop_stream : handler) (exitCode : Z)
    (exitStatus : ExitStatus) : handler := fun s =>
  let s := _on_process_finished "nrsc5" exitCode exitStatus s in
  if radio_running (flags s) && negb (stopping_radio (flags s))
  then stop_stream s else Some s.

(** The slots connected in [start_stream] and [start_recording]. *)
Definition slots (stop_stream : handler) (r : Role) (sig : signal) : handler :=
  fun s =>
  match r, sig with
  | Nrsc5, SigError e => Some (_on_process_error "nrsc5" e s)
  | Nrsc5, SigStdout _ => Some (_distribute_audio_data s)
  | Nrsc5, SigStderr _ => Some (_parse_metadata_output s)
  | Nrsc5, SigFinished c st => _on_nrsc5_finished stop_stream c st s
  | Ffplay, SigError e => Some (_on_process_error "ffplay" e s)
  | Ffplay, SigFinished c st => Some (_on_process_finished "ffplay" c st s)
  | Ffmpeg, SigError e => Some (_on_process_error "ffmpeg" e s)
  | Ffmpeg, SigFinished c st => Some (_on_process_finished "ffmpeg" c st s)
  | _, _ => Some s
  end.

Definition deliver (stop_stream : handler) (r : Role) (p : nat) (sig : signal)
  : handler := fun s => slots stop_stream r sig (update_object r p sig s).

Fixpoint deliver_all (stop_stream : handler) (r : Role) (p : nat)
    (l : list signal) : handler := fun s =>
  match l with
  | [] => Some s
  | sig :: l' =>
      let* s := deliver stop_stream r p sig s in
      deliver_all stop_stream r p l' s
  end.

(** [proc.waitForFinished(msecs)] on the process [p] of role [r]. *)
Definition waitForFinished (stop_stream : handler) (r : Role) (p : nat)
    (s : gui) : option (bool * gui) :=
  let (w, s) := ask qt_wait s in
  let* s := deliver_all stop_stream r p (map signal_of_notice (emitted w)) s in
  match exited w with
  | Some (code, st) =>
      let* s := deliver stop_stream r p (SigFinished code st) s in
      Some (true, s)
  | None => Some (false, s)
  end.

Definition set_state_of (r : Role) (p : nat) (st : ProcessState) (s : gui)
  : gui :=
  match proc_of r s with
  | Some q => if pid q =? p then set_proc r (Some (with_state st q)) s else s
  | None => s
  end.

(** [proc.start(program, args)] followed by [proc.waitForStarted(msecs)]. *)
Definition start_and_wait (stop_stream : handler) (r : Role) (p : nat)
    (program : string) (args : list string) (s : gui) : option (bool * gui) :=
  let s := emit (Spawn p program args) s in
  let s := set_state_of r p Starting s in
  let (res, s) := ask qt_start s in
  match res with
  | Started => Some (true, set_state_of r p Running s)
  | NotStarted errors still_starting =>
      let* s := deliver_all stop_stream r p (map SigError errors) s in
      Some (false,
            set_state_of r p (if still_starting then Starting else NotRunning) s)
  end.

(** ** Recording controls *)

Definition set_record_btn (text style : string) (s : gui) : gui :=
  let c := controls s in
  set_controls
    {| radio_btn_text := radio_btn_text c;
       radio_btn_enabled := radio_btn_enabled c;
       record_btn_text := text; record_btn_style := style;
       record_btn_enabled := record_btn_enabled c;
       inputs_enabled := inputs_enabled c |} s.

(** The handler that is out of fuel. *)
Definition no_handler : handler := fun _ => None.

(** The first block of [stop_recording]: the recorder's input is closed
    so that it can finish the file, and it is terminated if it still
    runs after the wait.  The slots that run during the wait are
    ffmpeg's, which leave the handle in place. *)
Definition close_recorder : handler := fun s =>
  match proc_rec (handles s) with
  | Some r =>
      if is_running (state r) then
        let s := emit (CloseWriteChannel (pid r)) s in
        let* (_, s) := waitForFinished no_handler Ffmpeg (pid r) s in
        match proc_rec (handles s) with
        | Some r' =>
            if is_running (state r')
            then Some (emit (Terminate (pid r')) s) else Some s
        | None => Some s
        end
      else Some s
  | None => Some s
  end.

(** The [print] at the end of [stop_recording]. *)
Definition report_saved (s : gui) : gui :=
  match current_record_file (handles s) with
  | Some (String c f) =>
      let (there, s) := ask path_exists s in
      if there then emit (Print ("Recording saved: " ++ String c f)%string) s
      else s
  | _ => s
  end.

Definition stop_recording : handler := fun s =>
  if negb (recording (flags s)) then Some s
  else
    let* s := close_recorder s in
    let s := set_recording false s in
    let s := set_record_btn "Start Recording" "" s in
    let s := set_rclock
               {| record_start_time := None; record_duration_text := "";
                  record_timer_active := false;
                  record_time_label := record_time_label (rclock s) |} s in
    let s := set_status_text
               (if radio_running (flags s)
                then "Status: Listening" else "Status: Idle") s in
    let s := report_saved s in
    Some (set_proc_rec None s).

(** [t.split("-")[0]] *)
Fixpoint before_dash (t : string) : string :=
  match t with
  | EmptyString => EmptyString
  | String c t' =>
      if (PyStr.code c =? 45)%N then EmptyString else String c (before_dash t')
  end.

(** The number at the head of the program selector's current item; the
    items are "0" to "3". *)
Definition _get_current_program_number (s : gui) : Z :=
  let idx := prog_combo (inputs s) in
  if (idx <? 0)%Z then 0%Z
  else
    let text := PyStr.strip (nth (Z.to_nat idx) prog_items EmptyString) in
    match PyStr.int_of_str (PyStr.strip (before_dash text)) with
    | Some n => n
    | None => match PyStr.int_of_str text with Some n => n | None => 0%Z end
    end.

Definition ffmpeg_args (file : string) : list string :=
  ["-y"; "-hide_banner"; "-loglevel"; "error"; "-f"; "s16le"; "-ar"; "44100";
   "-ac"; "2"; "-i"; "pipe:0"; "-codec:a"; "libmp3lame"; "-qscale:a"; "2";
   file].

(** The path of the recording is made from the labels, the clock and
    the recording directory by [_make_filename]; here it is an answer
    of the environment. *)
Definition start_recording : handler := fun s =>
  if negb (radio_running (flags s)) then Some s
  else
    let (file, s) := ask make_filename s in
    let s := set_current_record_file (Some file) s in
    let (r, s) := new_process s in
    let s := set_proc_rec (Some r) s in
    let* (started, s) :=
      start_and_wait no_handler Ffmpeg (pid r) "ffmpeg" (ffmpeg_args file) s in
    if started then
      let s := set_recording true s in
      let s := set_record_btn "Stop Recording" (record_btn_style (controls s)) s in
      let s := set_status_text "Status: Listening & Recording" s in
      let (now, s) := ask datetime_now s in
      let s := set_rclock
                 {| record_start_time := Some now;
                    record_duration_text := "00:00:00";
                    record_timer_active := true;
                    record_time_label := "00:00:00" |} s in
      Some (set_record_btn (record_btn_text (controls s))
              "background-color: #ffcccc" s)
    else
      Some (message_box Warning "Error" "Could not start ffmpeg recorder." s).

Definition toggle_recording : handler := fun s =>
  if recording (flags s) then stop_recording s else start_recording s.

(** ** Streaming controls *)

Definition warn_input (text : string) (s : gui) : bool * gui :=
  (false, message_box Warning "Input Error" text s).

Definition _validate_start_inputs (s : gui) : bool * gui :=
  let freq_text := PyStr.strip (freq_edit (inputs s)) in
  match PyFloat.of_str freq_text with
  | None => warn_input "Frequency must be a number (MHz)." s
  | Some freq_val =>
      if PyFloat.leb freq_val PyFloat.zero then
        warn_input "Frequency must be greater than zero." s
      else
        let host := PyStr.strip (host_edit (inputs s)) in
        let port_text := PyStr.strip (port_edit (inputs s)) in
        match host with
        | EmptyString => (true, s)
        | _ =>
            match port_text with
            | EmptyString =>
                warn_input
                  "Port is required when a remote rtl_tcp host is specified." s
            | _ =>
                match PyStr.int_of_str port_text with
                | None => warn_input "Port must be an integer." s
                | Some port_val =>
                    if ((1 <=? port_val) && (port_val <=? 65535))%Z
                    then (true, s)
                    else warn_input "Port must be between 1 and 65535." s
                end
            end
        end
  end.

Definition _update_ui_state (running : bool) (s : gui) : gui :=
  let c := controls s in
  let s := set_controls
             {| radio_btn_text := radio_btn_text c; radio_btn_enabled := true;
                record_btn_text := record_btn_text c;
                record_btn_style := record_btn_style c;
                record_btn_enabled := running;
                inputs_enabled := negb running |} s in
  if running then
    if negb (recording (flags s)) then set_status_text "Status: Listening" s
    else s
  else set_status_text "Status: Idle" s.

Definition _reset_labels (s : gui) : gui :=
  let np := playing s in
  let s := set_playing
             {| title_label := dash; artist_label := dash; album_label := dash;
                display_title_label := dash; display_artist_label := dash;
                last_title := last_title np; last_artist := last_artist np;
                last_album := last_album np;
                history_table := history_table np |} s in
  let s := set_rclock
             {| record_start_time := None; record_duration_text := "";
                record_timer_active := false; record_time_label := "" |} s in
  let s := set_station {| station_lat := None; station_lon := None;
                          station_alt := None |} s in
  let s := set_ber {| ber_history := []; ber_curve := ([], []);
                      ber_xrange := ber_xrange (ber s);
                      ber_yrange := ber_yrange (ber s) |} s in
  let s := set_log_text [] s in
  let np := playing s in
  set_playing
    {| title_label := title_label np; artist_label := artist_label np;
       album_label := album_label np;
       display_title_label := display_title_label np;
       display_artist_label := display_artist_label np;
       last_title := None; last_artist := None; last_album := None;
       history_table := [] |} s.

Definition set_radio_btn (text : string) (enabled : bool) (s : gui) : gui :=
  let c := controls s in
  set_controls
    {| radio_btn_text := text; radio_btn_enabled := enabled;
       record_btn_text := record_btn_text c;
       record_btn_style := record_btn_style c;
       record_btn_enabled := record_btn_enabled c;
       inputs_enabled := inputs_enabled c |} s.

(** [_kill_process(proc)] for the process held under role [r]. *)
Definition _kill_process (stop_stream : handler) (r : Role) : handler := fun s =>
  match proc_of r s with
  | Some p =>
      if negb (is_not_running (state p)) then
        let s := emit (Terminate (pid p)) s in
        let* (finished, s) := waitForFinished stop_stream r (pid p) s in
        if finished then Some s else Some (emit (Kill (pid p)) s)
      else Some s
  | None => Some s
  end.

(** The body of [stop_stream]; [self_stop] is [stop_stream] itself, as
    the finished slot of nrsc5 may call it during the wait. *)
Definition stop_stream_body (self_stop : handler) : handler := fun s =>
  let* s := stop_recording s in
  let* s := _kill_process self_stop Nrsc5 s in
  let* s := _kill_process self_stop Ffplay s in
  let s := set_proc_nrsc5 None s in
  let s := set_proc_play None s in
  let s := set_radio_running false s in
  let s := set_radio_btn "Start Radio" (radio_btn_enabled (controls s)) s in
  Some (_update_ui_state false s).

Fixpoint stop_stream (fuel : nat) : handler :=
  match fuel with
  | 0 => no_handler
  | S fuel' => stop_stream_body (stop_stream fuel')
  end.

Definition play_args : list string :=
  ["-nodisp"; "-autoexit"; "-hide_banner"; "-loglevel"; "quiet"; "-f";
   "s16le"; "-ar"; "44100"; "-ac"; "2"; "-fflags"; "nobuffer"; "-flags";
   "low_delay"; "-i"; "pipe:0"].

Definition nrsc_args (host port freq prog : string) : list string :=
  match host with
  | EmptyString => []
  | _ =>
      ["-H"; match port with
             | EmptyString => host
             | _ => (host ++ ":" ++ port)%string
             end]
  end ++ [freq; prog; "-o"; "-"].

Definition start_stream (fuel : nat) : handler := fun s =>
  if radio_running (flags s) then Some s
  else
    let (valid, s) := _validate_start_inputs s in
    if negb valid then Some s
    else
      let freq := PyStr.strip (freq_edit (inputs s)) in
      let prog :=
        PyStr.strip (PyStr.str_of_int (_get_current_program_number s)) in
      let host := PyStr.strip (host_edit (inputs s)) in
      let port := PyStr.strip (port_edit (inputs s)) in
      let (p, s) := new_process s in
      let s := set_proc_play (Some p) s in
      let* (started, s) :=
        start_and_wait (stop_stream fuel) Ffplay (pid p) "ffplay" play_args s in
      if negb started then
        let s := message_box Critical "Error" "Failed to start ffplay." s in
        let* s := _kill_process (stop_stream fuel) Ffplay s in
        Some (set_proc_play None s)
      else
        let (n, s) := new_process s in
        let s := set_proc_nrsc5 (Some n) s in
        let* (started, s) :=
          start_and_wait (stop_stream fuel) Nrsc5 (pid n) "nrsc5"
            (nrsc_args host port freq prog) s in
        if started then
          let s := set_radio_running true s in
          let s := set_radio_btn "Stop Radio" (radio_btn_enabled (controls s)) s in
          let s := _update_ui_state true s in
          Some (_reset_labels s)
        else
          let s := message_box Critical "Error" "Failed to start nrsc5." s in
          stop_stream fuel s.

Definition toggle_radio (fuel : nat) : handler := fun s =>
  if negb (radio_btn_enabled (controls s)) then Some s
  else
    let s := set_radio_btn (radio_btn_text (controls s)) false s in
    let* s :=
      if radio_running (flags s) then
        let s := set_stopping_radio true s in
        let* s := stop_stream fuel s in
        Some (set_stopping_radio false s)
      else start_stream fuel s in
    Some (set_radio_btn (radio_btn_text (controls s)) true s).

(** ** Presets tab: tuning *)

Fixpoint dict_get {V : Type} (d : list (string * V)) (key : string) (default : V)
  : V :=
  match d with
  | [] => default
  | (k, v) :: d' => if String.eqb k key then v else dict_get d' key default
  end.

Fixpoint find_program (items : list string) (prog_str : string) (i : Z)
  : option Z :=
  match items with
  | [] => None
  | text :: items' =>
      if String.eqb (PyStr.strip (before_dash (PyStr.strip text))) prog_str
      then Some i else find_program items' prog_str (i + 1)%Z
  end.

Definition set_freq_edit (t : string) (s : gui) : gui :=
  let i := inputs s in
  set_inputs {| freq_edit := t; host_edit := host_edit i;
                port_edit := port_edit i; prog_combo := prog_combo i |} s.

Definition set_host_edit (t : string) (s : gui) : gui :=
  let i := inputs s in
  set_inputs {| freq_edit := freq_edit i; host_edit := t;
                port_edit := port_edit i; prog_combo := prog_combo i |} s.

Definition set_port_edit (t : string) (s : gui) : gui :=
  let i := inputs s in
  set_inputs {| freq_edit := freq_edit i; host_edit := host_edit i;
                port_edit := t; prog_combo := prog_combo i |} s.

Definition set_prog_combo (idx : Z) (s : gui) : gui :=
  let i := inputs s in
  set_inputs {| freq_edit := freq_edit i; host_edit := host_edit i;
                port_edit := port_edit i; prog_combo := idx |} s.

Definition _select_program_by_number (prog_str : string) (s : gui) : gui :=
  match find_program prog_items prog_str 0%Z with
  | Some i => set_prog_combo i s
  | None => s
  end.

(** [meta] is the preset's dict; its values are strings here, as in the
    presets made by [_add_preset]. *)
Definition _tune_preset_item (fuel : nat) (meta : list (string * string))
  : handler := fun s =>
  match meta with
  | [] => Some s
  | _ =>
      let freq := dict_get meta "freq" "" in
      let prog := dict_get meta "prog" "0" in
      let s := match freq with
               | EmptyString => s
               | _ => set_freq_edit freq s
               end in
      let s := _select_program_by_number prog s in
      if radio_running (flags s) then
        let s := set_stopping_radio true s in
        let* s := stop_stream fuel s in
        let s := set_stopping_radio false s in
        start_stream fuel s
      else Some s
  end.

(** [_save_settings] only writes the persisted settings. *)
Definition closeEvent (fuel : nat) : handler := fun s =>
  let s := set_stopping_radio true s in
  stop_stream fuel s.

(** ** The event loop *)

Inductive event : Type :=
| Click_radio_btn
| Click_record_btn
| Click_clear_log_btn
| Activate_preset (meta : list (string * string))
| Close_window
| Edit_freq (t : string)
| Edit_host (t : string)
| Edit_port (t : string)
| Select_program (idx : Z)
| Process_signal (r : Role) (p : nat) (sig : signal)
| Process_started (r : Role) (p : nat).

(** A disabled widget takes no input from the user. *)
Definition step (fuel : nat) (e : event) : handler := fun s =>
  match e with
  | Click_radio_btn =>
      if radio_btn_enabled (controls s) then toggle_radio fuel s else Some s
  | Click_record_btn =>
      if record_btn_enabled (controls s) then toggle_recording s else Some s
  | Click_clear_log_btn => Some (set_log_text [] s)
  | Activate_preset meta => _tune_preset_item fuel meta s
  | Close_window => closeEvent fuel s
  | Edit_freq t =>
      Some (if inputs_enabled (controls s) then set_freq_edit t s else s)
  | Edit_host t =>
      Some (if inputs_enabled (controls s) then set_host_edit t s else s)
  | Edit_port t =>
      Some (if inputs_enabled (controls s) then set_port_edit t s else s)
  | Select_program idx =>
      Some (if inputs_enabled (controls s) then set_prog_combo idx s else s)
  | Process_signal r p sig => deliver (stop_stream fuel) r p sig s
  | Process_started r p =>
      Some match proc_of r s with
           | Some q =>
               if (pid q =? p) && negb (is_not_running (state q))
               then set_proc r (Some (with_state Running q)) s else s
           | None => s
           end
  end.

Fixpoint run (fuel : nat) (es : list event) : handler := fun s =>
  match es with
  | [] => Some s
  | e :: es' => let* s := step fuel e s in run fuel es' s
  end.

(** The window after [__init__]: the edits hold the saved settings, the
    radio button is disabled when a binary is missing. *)
Definition init (i : Inputs) (radio_enabled : bool) (e : Env) : gui :=
  {| flags := {| radio_running := false; recording := false;
                 stopping_radio := false |};
     handles := {| proc_nrsc5 := None; proc_play := None; proc_rec := None;
                   current_record_file := None |};
     station := {| station_lat := None; station_lon := None;
                   station_alt := None |};
     ber := {| ber_history := []; ber_curve := ([], []);
               ber_xrange := (0, Z.of_nat ber_max_points - 1)%Z;
               ber_yrange := (PyFloat.zero, float_10) |};
     playing := {| title_label := dash; artist_label := dash;
                   album_label := dash; display_title_label := dash;
                   display_artist_label := dash; last_title := None;
                   last_artist := None; last_album := None;
                   history_table := [] |};
     rclock := {| record_start_time := None; record_duration_text := "";
                  record_timer_active := false; record_time_label := "" |};
     controls := {| radio_btn_text := "Start Radio";
                    radio_btn_enabled := radio_enabled;
                    record_btn_text := "Start Recording";
                    record_btn_style := ""; record_btn_enabled := false;
                    inputs_enabled := true |};
     inputs := i;
     status_text := "Status: Idle";
     log_text := [];
     world := {| next_pid := 0; trace := []; tick := 0; env := e |} |}.

(** The states the window can be in. *)
Inductive reachable : gui -> Prop :=
| reach_init : forall i b e, reachable (init i b e)
| reach_step : forall fuel ev s s',
    reachable s -> step fuel ev s = Some s' -> reachable s'.

(** ** The duration of a recording

    The slot of the record timer.  A clock reading counts
    microseconds. *)

(** [delta.total_seconds()] of a difference of [us] microseconds: the
    quotient by 10**6, rounded to the nearest float. *)
Definition total_seconds (us : Z) : PyFloat.float :=
  PyFloat.of_decimal (us <? 0)%Z (Z.abs us) (-6).

(** [int(x)] of a float, which truncates; [None] stands for the
    exception raised for an infinity or a NaN. *)
Definition int_of_float (x : PyFloat.float) : option Z :=
  match x with
  | S754_zero _ => Some 0%Z
  | S754_finite sign m e =>
      let a := if (0 <=? e)%Z then (Zpos m * 2 ^ e)%Z
               else (Zpos m / 2 ^ (- e))%Z in
      Some (if sign then (- a)%Z else a)
  | _ => None
  end.

(** The format [{n:02}] of an [int]. *)
Definition format_02 (n : Z) : string :=
  let t := PyStr.str_of_int n in
  if String.length t <? 2 then ("0" ++ t)%string else t.

Definition _update_record_duration : handler := fun s =>
  if negb (recording (flags s)) then Some s
  else
    match record_start_time (rclock s) with
    | None => Some s
    | Some start =>
        let (now, s) := ask datetime_now s in
        let* total_secs := int_of_float (total_seconds (now - start)) in
        let h := (total_secs / 3600)%Z in
        let m := ((total_secs mod 3600) / 60)%Z in
        let sec := (total_secs mod 60)%Z in
        let text :=
          (format_02 h ++ ":" ++ format_02 m ++ ":" ++ format_02 sec)%string in
        Some (set_rclock
                {| record_start_time := record_start_time (rclock s);
                   record_duration_text := text;
                   record_timer_active := record_timer_active (rclock s);
                   record_time_label := text |} s)
    end.

(** ** The name of a recording

    [start_recording] above takes the path as an answer of the
    environment; this is the function that makes it. *)

(** The characters of the class in [_sanitize_filename]: backslash,
    slash, star, question mark, colon, double quote, the angle
    brackets and the bar. *)
Definition unsafe_char (c : ascii) : bool :=
  existsb (N.eqb (PyStr.code c)) [92; 47; 42; 63; 58; 34; 60; 62; 124]%N.

(** [re.sub] of that class by the empty string. *)
Fixpoint remove_unsafe (text : string) : string :=
  match text with
  | EmptyString => EmptyString
  | String c text' =>
      if unsafe_char c then remove_unsafe text'
      else String c (remove_unsafe text')
  end.

Definition _sanitize_filename (text : string) : string :=
  PyStr.strip (remove_unsafe text).

(** [s.replace(".", "_")] *)
Fixpoint replace_dot (s : string) : string :=
  match s with
  | EmptyString => EmptyString
  | String c s' =>
      String (if (PyStr.code c =? 46)%N then "_"%char else c) (replace_dot s')
  end.

Definition ends_with_slash (s : string) : bool :=
  match PyStr.rev s with
  | String c _ => (PyStr.code c =? 47)%N
  | EmptyString => false
  end.

(** [os.path.join(a, b)] of posixpath. *)
Definition path_join (a b : string) : string :=
  match b with
  | String c _ =>
      if (PyStr.code c =? 47)%N then b
      else
        match a with
        | EmptyString => b
        | _ => if ends_with_slash a then (a ++ b)%string
               else (a ++ "/" ++ b)%string
        end
  | EmptyString =>
      match a with
      | EmptyString => b
      | _ => if ends_with_slash a then a else (a ++ "/")%string
      end
  end.

(** [_make_filename(freq, prog)]: [ts_short] and [ts_long] are the clock
    formatted as %H%M%S and as %Y-%m-%d_%H-%M-%S, [record_dir] is the
    text of the directory field, [isdir] whether it names a directory,
    and [desktop] is the expansion of ~/Desktop. *)
Definition _make_filename (freq prog ts_short ts_long record_dir : string)
    (isdir : bool) (desktop : string) (s : gui) : string :=
  let artist := artist_label (playing s) in
  let title := title_label (playing s) in
  let has_meta := negb (blank_or_dash artist) && negb (blank_or_dash title) in
  let filename :=
    if has_meta then
      (_sanitize_filename title ++ " - " ++ _sanitize_filename artist ++
       "_" ++ ts_short ++ ".mp3")%string
    else
      ("Radio_" ++ replace_dot freq ++ "_P" ++ prog ++ "_" ++ ts_long ++
       ".mp3")%string in
  let dir_path := PyStr.strip record_dir in
  let dir_path :=
    match dir_path with
    | EmptyString => desktop
    | _ => if isdir then dir_path else desktop
    end in
  path_join dir_path filename.

(** ** The dependency check

    [found] is whether [shutil.which] finds the binary. *)

Definition _check_dependency (found : bool) (binary : string) (s : gui) : gui :=
  if found then s
  else
    let s := message_box Critical "Missing Dependency"
               ("'" ++ binary ++ "' not found in PATH." ++
                String "010" "Please install it to use this tool.")%string s in
    set_radio_btn (radio_btn_text (controls s)) false s.

(** The window at the end of [__init__], after the three checks;
    [which] tells the binaries that are installed. *)
Definition init_checked (which : string -> bool) (i : Inputs) (e : Env) : gui :=
  _check_dependency (which "ffplay") "ffplay"
    (_check_dependency (which "ffmpeg") "ffmpeg"
       (_check_dependency (which "nrsc5") "nrsc5" (init i true e))).

(** ** Presets: export and import

    A preset is the dict given to the item as its user data; the list
    widget is the list of these dicts in row order.  [json.dump] and
    [json.load] are the standard library's: the file is modelled by the
    value dumped, which is what loading it returns.  A dict is the
    list of its keys and values in insertion order. *)

Module Presets.

(** What [json.load] can return. *)
#[local] Unset Elimination Schemes.
Inductive json : Type :=
| JNull
| JBool (b : bool)
| JInt (n : Z)
| JFloat (f : PyFloat.float)
| JStr (s : string)
| JList (l : list json)
| JDict (d : list (string * json)).
#[local] Set Elimination Schemes.

(** Truth value of a Python object. *)
Definition truthy (v : json) : bool :=
  match v with
  | JNull => false
  | JBool b => b
  | JInt n => negb (n =? 0)%Z
  | JFloat (S754_zero _) => false
  | JFloat _ => true
  | JStr EmptyString => false
  | JStr _ => true
  | JList [] => false
  | JList _ => true
  | JDict [] => false
  | JDict _ => true
  end.

Definition is_str (v : json) : bool :=
  match v with JStr _ => true | _ => false end.

(** The saved files, by name. *)
Definition files := list (string * json).

Fixpoint read_file (fs : files) (filename : string) : option json :=
  match fs with
  | [] => None
  | (n, v) :: fs' => if String.eqb n filename then Some v else read_file fs' filename
  end.

Record tab : Type := {
  preset_list : list json;
  disk : files;
  boxes : list (string * string)  (* the warnings shown: title, text *)
}.

Definition with_list (l : list json) (t : tab) : tab :=
  {| preset_list := l; disk := disk t; boxes := boxes t |}.

Definition warn (title text : string) (t : tab) : tab :=
  {| preset_list := preset_list t; disk := disk t;
     boxes := boxes t ++ [(title, text)] |}.

(** [_add_preset], from the frequency field, the program number and the
    name field. *)
Definition _add_preset (freq_text : string) (prog_num : Z) (name_text : string)
    (t : tab) : tab :=
  let freq := PyStr.strip freq_text in
  let prog_str := PyStr.str_of_int prog_num in
  match freq with
  | EmptyString => t
  | _ =>
      let name :=
        match PyStr.strip name_text with
        | EmptyString => (freq ++ " MHz P" ++ prog_str)%string
        | n => n
        end in
      with_list
        (preset_list t ++
         [JDict [("name", JStr name); ("freq", JStr freq);
                 ("prog", JStr prog_str)]]) t
  end.

Definition is_dict (v : json) : bool :=
  match v with JDict _ => true | _ => false end.

(** [_export_presets]: [filename] is what the dialog returned, [ok]
    whether the file could be written; [e] is the text of the
    exception otherwise. *)
Definition _export_presets (filename : string) (ok : bool) (e : string)
    (t : tab) : tab :=
  match filename with
  | EmptyString => t
  | _ =>
      let presets := filter is_dict (preset_list t) in
      if ok then
        {| preset_list := preset_list t;
           disk := (filename, JList presets) :: disk t; boxes := boxes t |}
      else
        warn "Export Error"
             ("Failed to export presets:" ++ String "010" e)%string t
  end.

(** Building the item's label adds strings: with no name to show it
    raises TypeError unless freq and prog are strings. *)
Definition label_raises (name freq prog : json) : bool :=
  negb (truthy name) && negb (is_str freq && is_str prog).

(** The loop of [_import_presets]; the flag tells that it was left by
    an exception. *)
Fixpoint import_loop (data : list json) (items : list json)
  : list json * bool :=
  match data with
  | [] => (items, false)
  | meta :: rest =>
      match meta with
      | JDict d =>
          let name := dict_get d "name" (JStr "") in
          let freq := dict_get d "freq" (JStr "") in
          let prog := dict_get d "prog" (JStr "0") in
          if negb (truthy freq) then import_loop rest items
          else if label_raises name freq prog then (items, true)
          else import_loop rest (items ++ [meta])
      | _ => import_loop rest items
      end
  end.

(** [_import_presets]: [e] is the text of the exception when the file
    cannot be opened or parsed. *)
Definition _import_presets (filename : string) (e : string) (t : tab)
  : tab * bool :=
  match filename with
  | EmptyString => (t, false)
  | _ =>
      match read_file (disk t) filename with
      | None =>
          (warn "Import Error"
                ("Failed to import presets:" ++ String "010" e)%string t,
           false)
      | Some (JList data) =>
          let (items, raised) := import_loop data (preset_list t) in
          (with_list items t, raised)
      | Some _ =>
          (warn "Import Error" "Invalid presets file format." t, false)
      end
  end.

(** The loop of [_load_presets]: an entry that is no dict has no [get]
    and raises AttributeError. *)
Fixpoint load_loop (data : list json) (items : list json)
  : list json * bool :=
  match data with
  | [] => (items, false)
  | meta :: rest =>
      match meta with
      | JDict d =>
          let name := dict_get d "name" (JStr "") in
          let freq := dict_get d "freq" (JStr "") in
          let prog := dict_get d "prog" (JStr "0") in
          if negb (truthy freq) then load_loop rest items
          else if label_raises name freq prog then (items, true)
          else load_loop rest (items ++ [meta])
      | _ => (items, true)
      end
  end.

(** [_load_presets]: [saved] is the saved "presets" setting parsed as
    JSON, if it parses. *)
Definition _load_presets (saved : option json) (t : tab) : tab * bool :=
  let presets := match saved with Some (JList l) => l | _ => [] end in
  let (items, raised) := load_loop presets [] in
  (with_list items t, raised).

(** [_save_presets]: the value whose JSON text is stored under the
    "presets" setting. *)
Definition _save_presets (t : tab) : json :=
  JList (filter is_dict (preset_list t)).

Definition remove_at {A : Type} (n : nat) (l : list A) : list A :=
  firstn n l ++ skipn (S n) l.

Definition insert_at {A : Type} (n : nat) (x : A) (l : list A) : list A :=
  firstn n l ++ x :: skipn n l.

(** [_remove_selected_preset]; [row] is the current row of the list. *)
Definition _remove_selected_preset (row : Z) (t : tab) : tab :=
  if (0 <=? row)%Z
  then with_list (remove_at (Z.to_nat row) (preset_list t)) t
  else t.

(** [_move_preset(direction)]; [row] is the current row of the list. *)
Definition _move_preset (direction row : Z) (t : tab) : tab :=
  if (row <? 0)%Z then t
  else
    let new_row := (row + direction)%Z in
    if (new_row <? 0)%Z
       || (Z.of_nat (List.length (preset_list t)) <=? new_row)%Z
    then t
    else
      match nth_error (preset_list t) (Z.to_nat row) with
      | Some item =>
          with_list
            (insert_at (Z.to_nat new_row) item
               (remove_at (Z.to_nat row) (preset_list t))) t
      | None => t
      end.

(** What happens to the Presets tab. *)
Inductive action : Type :=
| Add_current (freq_text : string) (prog_num : Z) (name_text : string)
| Remove_selected (row : Z)
| Move (direction row : Z)
| Import (filename e : string)
| Export (filename : string) (ok : bool) (e : string)
| Disk_changed (fs : files).

Definition act (a : action) (t : tab) : tab :=
  match a with
  | Add_current f p n => _add_preset f p n t
  | Remove_selected row => _remove_selected_preset row t
  | Move d row => _move_preset d row t
  | Import f e => fst (_import_presets f e t)
  | Export f ok e => _export_presets f ok e t
  | Disk_changed fs =>
      {| preset_list := preset_list t; disk := fs; boxes := boxes t |}
  end.

(** The tabs the window can show. *)
Inductive reachable_tab : tab -> Prop :=
| tab_loaded : forall saved fs,
    reachable_tab
      (fst (_load_presets saved
              {| preset_list := []; disk := fs; boxes := [] |}))
| tab_acted : forall a t, reachable_tab t -> reachable_tab (act a t).

(** The presets the import loop takes as they are. *)
Definition importable (meta : json) : bool :=
  match meta with
  | JDict d =>
      truthy (dict_get d "freq" (JStr "")) &&
      negb (label_raises (dict_get d "name" (JStr ""))
              (dict_get d "freq" (JStr "")) (dict_get d "prog" (JStr "0")))
  | _ => false
  end.

Definition demo_tab : tab :=
  act (Add_current "88.5" 1 "")
    (act (Add_current " 106.9 " 0 "Jazz")
       (fst (_load_presets None
               {| preset_list := []; disk := []; boxes := [] |}))).

End Presets.

(** * Properties *)

(** ** The vocabulary of the statements *)

(** *** Frames of the handlers *)

Definition pid_of (r : Role) (s : gui) : option nat :=
  option_map pid (proc_of r s).

(** The processes [_distribute_audio_data] may write to. *)
Definition writable (s : gui) (p : nat) : Prop :=
  pid_of Ffplay s = Some p \/
  (recording (flags s) = true /\ pid_of Ffmpeg s = Some p).

Definition quiet_effect (s : gui) (e : effect) : Prop :=
  match e with
  | Write p _ => writable s p
  | Spawn _ _ _ => False
  | _ => True
  end.

(** [leaf s s']: what every slot other than the finished slot of nrsc5
    guarantees. *)
Record leaf (s s' : gui) : Prop := {
  leaf_flags : flags s' = flags s;
  leaf_pids : forall r, pid_of r s' = pid_of r s;
  leaf_rclock : rclock s' = rclock s;
  leaf_controls : controls s' = controls s;
  leaf_inputs : inputs s' = inputs s;
  leaf_next : next_pid (world s') = next_pid (world s);
  leaf_env : env (world s') = env (world s);
  leaf_tick : tick (world s) <= tick (world s');
  leaf_trace : exists ext,
      trace (world s') = trace (world s) ++ ext /\ Forall (quiet_effect s) ext
}.

(** The one slot that may call [stop_stream]. *)
Definition calls_stop (r : Role) (sig : signal) : bool :=
  match r, sig with
  | Nrsc5, SigFinished _ _ => true
  | _, _ => false
  end.

(** [quiet s s']: nothing is started, [recording] is not turned on,
    [radio_running] is not turned on, handles are at most cleared. *)
Record quiet (s s' : gui) : Prop := {
  q_stopping : stopping_radio (flags s') = stopping_radio (flags s);
  q_recording : recording (flags s) = false -> recording (flags s') = false;
  q_running : radio_running (flags s') = true -> radio_running (flags s) = true;
  q_sound :
    (recording (flags s) = true -> radio_running (flags s) = true) ->
    recording (flags s') = true -> radio_running (flags s') = true;
  q_pids : forall r p, pid_of r s' = Some p -> pid_of r s = Some p;
  q_next : next_pid (world s') = next_pid (world s);
  q_env : env (world s') = env (world s);
  q_trace : exists ext,
      trace (world s') = trace (world s) ++ ext /\ Forall (quiet_effect s) ext
}.

Definition quiet_handler (h : handler) : Prop :=
  forall x y, h x = Some y -> quiet x y.

(** The handles of the other roles are as they were. *)
Definition others_kept (r : Role) (s s' : gui) : Prop :=
  forall r', r' <> r -> proc_of r' s' = proc_of r' s.

Definition flags_stopped (f : Flags) : Flags :=
  {| radio_running := radio_running f; recording := false;
     stopping_radio := stopping_radio f |}.



Definition fresh_or_writable (s : gui) (p : nat) : Prop :=
  writable s p \/ next_pid (world s) <= p.

Definition fair_effect (s : gui) (e : effect) : Prop :=
  match e with
  | Write p _ => fresh_or_writable s p
  | _ => True
  end.

(** The invariant of the window: recording only while the radio runs,
    and every process the window holds or has written to was made by
    [new_process]. *)
Record good (s : gui) : Prop := {
  g_flags : recording (flags s) = true -> radio_running (flags s) = true;
  g_pids : forall r p, pid_of r s = Some p -> p < next_pid (world s);
  g_trace : forall p d,
      In (Write p d) (trace (world s)) -> p < next_pid (world s)
}.

(** [moves s s']: audio is only written to processes that were writable
    in [s] or were created since. *)
Record moves (s s' : gui) : Prop := {
  m_next : next_pid (world s) <= next_pid (world s');
  m_trace : exists ext,
      trace (world s') = trace (world s) ++ ext /\ Forall (fair_effect s) ext;
  m_writable : forall p, writable s' p -> fresh_or_writable s p;
  m_good : good s -> good s'
}.

Definition moving (h : handler) : Prop := forall x y, h x = Some y -> moves x y.

(** *** Words of the statements *)

(** Appending the samples [vs], oldest first. *)
Definition append_all (vs : list PyFloat.float) (s : gui) : gui :=
  fold_left (fun s v => _update_ber_graph v s) vs s.

(** The last [n] elements of a list, or all of it. *)
Definition lastn {A : Type} (n : nat) (l : list A) : list A :=
  skipn (List.length l - n) l.

(** Not below zero; holds of both zeros and of NaN. *)
Definition non_negative (v : PyFloat.float) : bool :=
  negb (PyFloat.ltb v PyFloat.zero).

Definition all_non_negative (l : list PyFloat.float) : Prop :=
  Forall (fun v => non_negative v = true) l.

(** The inputs [_validate_start_inputs] rejects. *)
Definition invalid_start_inputs (i : Inputs) : Prop :=
  let freq := PyStr.strip (freq_edit i) in
  let host := PyStr.strip (host_edit i) in
  let port := PyStr.strip (port_edit i) in
  PyFloat.of_str freq = None \/
  (exists v, PyFloat.of_str freq = Some v /\
             PyFloat.leb v PyFloat.zero = true) \/
  (host <> "" /\
   (port = "" \/ PyStr.int_of_str port = None \/
    exists n, PyStr.int_of_str port = Some n /\ ~ (1 <= n <= 65535)%Z)).


(** *** Windows to evaluate on *)

(** The saved settings of a first run, every
    process starting at once and dying at once when asked to. *)
Definition demo_env : Env :=
  {| qt_start := fun _ => Started;
     qt_wait := fun _ => {| emitted := [NError Crashed];
                            exited := Some (15%Z, CrashExit) |};
     datetime_now := fun n => Z.of_nat n;
     make_filename := fun _ => "/home/user/Desktop/Radio_106_9_P0.mp3";
     path_exists := fun _ => true |}.

Definition demo_inputs : Inputs :=
  {| freq_edit := "106.9"; host_edit := "192.168.0.162";
     port_edit := "1234"; prog_combo := 0%Z |}.

Definition demo : gui := init demo_inputs true demo_env.

(** The window after Start Radio and Start Recording. *)
Definition demo_recording : gui :=
  match run 2 [Click_radio_btn; Click_record_btn] demo with
  | Some s => s
  | None => demo
  end.

(** The window with the radio running. *)
Definition demo_running : gui :=
  match run 2 [Click_radio_btn] demo with
  | Some s => s
  | None => demo
  end.

Definition demo_producer : QProcess :=
  {| pid := 1; state := Running; stdout_buf := ""; stderr_buf := "" |}.

(** The environment of [demo], but no recorder ever starts. *)
Definition demo_env_no_recorder : Env :=
  {| qt_start := fun n => if n <? 2 then Started
                          else NotStarted [FailedToStart] false;
     qt_wait := qt_wait demo_env;
     datetime_now := datetime_now demo_env;
     make_filename := make_filename demo_env;
     path_exists := path_exists demo_env |}.

Definition demo_no_recorder : gui :=
  match run 2 [Click_radio_btn]
          (init demo_inputs true demo_env_no_recorder) with
  | Some s => s
  | None => demo
  end.

(** *** The telemetry the window keeps *)



Definition row_meta (row : Z * string * string * string)
  : string * string * string :=
  let '(_, title, artist, album) := row in (title, artist, album).

Definition last_row (rows : list (Z * string * string * string))
  : option (Z * string * string * string) :=
  last (map Some rows) None.

(** No two neighbouring rows show the same title, artist and album. *)
Fixpoint no_repeat (rows : list (Z * string * string * string)) : Prop :=
  match rows with
  | r1 :: rest =>
      match rest with
      | r2 :: _ => row_meta r1 <> row_meta r2
      | [] => True
      end /\ no_repeat rest
  | [] => True
  end.

(** The key kept in last_title, last_artist and last_album. *)
Definition last_recorded (np : NowPlaying)
  : option (string * string * string) :=
  match last_title np, last_artist np, last_album np with
  | Some t, Some a, Some al => Some (t, a, al)
  | _, _, _ => None
  end.

(** What the Display tab shows for an artist. *)
Definition shown_artist (artist_text : string) : string :=
  if PyStr.contains "bieber" (PyStr.lower artist_text)
  then "[artist choice not endorsed]" else artist_text.

(** The telemetry is in order: the three series are bounded, the plot
    shows the BER series in a window of 300 samples, the Display tab
    mirrors the labels, and the history holds no row twice in a row. *)
Record data_ok (s : gui) : Prop := {
  d_log : List.length (log_text s) <= max_log_lines;
  d_rows : List.length (history_table (playing s)) <= max_history_rows;
  d_ber : List.length (ber_history (ber s)) <= ber_max_points;
  d_curve : ber_curve (ber s) =
            (range (List.length (ber_history (ber s))), ber_history (ber s));
  d_xrange : ber_xrange (ber s) = (0, 299)%Z;
  d_yrange : fst (ber_yrange (ber s)) = PyFloat.zero /\
             PyFloat.ltb (snd (ber_yrange (ber s))) float_10 = false;
  d_title : display_title_label (playing s) = title_label (playing s);
  d_artist : display_artist_label (playing s) =
             shown_artist (artist_label (playing s));
  d_last : option_map row_meta (last_row (history_table (playing s))) =
           last_recorded (playing s);
  d_repeat : no_repeat (history_table (playing s))
}.

(** *** The controls follow the flags *)

(** The window holds a process object for the role. *)
Definition held (r : Role) (s : gui) : bool :=
  match proc_of r s with Some _ => true | None => false end.

(** The controls that follow [radio_running], and the processes held
    while the radio runs. *)
Record run_tidy (s : gui) : Prop := {
  t_sound : recording (flags s) = true -> radio_running (flags s) = true;
  t_record_btn : record_btn_enabled (controls s) = radio_running (flags s);
  t_inputs : inputs_enabled (controls s) = negb (radio_running (flags s));
  t_radio_btn : radio_btn_text (controls s) =
                if radio_running (flags s) then "Stop Radio" else "Start Radio";
  t_producer : held Nrsc5 s = radio_running (flags s);
  t_player : held Ffplay s = radio_running (flags s)
}.

(** The controls and the clock that follow [recording]. *)
Record rec_tidy (s : gui) : Prop := {
  t_timer : record_timer_active (rclock s) = recording (flags s);
  t_start_time : match record_start_time (rclock s) with
                 | Some _ => recording (flags s) = true
                 | None => recording (flags s) = false
                 end;
  t_record_text : record_btn_text (controls s) =
                  if recording (flags s)
                  then "Stop Recording" else "Start Recording";
  t_record_style : record_btn_style (controls s) =
                   if recording (flags s)
                   then "background-color: #ffcccc" else "";
  t_recorder : recording (flags s) = true -> held Ffmpeg s = true
}.

Definition tidy (s : gui) : Prop := run_tidy s /\ rec_tidy s.

(** [steady s s']: the flags, the controls, the recording clock and
    the recorder's handle are as they were. *)
Record steady (s s' : gui) : Prop := {
  st_flags : flags s' = flags s;
  st_controls : controls s' = controls s;
  st_rclock : rclock s' = rclock s;
  st_recorder : held Ffmpeg s' = held Ffmpeg s
}.

(** *** Processes and audio *)

Definition is_spawn (e : effect) : bool :=
  match e with Spawn _ _ _ => true | _ => false end.

Definition is_write (e : effect) : bool :=
  match e with Write _ _ => true | _ => false end.

Definition is_close (e : event) : bool :=
  match e with Close_window => true | _ => false end.

(** The window cannot start anything: both buttons are disabled and
    nothing runs. *)
Record dormant (s : gui) : Prop := {
  dm_radio_btn : radio_btn_enabled (controls s) = false;
  dm_record_btn : record_btn_enabled (controls s) = false;
  dm_running : radio_running (flags s) = false;
  dm_trace : Forall (fun e => is_spawn e = false) (trace (world s))
}.

(** The processes that take the audio: the player if it runs, then the
    recorder if the window records and it runs. *)
Definition audio_sinks (s : gui) : list nat :=
  (match proc_play (handles s) with
   | Some p => if is_running (state p) then [pid p] else []
   | None => []
   end ++
   match proc_rec (handles s) with
   | Some r =>
       if recording (flags s) && is_running (state r) then [pid r] else []
   | None => []
   end)%list.


(** *** Texts *)

(** The character occurs in the text. *)
Fixpoint occurs (c : ascii) (s : string) : bool :=
  match s with
  | EmptyString => false
  | String x s' => Ascii.eqb c x || occurs c s'
  end.

(** The directory as [os.path.join] puts it before a relative name. *)
Definition dir_prefix (dir : string) : string :=
  match dir with
  | EmptyString => EmptyString
  | _ => if ends_with_slash dir then dir else (dir ++ "/")%string
  end.

(** A number below 100 in two decimal digits. *)
Definition two_digits (n : Z) : string :=
  String (ascii_of_N (48 + Z.to_N (n / 10)))
    (String (ascii_of_N (48 + Z.to_N (n mod 10))) EmptyString).

(** Hours, minutes and seconds, two digits each. *)
Definition hh_mm_ss (seconds : Z) : string :=
  (two_digits (seconds / 3600) ++ ":" ++ two_digits (seconds / 60 mod 60) ++
   ":" ++ two_digits (seconds mod 60))%string.

(** The text does not begin with white space. *)
Definition starts_clean (s : string) : bool :=
  match s with
  | String c _ => negb (PyStr.is_space c)
  | EmptyString => true
  end.

(** The fields [data_ok] speaks of. *)
Definition data (s : gui) : list string * NowPlaying * BerGraph :=
  (log_text s, playing s, ber s).

Definition keeps (P : gui -> Prop) (h : handler) : Prop :=
  forall x y, P x -> h x = Some y -> P y.

(** The window after Start Radio, Start Recording and Stop Radio. *)
Definition demo_stopped : gui :=
  match stop_stream 2 demo_recording with
  | Some s => s
  | None => demo
  end.

(** A window opened without ffmpeg installed, after some clicks. *)
Definition demo_dormant : gui :=
  match run 2 [Click_radio_btn; Activate_preset [("freq", "88.5")];
               Click_record_btn]
          (init_checked (fun b => negb (String.eqb b "ffmpeg")) demo_inputs
             demo_env) with
  | Some s => s
  | None => demo
  end.

(** The environment of [demo], but the player never starts. *)
Definition demo_env_no_player : Env :=
  {| qt_start := fun _ => NotStarted [FailedToStart] false;
     qt_wait := qt_wait demo_env;
     datetime_now := datetime_now demo_env;
     make_filename := make_filename demo_env;
     path_exists := path_exists demo_env |}.

Definition demo_no_player : gui := init demo_inputs true demo_env_no_player.

(** ** Proofs *)

Arguments Re.search : simpl never.
Arguments PyFloat.of_str : simpl never.
Arguments PyStr.strip : simpl never.
Arguments PyStr.str_of_int : simpl never.
Arguments PyStr.splitlines : simpl never.
Arguments String.append : simpl never.
Arguments skipn : simpl never.

(** ** The embedding at work *)

Example float_of_str_tenth :
  PyFloat.of_str "0.1" = Some (S754_finite false 7205759403792794 (-56)).
Proof. vm_compute. reflexivity. Qed.

Example float_of_str_rejects :
  map PyFloat.of_str ["."; "1e"; "+-1"; "1.2.3"; "1__0"; ""] =
  [None; None; None; None; None; None].
Proof. vm_compute. reflexivity. Qed.

Example float_of_str_overflows :
  PyFloat.of_str "1e400" = Some (S754_infinity false).
Proof. vm_compute. reflexivity. Qed.

Example int_of_str_examples :
  map PyStr.int_of_str [" 1234 "; "+1_000"; "12a"; ""; "65536"] =
  [Some 1234%Z; Some 1000%Z; None; None; Some 65536%Z].
Proof. vm_compute. reflexivity. Qed.

Example re_ber_examples :
  map (Re.search false re_ber)
      ["BER: 0.015"; "ber: 0.015"; "BER: 1.2.3"; "BER: -5"; "BER: ."] =
  [Some ["0.015"]; None; Some ["1.2"]; Some ["-5"]; None].
Proof. vm_compute. reflexivity. Qed.

Example re_station_loc_examples :
  map (Re.search true re_station_loc)
      ["Station location: 35.90, -95.77, 300m";
       "station LOCATION:1.2.3,+-4,5M"; "Station location: 1,2,3"] =
  [Some ["35.90"; "-95.77"; "300"]; Some ["1.2.3"; "+-4"; "5"]; None].
Proof. vm_compute. reflexivity. Qed.

Example re_title_example :
  Re.search true re_title "xx tItle:   Song A  b" = Some ["Song A  b"].
Proof. vm_compute. reflexivity. Qed.

(** "BER: 0.015" stores 1.5. *)
Example ber_line_example :
  ber_history (ber (fst (scan_line (demo, false) "BER: 0.015"))) =
  [S754_finite false 6755399441055744 (-52)].
Proof. vm_compute. reflexivity. Qed.

(** The same title and artist twice make one history row. *)
Example history_dedup_example :
  let lines := ("Title: Song A" ++ String "010" "Artist: Band B")%string in
  option_map (fun s => history_table (playing s))
    (run 2 [Process_signal Nrsc5 1 (SigStderr lines);
            Process_signal Nrsc5 1 (SigStderr lines)] demo_running) =
  Some [(2%Z, "Song A", "Band B", dash)].
Proof. vm_compute. reflexivity. Qed.

(** Start, record, stop: the effects in order. *)
Example session_example :
  option_map (fun s => (flags s, trace (world s)))
    (run 2 [Click_radio_btn; Click_record_btn; Click_radio_btn] demo) =
  Some ({| radio_running := false; recording := false;
           stopping_radio := false |},
        [Spawn 0 "ffplay" play_args;
         Spawn 1 "nrsc5"
           ["-H"; "192.168.0.162:1234"; "106.9"; "0"; "-o"; "-"];
         Spawn 2 "ffmpeg"
           (ffmpeg_args "/home/user/Desktop/Radio_106_9_P0.mp3");
         CloseWriteChannel 2;
         Print "Recording saved: /home/user/Desktop/Radio_106_9_P0.mp3";
         Terminate 1; Terminate 0]).
Proof. vm_compute. reflexivity. Qed.

(** ** What the slots leave alone *)

Lemma leaf_refl s : leaf s s.
Proof.
  constructor; auto. exists []. now rewrite app_nil_r.
Qed.

Lemma writable_leaf s s' p : leaf s s' -> writable s' p -> writable s p.
Proof.
  intros L [H | [H1 H2]]; [left | right].
  - now rewrite <- (leaf_pids _ _ L).
  - rewrite <- (leaf_pids _ _ L), <- (leaf_flags _ _ L). auto.
Qed.

Lemma quiet_effect_leaf s s' e : leaf s s' -> quiet_effect s' e -> quiet_effect s e.
Proof.
  destruct e; simpl; auto. apply writable_leaf.
Qed.

Lemma leaf_trans s1 s2 s3 : leaf s1 s2 -> leaf s2 s3 -> leaf s1 s3.
Proof.
  intros A B. constructor.
  - now rewrite (leaf_flags _ _ B), (leaf_flags _ _ A).
  - intro r. now rewrite (leaf_pids _ _ B), (leaf_pids _ _ A).
  - now rewrite (leaf_rclock _ _ B), (leaf_rclock _ _ A).
  - now rewrite (leaf_controls _ _ B), (leaf_controls _ _ A).
  - now rewrite (leaf_inputs _ _ B), (leaf_inputs _ _ A).
  - now rewrite (leaf_next _ _ B), (leaf_next _ _ A).
  - now rewrite (leaf_env _ _ B), (leaf_env _ _ A).
  - pose proof (leaf_tick _ _ A). pose proof (leaf_tick _ _ B). lia.
  - destruct (leaf_trace _ _ A) as [e1 [E1 F1]].
    destruct (leaf_trace _ _ B) as [e2 [E2 F2]].
    exists (e1 ++ e2). split.
    + now rewrite E2, E1, app_assoc.
    + apply Forall_app. split; auto.
      eapply Forall_impl; [| exact F2]. intro e. now apply quiet_effect_leaf.
Qed.

(** A step that changes none of the fields [leaf] speaks of. *)
Lemma leaf_same s s' :
  flags s' = flags s -> (forall r, pid_of r s' = pid_of r s) ->
  rclock s' = rclock s -> controls s' = controls s -> inputs s' = inputs s ->
  world s' = world s -> leaf s s'.
Proof.
  intros. constructor; auto; try congruence.
  - replace (world s') with (world s); auto.
  - exists []. rewrite app_nil_r. split; [congruence | constructor].
Qed.

Lemma leaf_append_log line s : leaf s (_append_log_line line s).
Proof. apply leaf_same; auto. Qed.

Lemma leaf_emit e s : quiet_effect s e -> leaf s (emit e s).
Proof.
  intro Q. constructor; auto.
  exists [e]. split; auto.
Qed.

Lemma leaf_ask {A} (q : Env -> nat -> A) s : leaf s (snd (ask q s)).
Proof.
  constructor; simpl; auto. exists []. now rewrite app_nil_r.
Qed.

Lemma leaf_set_status_text t s : leaf s (set_status_text t s).
Proof. apply leaf_same; auto. Qed.

Lemma leaf_set_log_text l s : leaf s (set_log_text l s).
Proof. apply leaf_same; auto. Qed.

Lemma leaf_set_station x s : leaf s (set_station x s).
Proof. apply leaf_same; auto. Qed.

Lemma leaf_set_ber b s : leaf s (set_ber b s).
Proof. apply leaf_same; auto. Qed.

Lemma leaf_set_playing p s : leaf s (set_playing p s).
Proof. apply leaf_same; auto. Qed.

Lemma leaf_message_box i title text s : leaf s (message_box i title text s).
Proof. apply (leaf_emit (MessageBox i title text)). exact I. Qed.

(** [then_leaf lem]: the last step of the goal is by [lem]. *)
Ltac then_leaf lem :=
  match goal with
  | |- leaf _ (?f ?x) => apply leaf_trans with x; [| apply lem]
  end.

Lemma leaf_on_process_error name e s : leaf s (_on_process_error name e s).
Proof.
  unfold _on_process_error.
  destruct (stopping_radio (flags s) && is_crashed e).
  - apply leaf_append_log.
  - destruct (String.eqb name "nrsc5").
    + then_leaf leaf_message_box. then_leaf leaf_set_status_text.
      apply leaf_append_log.
    + apply leaf_append_log.
Qed.

Lemma leaf_on_process_finished name c st s :
  leaf s (_on_process_finished name c st s).
Proof.
  unfold _on_process_finished.
  destruct (stopping_radio (flags s)), st; apply leaf_append_log.
Qed.

Lemma leaf_set_nrsc5_buffers s n q :
  proc_nrsc5 (handles s) = Some n -> pid q = pid n ->
  leaf s (set_proc_nrsc5 (Some q) s).
Proof.
  intros Hn Hq. apply leaf_same; auto.
  intros []; unfold pid_of; simpl; auto. now rewrite Hn, Hq.
Qed.

Lemma leaf_distribute s : leaf s (_distribute_audio_data s).
Proof.
  unfold _distribute_audio_data. cbv zeta.
  destruct (proc_nrsc5 (handles s)) as [n |] eqn:Hn; [| apply leaf_refl].
  pose proof (leaf_set_nrsc5_buffers s n (with_stdout "" n) Hn eq_refl) as L0.
  destruct (stdout_buf n) as [| c data]; [exact L0 |].
  remember (set_proc_nrsc5 (Some (with_stdout "" n)) s) as s1 eqn:E1.
  clear E1.
  assert (L1 : leaf s1
    match proc_play (handles s1) with
    | Some p =>
        if is_running (state p) then write_to p (String c data) s1 else s1
    | None => s1
    end).
  { destruct (proc_play (handles s1)) as [p |] eqn:Hp; [| apply leaf_refl].
    destruct (is_running (state p)); [| apply leaf_refl].
    apply leaf_emit. left. unfold pid_of. simpl proc_of. now rewrite Hp. }
  apply leaf_trans with (1 := L0). apply leaf_trans with (1 := L1).
  match goal with |- leaf ?x _ => generalize x; intro s2 end.
  destruct (proc_rec (handles s2)) as [r |] eqn:Hr; [| apply leaf_refl].
  destruct (recording (flags s2)) eqn:Hrec; simpl; [| apply leaf_refl].
  destruct (is_running (state r)); [| apply leaf_refl].
  apply leaf_emit. right. split; auto. unfold pid_of. simpl proc_of.
  now rewrite Hr.
Qed.

Lemma leaf_update_ber_graph v s : leaf s (_update_ber_graph v s).
Proof. apply leaf_set_ber. Qed.

Lemma leaf_scan_ber line s : leaf s (scan_ber line s).
Proof.
  unfold scan_ber.
  destruct (Re.search false re_ber line); [| apply leaf_refl].
  destruct (PyFloat.of_str _); [apply leaf_update_ber_graph | apply leaf_refl].
Qed.

Lemma leaf_scan_metadata line s b :
  leaf s (fst (scan_metadata line (s, b))).
Proof.
  unfold scan_metadata. cbv zeta.
  repeat match goal with
         | |- context [Re.search ?i ?p ?l] => destruct (Re.search i p l)
         end; simpl fst;
    repeat first [ apply leaf_refl
                 | then_leaf leaf_set_playing ].
Qed.

Lemma leaf_scan_station line s : leaf s (scan_station line s).
Proof.
  unfold scan_station.
  destruct (Re.search true re_station_loc line); [| apply leaf_refl].
  repeat (destruct (PyFloat.of_str _); [| apply leaf_refl]).
  apply leaf_set_station.
Qed.

Lemma leaf_scan_line s b line : leaf s (fst (scan_line (s, b) line)).
Proof.
  unfold scan_line. cbv zeta.
  destruct (PyStr.strip line) as [| c l]; [apply leaf_refl |].
  simpl fst. simpl snd.
  destruct (scan_metadata _ _) as [s1 ch] eqn:E. simpl fst.
  then_leaf leaf_scan_station.
  change s1 with (fst (s1, ch)). rewrite <- E.
  eapply leaf_trans; [| apply leaf_scan_metadata].
  then_leaf leaf_scan_ber. apply leaf_append_log.
Qed.

Lemma leaf_scan_lines lines : forall s b,
  leaf s (fst (fold_left scan_line lines (s, b))).
Proof.
  induction lines as [| l lines IH]; intros s b; simpl.
  - apply leaf_refl.
  - destruct (scan_line (s, b) l) as [s1 b1] eqn:E.
    apply leaf_trans with s1; [| apply IH].
    change s1 with (fst (s1, b1)). rewrite <- E. apply leaf_scan_line.
Qed.

Lemma leaf_maybe_add_history_entry s : leaf s (_maybe_add_history_entry s).
Proof.
  unfold _maybe_add_history_entry. cbv zeta.
  destruct (_ && _ && _); [apply leaf_refl |].
  destruct (_ && _ && _); [apply leaf_refl |].
  destruct (ask datetime_now s) as [now s0] eqn:Ea.
  then_leaf leaf_set_playing.
  replace s0 with (snd (ask datetime_now s)) by now rewrite Ea.
  apply leaf_ask.
Qed.

Lemma leaf_parse_metadata_output s : leaf s (_parse_metadata_output s).
Proof.
  unfold _parse_metadata_output.
  destruct (proc_nrsc5 (handles s)) as [n |] eqn:Hn; [| apply leaf_refl].
  cbv zeta.
  destruct (fold_left _ _ _) as [s1 ch] eqn:E.
  assert (L : leaf s s1).
  { eapply leaf_trans;
      [apply (leaf_set_nrsc5_buffers s n (with_stderr "" n) Hn eq_refl) |].
    change s1 with (fst (s1, ch)). rewrite <- E. apply leaf_scan_lines. }
  destruct ch; [| exact L].
  then_leaf leaf_maybe_add_history_entry. exact L.
Qed.

Lemma pid_of_set_proc r r' q s :
  pid_of r (set_proc r' q s) =
  if match r, r' with
     | Nrsc5, Nrsc5 | Ffplay, Ffplay | Ffmpeg, Ffmpeg => true
     | _, _ => false
     end
  then option_map pid q else pid_of r s.
Proof. destruct r, r'; reflexivity. Qed.

Lemma leaf_set_same_pid r q q' s :
  proc_of r s = Some q -> pid q' = pid q -> leaf s (set_proc r (Some q') s).
Proof.
  intros Hq Hp. apply leaf_same; try (destruct r; reflexivity).
  intros r0. rewrite pid_of_set_proc.
  destruct r0, r; auto; unfold pid_of; rewrite Hq; simpl; congruence.
Qed.

Lemma leaf_update_object r p sig s : leaf s (update_object r p sig s).
Proof.
  unfold update_object.
  destruct (proc_of r s) as [q |] eqn:Hq; [| apply leaf_refl].
  destruct (pid q =? p); [| apply leaf_refl].
  apply (leaf_set_same_pid r q _ s Hq).
  destruct sig as [[] | | |]; reflexivity.
Qed.

Lemma leaf_set_state_of r p st s : leaf s (set_state_of r p st s).
Proof.
  unfold set_state_of.
  destruct (proc_of r s) as [q |] eqn:Hq; [| apply leaf_refl].
  destruct (pid q =? p); [| apply leaf_refl].
  now apply (leaf_set_same_pid r q _ s Hq).
Qed.

Lemma slots_leaf h r sig s :
  calls_stop r sig = false ->
  exists s', slots h r sig s = Some s' /\ leaf s s'.
Proof.
  intro H. destruct r, sig; try discriminate H; simpl; eexists; split;
    try reflexivity;
    first [ apply leaf_on_process_error | apply leaf_on_process_finished
          | apply leaf_distribute | apply leaf_parse_metadata_output
          | apply leaf_refl ].
Qed.

Lemma deliver_leaf h r p sig s :
  calls_stop r sig = false ->
  exists s', deliver h r p sig s = Some s' /\ leaf s s'.
Proof.
  intro H. unfold deliver.
  destruct (slots_leaf h r sig (update_object r p sig s) H) as [s' [E L]].
  exists s'. split; auto.
  eapply leaf_trans; [apply leaf_update_object | exact L].
Qed.

Lemma deliver_all_leaf h r p l : forall s,
  forallb (fun sig => negb (calls_stop r sig)) l = true ->
  exists s', deliver_all h r p l s = Some s' /\ leaf s s'.
Proof.
  induction l as [| sig l IH]; intros s H; simpl.
  - exists s. split; auto. apply leaf_refl.
  - simpl in H. apply andb_true_iff in H. destruct H as [H1 H2].
    apply negb_true_iff in H1.
    destruct (deliver_leaf h r p sig s H1) as [s1 [E1 L1]].
    rewrite E1. destruct (IH s1 H2) as [s2 [E2 L2]].
    exists s2. split; auto. eapply leaf_trans; eauto.
Qed.

Lemma notices_never_call_stop r l :
  forallb (fun sig => negb (calls_stop r sig)) (map signal_of_notice l) = true.
Proof.
  induction l as [| n l IH]; simpl; auto.
  rewrite IH. destruct r, n; reflexivity.
Qed.

Lemma errors_never_call_stop r l :
  forallb (fun sig => negb (calls_stop r sig)) (map SigError l) = true.
Proof.
  induction l as [| n l IH]; simpl; auto.
  rewrite IH. destruct r; reflexivity.
Qed.

(** Starting a process and waiting for it is a leaf but for the Spawn. *)
Lemma start_and_wait_leaf h r p program args s :
  exists b s',
    start_and_wait h r p program args s = Some (b, s') /\
    leaf (emit (Spawn p program args) s) s' /\
    b = match qt_start (env (world s)) (tick (world s)) with
        | Started => true
        | NotStarted _ _ => false
        end.
Proof.
  unfold start_and_wait. cbv zeta.
  set (s0 := emit (Spawn p program args) s).
  unfold ask.
  assert (E : qt_start (env (world (set_state_of r p Starting s0)))
                (tick (world (set_state_of r p Starting s0))) =
              qt_start (env (world s)) (tick (world s))).
  { unfold set_state_of.
    destruct (proc_of r s0); [destruct (pid q =? p) |]; destruct r;
      reflexivity. }
  rewrite E. clear E.
  match goal with
  | |- context [set_world ?w ?x] => set (s1 := set_world w x)
  end.
  assert (L1 : leaf s0 s1).
  { eapply leaf_trans; [apply (leaf_set_state_of r p Starting) |].
    apply (leaf_ask qt_start). }
  destruct (qt_start (env (world s)) (tick (world s))) as [| errs still].
  - do 2 eexists. split; [reflexivity |]. split; auto.
    then_leaf leaf_set_state_of. exact L1.
  - destruct (deliver_all_leaf h r p (map SigError errs) s1
                (errors_never_call_stop r errs)) as [s2 [E2 L2]].
    rewrite E2. do 2 eexists. split; [reflexivity |]. split; auto.
    then_leaf leaf_set_state_of. eapply leaf_trans; eauto.
Qed.

(** ** What a teardown guarantees *)

Lemma leaf_quiet s s' : leaf s s' -> quiet s s'.
Proof.
  intro L. constructor.
  - now rewrite (leaf_flags _ _ L).
  - now rewrite (leaf_flags _ _ L).
  - now rewrite (leaf_flags _ _ L).
  - now rewrite (leaf_flags _ _ L).
  - intros r p. now rewrite (leaf_pids _ _ L).
  - apply (leaf_next _ _ L).
  - apply (leaf_env _ _ L).
  - apply (leaf_trace _ _ L).
Qed.

Lemma quiet_refl s : quiet s s.
Proof. apply leaf_quiet, leaf_refl. Qed.

Lemma writable_quiet s s' p : quiet s s' -> writable s' p -> writable s p.
Proof.
  intros Q [H | [H1 H2]]; [left | right].
  - now apply (q_pids _ _ Q).
  - split; [| now apply (q_pids _ _ Q)].
    destruct (recording (flags s)) eqn:E; auto.
    rewrite (q_recording _ _ Q E) in H1. discriminate.
Qed.

Lemma quiet_effect_quiet s s' e :
  quiet s s' -> quiet_effect s' e -> quiet_effect s e.
Proof. destruct e; simpl; auto. apply writable_quiet. Qed.

Lemma quiet_trans s1 s2 s3 : quiet s1 s2 -> quiet s2 s3 -> quiet s1 s3.
Proof.
  intros A B. constructor.
  - now rewrite (q_stopping _ _ B), (q_stopping _ _ A).
  - intro H. apply (q_recording _ _ B), (q_recording _ _ A), H.
  - intro H. apply (q_running _ _ A), (q_running _ _ B), H.
  - intro H. apply (q_sound _ _ B), (q_sound _ _ A), H.
  - intros r p H. apply (q_pids _ _ A), (q_pids _ _ B), H.
  - now rewrite (q_next _ _ B), (q_next _ _ A).
  - now rewrite (q_env _ _ B), (q_env _ _ A).
  - destruct (q_trace _ _ A) as [e1 [E1 F1]].
    destruct (q_trace _ _ B) as [e2 [E2 F2]].
    exists (e1 ++ e2). split.
    + now rewrite E2, E1, app_assoc.
    + apply Forall_app. split; auto.
      eapply Forall_impl; [| exact F2]. intro e. now apply quiet_effect_quiet.
Qed.

Ltac then_quiet lem :=
  match goal with
  | |- quiet _ (?f ?x) => apply quiet_trans with x; [| apply lem]
  end.

Lemma no_handler_quiet : quiet_handler no_handler.
Proof. intros x y H. discriminate H. Qed.

Lemma on_nrsc5_finished_quiet h c st :
  quiet_handler h -> quiet_handler (_on_nrsc5_finished h c st).
Proof.
  intros Hh s s'. unfold _on_nrsc5_finished. cbv zeta.
  pose proof (leaf_quiet _ _ (leaf_on_process_finished "nrsc5" c st s)) as L.
  destruct (_ && _).
  - intro E. eapply quiet_trans; [exact L | exact (Hh _ _ E)].
  - intro E. injection E as <-. exact L.
Qed.

Lemma slots_quiet h r sig :
  quiet_handler h -> quiet_handler (slots h r sig).
Proof.
  intros Hh s s' E.
  destruct (calls_stop r sig) eqn:C.
  - destruct r, sig; try discriminate C. simpl in E.
    exact (on_nrsc5_finished_quiet h code status Hh _ _ E).
  - destruct (slots_leaf h r sig s C) as [s1 [E1 L1]].
    rewrite E1 in E. injection E as <-. now apply leaf_quiet.
Qed.

Lemma deliver_quiet h r p sig :
  quiet_handler h -> quiet_handler (deliver h r p sig).
Proof.
  intros Hh s s' E. unfold deliver in E.
  eapply quiet_trans; [apply leaf_quiet, leaf_update_object |].
  exact (slots_quiet h r sig Hh _ _ E).
Qed.

Lemma deliver_all_quiet h r p l :
  quiet_handler h -> quiet_handler (deliver_all h r p l).
Proof.
  intro Hh. induction l as [| sig l IH]; intros s s' E; simpl in E.
  - injection E as <-. apply quiet_refl.
  - destruct (deliver h r p sig s) as [s1 |] eqn:E1; [| discriminate].
    eapply quiet_trans; [exact (deliver_quiet h r p sig Hh _ _ E1) |].
    exact (IH _ _ E).
Qed.

Lemma waitForFinished_quiet h r p s b s' :
  quiet_handler h -> waitForFinished h r p s = Some (b, s') -> quiet s s'.
Proof.
  intros Hh. unfold waitForFinished.
  destruct (ask qt_wait s) as [w s0] eqn:Ea.
  assert (L0 : quiet s s0).
  { replace s0 with (snd (ask qt_wait s)) by now rewrite Ea.
    apply leaf_quiet, leaf_ask. }
  destruct (deliver_all h r p _ s0) as [s1 |] eqn:E1; [| discriminate].
  pose proof (deliver_all_quiet h r p _ Hh _ _ E1) as L1.
  destruct (exited w) as [[code st] |].
  - destruct (deliver h r p _ s1) as [s2 |] eqn:E2; [| discriminate].
    intro E. injection E as _ <-.
    eapply quiet_trans; [exact L0 |]. eapply quiet_trans; [exact L1 |].
    exact (deliver_quiet h r p _ Hh _ _ E2).
  - intro E. injection E as _ <-. eapply quiet_trans; eauto.
Qed.

Lemma quiet_emit e s : quiet_effect s e -> quiet s (emit e s).
Proof. intro H. now apply leaf_quiet, leaf_emit. Qed.

Lemma kill_process_quiet h r :
  quiet_handler h -> quiet_handler (_kill_process h r).
Proof.
  intros Hh s s'. unfold _kill_process.
  destruct (proc_of r s) as [q |];
    [| intro E; injection E as <-; apply quiet_refl].
  destruct (negb _); [| intro E; injection E as <-; apply quiet_refl].
  cbv zeta.
  destruct (waitForFinished h r (pid q) _) as [[fin s1] |] eqn:E1;
    [| discriminate].
  pose proof (waitForFinished_quiet _ _ _ _ _ _ Hh E1) as Q1.
  assert (Q0 : quiet s s1).
  { eapply quiet_trans; [| exact Q1]. apply quiet_emit. exact I. }
  destruct fin; intro E; injection E as <-; auto.
  then_quiet quiet_emit; [exact Q0 | exact I].
Qed.

(** Clearing a handle, or a change the relation does not see. *)
Lemma quiet_same s s' :
  flags s' = flags s ->
  (forall r p, pid_of r s' = Some p -> pid_of r s = Some p) ->
  world s' = world s -> quiet s s'.
Proof.
  intros F P W. constructor; try (rewrite ?F, ?W; auto; fail).
  exists []. rewrite app_nil_r. split; [congruence | constructor].
Qed.

(** A change of the flags that leaves [recording] off. *)
Lemma quiet_off s s' :
  recording (flags s') = false ->
  stopping_radio (flags s') = stopping_radio (flags s) ->
  (radio_running (flags s') = true -> radio_running (flags s) = true) ->
  (forall r p, pid_of r s' = Some p -> pid_of r s = Some p) ->
  world s' = world s -> quiet s s'.
Proof.
  intros R S U P W. constructor; try (rewrite ?W; auto; congruence).
  exists []. rewrite app_nil_r. split; [congruence | constructor].
Qed.

Lemma quiet_clear r s : quiet s (set_proc r None s).
Proof.
  destruct r; apply quiet_same; auto;
    intros r0 p; destruct r0; simpl; auto; discriminate.
Qed.

(** ** The consumers' slots

    The slots of ffplay and ffmpeg only write the log; they never run
    [stop_stream], so a wait on a consumer needs no fuel. *)

Lemma others_kept_refl r s : others_kept r s s.
Proof. intros r' _. reflexivity. Qed.

Lemma others_kept_trans r s1 s2 s3 :
  others_kept r s1 s2 -> others_kept r s2 s3 -> others_kept r s1 s3.
Proof. intros A B r' N. now rewrite (B r' N), (A r' N). Qed.

Lemma others_kept_handles r s s' : handles s' = handles s -> others_kept r s s'.
Proof. intros H r' _. destruct r'; simpl; now rewrite H. Qed.

Lemma others_kept_set_proc r q s : others_kept r s (set_proc r q s).
Proof. intros r' N. destruct r, r'; try reflexivity; now elim N. Qed.

Lemma handles_on_process_error name e s :
  handles (_on_process_error name e s) = handles s.
Proof.
  unfold _on_process_error.
  destruct (_ && _); auto. destruct (String.eqb _ _); reflexivity.
Qed.

Lemma handles_on_process_finished name c st s :
  handles (_on_process_finished name c st s) = handles s.
Proof.
  unfold _on_process_finished.
  destruct (stopping_radio (flags s)), st; reflexivity.
Qed.

Lemma others_kept_update_object r p sig s :
  others_kept r s (update_object r p sig s).
Proof.
  unfold update_object.
  destruct (proc_of r s); [| apply others_kept_refl].
  destruct (_ =? _); [apply others_kept_set_proc | apply others_kept_refl].
Qed.

Lemma others_kept_set_state_of r p st s :
  others_kept r s (set_state_of r p st s).
Proof.
  unfold set_state_of.
  destruct (proc_of r s); [| apply others_kept_refl].
  destruct (_ =? _); [apply others_kept_set_proc | apply others_kept_refl].
Qed.

Lemma consumer_slots h r sig s :
  r <> Nrsc5 ->
  exists s', slots h r sig s = Some s' /\ handles s' = handles s /\
             slots no_handler r sig s = Some s'.
Proof.
  intro N. destruct r; [now elim N | |]; destruct sig; simpl; eexists;
    (split; [reflexivity | split; [| reflexivity]]);
    auto using handles_on_process_error, handles_on_process_finished.
Qed.

Lemma consumer_deliver h r p sig s :
  r <> Nrsc5 ->
  exists s', deliver h r p sig s = Some s' /\ others_kept r s s' /\
             deliver no_handler r p sig s = Some s'.
Proof.
  intro N. unfold deliver.
  destruct (consumer_slots h r sig (update_object r p sig s) N)
    as [s' [E [H E']]].
  exists s'. split; [exact E | split; [| exact E']].
  apply others_kept_trans with (update_object r p sig s).
  - apply others_kept_update_object.
  - now apply others_kept_handles.
Qed.

Lemma consumer_deliver_all h r p l : forall s,
  r <> Nrsc5 ->
  exists s', deliver_all h r p l s = Some s' /\ others_kept r s s' /\
             deliver_all no_handler r p l s = Some s'.
Proof.
  induction l as [| sig l IH]; intros s N; simpl.
  - exists s. split; [| split]; auto. apply others_kept_refl.
  - destruct (consumer_deliver h r p sig s N) as [s1 [E1 [K1 E1']]].
    rewrite E1, E1'. destruct (IH s1 N) as [s2 [E2 [K2 E2']]].
    exists s2. split; [| split]; auto. eapply others_kept_trans; eauto.
Qed.

Lemma consumer_wait h r p s :
  r <> Nrsc5 ->
  exists b s', waitForFinished h r p s = Some (b, s') /\
               others_kept r s s' /\
               waitForFinished no_handler r p s = Some (b, s').
Proof.
  intro N. unfold waitForFinished.
  destruct (ask qt_wait s) as [w s0] eqn:Ea.
  assert (K0 : others_kept r s s0).
  { replace s0 with (snd (ask qt_wait s)) by now rewrite Ea.
    now apply others_kept_handles. }
  destruct (consumer_deliver_all h r p (map signal_of_notice (emitted w)) s0 N)
    as [s1 [E1 [K1 E1']]].
  rewrite E1, E1'.
  destruct (exited w) as [[code st] |].
  - destruct (consumer_deliver h r p (SigFinished code st) s1 N)
      as [s2 [E2 [K2 E2']]].
    rewrite E2, E2'. do 2 eexists. split; [reflexivity | split; [| reflexivity]].
    eauto using others_kept_trans.
  - do 2 eexists. split; [reflexivity | split; [| reflexivity]].
    eauto using others_kept_trans.
Qed.

Lemma consumer_kill h r s :
  r <> Nrsc5 ->
  exists s', _kill_process h r s = Some s' /\ others_kept r s s' /\
             _kill_process no_handler r s = Some s'.
Proof.
  intro N. unfold _kill_process.
  destruct (proc_of r s) as [q |];
    [| exists s; split; [| split]; auto using others_kept_refl].
  destruct (negb _);
    [| exists s; split; [| split]; auto using others_kept_refl].
  cbv zeta.
  destruct (consumer_wait h r (pid q) (emit (Terminate (pid q)) s) N)
    as [fin [s1 [E1 [K1 E1']]]].
  rewrite E1, E1'.
  assert (K : others_kept r s s1).
  { eapply others_kept_trans; [| exact K1]. now apply others_kept_handles. }
  destruct fin; eexists; (split; [reflexivity | split; [| reflexivity]]).
  - exact K.
  - apply others_kept_trans with s1; [exact K |].
    now apply others_kept_handles.
Qed.

Lemma role_neq_ffmpeg : Ffmpeg <> Nrsc5.
Proof. discriminate. Qed.

Lemma role_neq_ffplay : Ffplay <> Nrsc5.
Proof. discriminate. Qed.

Lemma consumer_wait_leaf h r p s b s' :
  r <> Nrsc5 -> waitForFinished h r p s = Some (b, s') -> leaf s s'.
Proof.
  intros N. unfold waitForFinished.
  destruct (ask qt_wait s) as [w s0] eqn:Ea.
  assert (L0 : leaf s s0).
  { replace s0 with (snd (ask qt_wait s)) by now rewrite Ea. apply leaf_ask. }
  destruct (deliver_all_leaf h r p _ s0 (notices_never_call_stop r (emitted w)))
    as [s1 [E1 L1]].
  rewrite E1.
  destruct (exited w) as [[code st] |].
  - assert (C : calls_stop r (SigFinished code st) = false)
      by (destruct r; auto; now elim N).
    destruct (deliver_leaf h r p _ s1 C) as [s2 [E2 L2]]. rewrite E2.
    intro E. injection E as _ <-. eauto using leaf_trans.
  - intro E. injection E as _ <-. eauto using leaf_trans.
Qed.

Lemma close_recorder_spec s :
  exists s', close_recorder s = Some s' /\ leaf s s' /\
             others_kept Ffmpeg s s'.
Proof.
  unfold close_recorder.
  destruct (proc_rec (handles s)) as [r |];
    [| exists s; auto using leaf_refl, others_kept_refl].
  destruct (is_running (state r));
    [| exists s; auto using leaf_refl, others_kept_refl].
  cbv zeta.
  set (s0 := emit (CloseWriteChannel (pid r)) s).
  assert (L0 : leaf s s0) by (apply leaf_emit; exact I).
  assert (K0 : others_kept Ffmpeg s s0) by now apply others_kept_handles.
  destruct (consumer_wait no_handler Ffmpeg (pid r) s0 role_neq_ffmpeg)
    as [b [s1 [E1 [K1 _]]]].
  pose proof (consumer_wait_leaf _ _ _ _ _ _ role_neq_ffmpeg E1) as L1.
  rewrite E1.
  assert (L : leaf s s1) by eauto using leaf_trans.
  assert (K : others_kept Ffmpeg s s1) by eauto using others_kept_trans.
  destruct (proc_rec (handles s1)) as [r' |]; [| exists s1; auto].
  destruct (is_running (state r')); [| exists s1; auto].
  eexists. split; [reflexivity |]. split.
  - then_leaf leaf_emit; [exact L | exact I].
  - apply others_kept_trans with s1; auto. now apply others_kept_handles.
Qed.

Lemma leaf_report_saved s : leaf s (report_saved s).
Proof.
  unfold report_saved.
  destruct (current_record_file (handles s)) as [[| c f] |];
    try apply leaf_refl.
  destruct (ask path_exists s) as [there s0] eqn:Ea.
  assert (L0 : leaf s s0).
  { replace s0 with (snd (ask path_exists s)) by now rewrite Ea.
    apply leaf_ask. }
  destruct there; auto. then_leaf leaf_emit; [exact L0 | exact I].
Qed.

Lemma handles_report_saved s : handles (report_saved s) = handles s.
Proof.
  unfold report_saved.
  destruct (current_record_file (handles s)) as [[| c f] |]; auto.
  simpl. destruct (path_exists _ _); reflexivity.
Qed.

(** [stop_recording] always returns; it leaves [recording] off and does
    not touch the producer or the player. *)
Lemma stop_recording_spec s :
  exists s', stop_recording s = Some s' /\ quiet s s' /\
             flags s' = flags_stopped (flags s) /\
             others_kept Ffmpeg s s' /\
             (recording (flags s) = false -> s' = s) /\
             (recording (flags s) = true -> proc_rec (handles s') = None).
Proof.
  unfold stop_recording.
  destruct (recording (flags s)) eqn:R; simpl negb; cbv iota.
  - destruct (close_recorder_spec s) as [s1 [E1 [L1 K1]]]. rewrite E1.
    cbv zeta. eexists. split; [reflexivity |].
    split; [| split; [| split; [| split; [| reflexivity]]]].
    + then_quiet (quiet_clear Ffmpeg).
      eapply quiet_trans; [| apply leaf_quiet, leaf_report_saved].
      eapply quiet_trans; [apply leaf_quiet, L1 |].
      apply quiet_off; auto.
    + change (flags (set_proc_rec None ?x)) with (flags x).
      rewrite (leaf_flags _ _ (leaf_report_saved _)). simpl.
      rewrite (leaf_flags _ _ L1). reflexivity.
    + intros r' N. destruct r'; [| | now elim N]; simpl;
        rewrite handles_report_saved; simpl;
        [apply (K1 Nrsc5) | apply (K1 Ffplay)]; discriminate.
    + discriminate.
  - exists s. split; [reflexivity |].
    split; [apply quiet_refl |].
    split; [| split; [apply others_kept_refl | split; [auto | discriminate]]].
    destruct (flags s); simpl in *. now subst.
Qed.

Lemma stop_recording_quiet : quiet_handler stop_recording.
Proof.
  intros s s' E. destruct (stop_recording_spec s) as [s1 [E1 [Q _]]].
  congruence.
Qed.

(** ** [stop_stream] *)

Lemma quiet_update_ui_state_false s : quiet s (_update_ui_state false s).
Proof. apply quiet_same; auto. Qed.

Lemma quiet_set_radio_btn t b s : quiet s (set_radio_btn t b s).
Proof. apply quiet_same; auto. Qed.

Lemma quiet_set_radio_running_false s :
  recording (flags s) = false -> quiet s (set_radio_running false s).
Proof. intro R. apply quiet_off; auto. simpl. discriminate. Qed.

Lemma some_inj {A : Type} (a b : A) : Some a = Some b -> a = b.
Proof. congruence. Qed.

Lemma stop_stream_body_quiet h :
  quiet_handler h -> quiet_handler (stop_stream_body h).
Proof.
  intros Hh s s'. unfold stop_stream_body.
  destruct (stop_recording s) as [s1 |] eqn:E1; [| discriminate].
  destruct (_kill_process h Nrsc5 s1) as [s2 |] eqn:E2; [| discriminate].
  destruct (_kill_process h Ffplay s2) as [s3 |] eqn:E3; [| discriminate].
  cbv zeta. intro E. apply some_inj in E. subst s'.
  then_quiet quiet_update_ui_state_false.
  pose proof (quiet_trans _ _ _ (kill_process_quiet h Nrsc5 Hh _ _ E2)
                (kill_process_quiet h Ffplay Hh _ _ E3)) as Q.
  assert (R : recording (flags s3) = false).
  { apply (q_recording _ _ Q).
    destruct (stop_recording_spec s) as [x [Ex [_ [Fx _]]]].
    rewrite E1 in Ex. apply some_inj in Ex. subst x. now rewrite Fx. }
  then_quiet quiet_set_radio_btn.
  then_quiet quiet_set_radio_running_false; [| exact R].
  then_quiet (quiet_clear Ffplay). then_quiet (quiet_clear Nrsc5).
  eapply quiet_trans; [exact (stop_recording_quiet _ _ E1) | exact Q].
Qed.

Lemma stop_stream_quiet fuel : quiet_handler (stop_stream fuel).
Proof.
  induction fuel as [| n IH]; simpl.
  - apply no_handler_quiet.
  - now apply stop_stream_body_quiet.
Qed.

(** After the teardown the session is idle, whoever ran it. *)
Lemma stop_stream_body_idle h s s' :
  quiet_handler h -> stop_stream_body h s = Some s' ->
  flags s' = {| radio_running := false; recording := false;
                stopping_radio := stopping_radio (flags s) |} /\
  proc_nrsc5 (handles s') = None /\ proc_play (handles s') = None /\
  status_text s' = "Status: Idle" /\
  radio_btn_text (controls s') = "Start Radio" /\
  record_btn_enabled (controls s') = false.
Proof.
  intros Hh. unfold stop_stream_body.
  destruct (stop_recording_spec s) as [s1 [E1 [Q1 [F1 _]]]]. rewrite E1.
  destruct (_kill_process h Nrsc5 s1) as [s2 |] eqn:E2; [| discriminate].
  destruct (_kill_process h Ffplay s2) as [s3 |] eqn:E3; [| discriminate].
  cbv zeta. intro E. injection E as <-.
  pose proof (quiet_trans _ _ _ (kill_process_quiet h Nrsc5 Hh _ _ E2)
                (kill_process_quiet h Ffplay Hh _ _ E3)) as Q.
  repeat split. simpl. f_equal.
  - apply (q_recording _ _ Q). now rewrite F1.
  - rewrite (q_stopping _ _ Q), F1. reflexivity.
Qed.

Lemma stop_stream_idle fuel s s' :
  stop_stream fuel s = Some s' ->
  flags s' = {| radio_running := false; recording := false;
                stopping_radio := stopping_radio (flags s) |} /\
  proc_nrsc5 (handles s') = None /\ proc_play (handles s') = None /\
  status_text s' = "Status: Idle" /\
  radio_btn_text (controls s') = "Start Radio" /\
  record_btn_enabled (controls s') = false.
Proof.
  destruct fuel as [| n]; [discriminate |]. simpl.
  apply stop_stream_body_idle, stop_stream_quiet.
Qed.

(** ** Enough fuel

    Once nrsc5 has exited, [stop_stream] waits on the consumers only and
    calls nothing back; so two units of fuel are always enough. *)

















(** ** What every handler guarantees *)

Lemma moves_refl s : moves s s.
Proof.
  constructor; auto.
  - exists []. now rewrite app_nil_r.
  - intros p H. now left.
Qed.

Lemma fresh_or_writable_moves s s' p :
  moves s s' -> fresh_or_writable s' p -> fresh_or_writable s p.
Proof.
  intros M [H | H].
  - exact (m_writable _ _ M p H).
  - right. pose proof (m_next _ _ M). lia.
Qed.

Lemma moves_trans s1 s2 s3 : moves s1 s2 -> moves s2 s3 -> moves s1 s3.
Proof.
  intros A B. constructor.
  - pose proof (m_next _ _ A). pose proof (m_next _ _ B). lia.
  - destruct (m_trace _ _ A) as [e1 [E1 F1]].
    destruct (m_trace _ _ B) as [e2 [E2 F2]].
    exists (e1 ++ e2). split.
    + now rewrite E2, E1, app_assoc.
    + apply Forall_app. split; auto.
      eapply Forall_impl; [| exact F2]. intros [] H; simpl in *; auto.
      exact (fresh_or_writable_moves _ _ _ A H).
  - intros p H.
    exact (fresh_or_writable_moves _ _ _ A (m_writable _ _ B p H)).
  - intro G. exact (m_good _ _ B (m_good _ _ A G)).
Qed.

Ltac then_moves lem :=
  match goal with
  | |- moves _ (?f ?x) => apply moves_trans with x; [| apply lem]
  end.

Lemma quiet_moves s s' : quiet s s' -> moves s s'.
Proof.
  intro Q. destruct (q_trace _ _ Q) as [ext [E F]]. constructor.
  - rewrite (q_next _ _ Q). auto.
  - exists ext. split; auto.
    eapply Forall_impl; [| exact F]. intros [] H; simpl in *; auto.
    now left.
  - intros p H. left. exact (writable_quiet _ _ _ Q H).
  - intros [G1 G2 G3]. constructor.
    + exact (q_sound _ _ Q G1).
    + intros r p H. rewrite (q_next _ _ Q). exact (G2 r p (q_pids _ _ Q r p H)).
    + intros p d. rewrite E, (q_next _ _ Q), in_app_iff. intros [H | H].
      * exact (G3 p d H).
      * rewrite Forall_forall in F. specialize (F _ H). simpl in F.
        destruct F as [F | [_ F]]; eauto.
Qed.

Lemma leaf_moves s s' : leaf s s' -> moves s s'.
Proof. intro L. now apply quiet_moves, leaf_quiet. Qed.

(** A change of fields the invariant does not read. *)
Lemma moves_frame s s' :
  recording (flags s') = recording (flags s) ->
  radio_running (flags s') = radio_running (flags s) ->
  (forall r, pid_of r s' = pid_of r s) ->
  next_pid (world s') = next_pid (world s) ->
  trace (world s') = trace (world s) -> moves s s'.
Proof.
  intros R U P N T. constructor.
  - rewrite N. auto.
  - exists []. rewrite app_nil_r, T. auto.
  - intros p [H | [H1 H2]]; left; [left | right]; rewrite <- ?P; auto.
    split; congruence.
  - intros [G1 G2 G3]. constructor; rewrite ?N, ?T, ?R, ?U; auto.
    intros r p. rewrite P. apply G2.
Qed.

Lemma moves_running_on s : moves s (set_radio_running true s).
Proof.
  constructor; auto.
  - exists []. now rewrite app_nil_r.
  - intros p H. now left.
  - intros [G1 G2 G3]. constructor; auto.
Qed.

Lemma moves_emit_spawn p program args s :
  moves s (emit (Spawn p program args) s).
Proof.
  constructor; auto.
  - exists [Spawn p program args]. split; auto. repeat constructor.
  - intros q H. now left.
  - intros [G1 G2 G3]. constructor; auto.
    intros q d. simpl. rewrite in_app_iff. intros [H | [H | []]]; eauto.
    discriminate H.
Qed.

(** A new process placed under a role is fresh. *)
Lemma moves_new_process r s :
  moves s (set_proc r (Some (fst (new_process s))) (snd (new_process s))).
Proof.
  constructor.
  - destruct r; simpl; lia.
  - exists []. rewrite app_nil_r. destruct r; auto.
  - intros p [H | [H1 H2]].
    + destruct r; simpl in H; try (left; left; exact H).
      right. unfold pid_of in H. simpl in H. injection H as <-. auto.
    + destruct r; simpl in H1, H2; try (left; right; split; assumption).
      right. unfold pid_of in H2. simpl in H2. injection H2 as <-. auto.
  - intros [G1 G2 G3]. constructor.
    + destruct r; exact G1.
    + intros r0 p. rewrite pid_of_set_proc.
      assert (N : next_pid (world (set_proc r (Some (fst (new_process s)))
                                     (snd (new_process s)))) =
                  S (next_pid (world s))) by (destruct r; reflexivity).
      rewrite N.
      destruct r0, r; simpl; intro H; try (injection H as <-; lia);
        apply Nat.lt_lt_succ_r;
        solve [ apply (G2 Nrsc5); exact H | apply (G2 Ffplay); exact H
              | apply (G2 Ffmpeg); exact H ].
    + intros p d H.
      assert (In (Write p d) (trace (world s))) by (destruct r; exact H).
      assert (N : next_pid (world (set_proc r (Some (fst (new_process s)))
                                     (snd (new_process s)))) =
                  S (next_pid (world s))) by (destruct r; reflexivity).
      rewrite N. apply Nat.lt_lt_succ_r. eauto.
Qed.

Lemma start_and_wait_moves h r p program args s b s' :
  start_and_wait h r p program args s = Some (b, s') -> moves s s'.
Proof.
  intro E.
  destruct (start_and_wait_leaf h r p program args s) as [b' [x [E' [L _]]]].
  rewrite E in E'. injection E' as _ <-.
  apply moves_trans with (emit (Spawn p program args) s).
  - apply moves_emit_spawn.
  - exact (leaf_moves _ _ L).
Qed.

Lemma stop_stream_moves fuel : moving (stop_stream fuel).
Proof. intros x y E. exact (quiet_moves _ _ (stop_stream_quiet fuel _ _ E)). Qed.

Lemma moves_set_stopping b s : moves s (set_stopping_radio b s).
Proof. apply moves_frame; auto. Qed.

Lemma moves_set_radio_btn t b s : moves s (set_radio_btn t b s).
Proof. apply moves_frame; auto. Qed.

Lemma moves_update_ui_state b s : moves s (_update_ui_state b s).
Proof.
  unfold _update_ui_state. cbv zeta.
  destruct b; [destruct (negb _) |]; apply moves_frame; auto.
Qed.

Lemma moves_reset_labels s : moves s (_reset_labels s).
Proof. apply moves_frame; auto. Qed.

Lemma leaf_validate_start_inputs s : leaf s (snd (_validate_start_inputs s)).
Proof.
  unfold _validate_start_inputs, warn_input. cbv zeta.
  repeat match goal with
         | |- context [match ?x with _ => _ end] => destruct x
         end; simpl snd;
    first [apply leaf_refl | apply leaf_message_box].
Qed.

Lemma start_stream_moves fuel : moving (start_stream fuel).
Proof.
  intros s s'. unfold start_stream.
  destruct (radio_running (flags s));
    [intro E; apply some_inj in E; subst; apply moves_refl |].
  pose proof (leaf_moves _ _ (leaf_validate_start_inputs s)) as M0.
  destruct (_validate_start_inputs s) as [valid s0]. simpl snd in M0.
  destruct valid; simpl negb; cbv iota;
    [| intro E; apply some_inj in E; subst; exact M0].
  cbv zeta.
  pose proof (moves_new_process Ffplay s0) as M1.
  destruct (new_process s0) as [p s1]. simpl fst in M1. simpl snd in M1.
  simpl set_proc in M1.
  destruct (start_and_wait _ Ffplay _ _ _ _) as [[started s2] |] eqn:E2;
    [| discriminate].
  pose proof (start_and_wait_moves _ _ _ _ _ _ _ _ E2) as M2.
  assert (M : moves s s2) by eauto using moves_trans.
  destruct started; simpl negb; cbv iota.
  - pose proof (moves_new_process Nrsc5 s2) as M3.
    destruct (new_process s2) as [n s3]. simpl fst in M3. simpl snd in M3.
    simpl set_proc in M3.
    destruct (start_and_wait _ Nrsc5 _ _ _ _) as [[started s4] |] eqn:E4;
      [| discriminate].
    pose proof (start_and_wait_moves _ _ _ _ _ _ _ _ E4) as M4.
    assert (M' : moves s s4) by eauto using moves_trans.
    destruct started.
    + intro E. apply some_inj in E. subst s'.
      then_moves moves_reset_labels. then_moves moves_update_ui_state.
      then_moves moves_set_radio_btn. then_moves moves_running_on.
      exact M'.
    + intro E. apply stop_stream_moves in E.
      eapply moves_trans; [| exact E].
      eapply moves_trans; [exact M' |].
      apply leaf_moves, leaf_message_box.
  - destruct (_kill_process _ Ffplay _) as [s3 |] eqn:E3; [| discriminate].
    intro E. apply some_inj in E. subst s'.
    apply (kill_process_quiet _ _ (stop_stream_quiet fuel)) in E3.
    then_moves (fun x => quiet_moves _ _ (quiet_clear Ffplay x)).
    eapply moves_trans; [| exact (quiet_moves _ _ E3)].
    eapply moves_trans; [exact M |]. apply leaf_moves, leaf_message_box.
Qed.

Lemma toggle_radio_moves fuel : moving (toggle_radio fuel).
Proof.
  intros s s'. unfold toggle_radio.
  destruct (negb _); [intro E; apply some_inj in E; subst; apply moves_refl |].
  cbv zeta.
  match goal with |- context [if ?c then _ else _] => destruct c end.
  - destruct (stop_stream fuel _) as [s1 |] eqn:E1; [| discriminate].
    intro E. apply some_inj in E. subst s'.
    then_moves moves_set_radio_btn. then_moves moves_set_stopping.
    eapply moves_trans; [| exact (stop_stream_moves _ _ _ E1)].
    then_moves moves_set_stopping. apply moves_set_radio_btn.
  - destruct (start_stream fuel _) as [s1 |] eqn:E1; [| discriminate].
    intro E. apply some_inj in E. subst s'.
    then_moves moves_set_radio_btn.
    eapply moves_trans; [| exact (start_stream_moves _ _ _ E1)].
    apply moves_set_radio_btn.
Qed.

Lemma moves_set_inputs i s : moves s (set_inputs i s).
Proof. apply moves_frame; auto. Qed.

Lemma moves_select_program prog s : moves s (_select_program_by_number prog s).
Proof.
  unfold _select_program_by_number.
  destruct (find_program _ _ _); [apply moves_set_inputs | apply moves_refl].
Qed.

Lemma tune_preset_moves fuel meta : moving (_tune_preset_item fuel meta).
Proof.
  intros s s'. unfold _tune_preset_item.
  destruct meta as [| kv meta];
    [intro E; apply some_inj in E; subst; apply moves_refl |].
  cbv zeta.
  match goal with
  | |- context [_select_program_by_number ?g ?x] =>
      assert (M0 : moves s (_select_program_by_number g x));
      [ then_moves moves_select_program;
        destruct (dict_get (kv :: meta) "freq" "");
        [apply moves_refl | apply moves_set_inputs]
      | generalize dependent (_select_program_by_number g x) ]
  end.
  intros s0 M0.
  destruct (radio_running (flags s0));
    [| intro E; apply some_inj in E; subst; exact M0].
  destruct (stop_stream fuel _) as [s1 |] eqn:E1; [| discriminate].
  intro E. apply start_stream_moves in E.
  eapply moves_trans; [| exact E]. then_moves moves_set_stopping.
  eapply moves_trans; [| exact (stop_stream_moves _ _ _ E1)].
  then_moves moves_set_stopping. exact M0.
Qed.

Lemma close_moves fuel : moving (closeEvent fuel).
Proof.
  intros s s' E. unfold closeEvent in E. cbv zeta in E.
  eapply moves_trans; [| exact (stop_stream_moves _ _ _ E)].
  apply moves_set_stopping.
Qed.

(** Turning [recording] on over a recorder created since [s]. *)
Lemma moves_recording_on s s3 s4 p :
  moves s s3 ->
  pid_of Ffmpeg s3 = Some p -> next_pid (world s) <= p ->
  radio_running (flags s4) = true ->
  (forall r, pid_of r s4 = pid_of r s3) ->
  next_pid (world s4) = next_pid (world s3) ->
  trace (world s4) = trace (world s3) ->
  moves s s4.
Proof.
  intros M Hp Hf U P N T. constructor.
  - rewrite N. apply (m_next _ _ M).
  - rewrite T. apply (m_trace _ _ M).
  - intros q [H | [_ H]].
    + apply (m_writable _ _ M). left. now rewrite <- P.
    + right. rewrite P, Hp in H. injection H as <-. exact Hf.
  - intro G. destruct (m_good _ _ M G) as [G1 G2 G3]. constructor; auto.
    + intros r q. rewrite P, N. apply G2.
    + intros q d. rewrite T, N. apply G3.
Qed.

Lemma start_recording_moves : moving start_recording.
Proof.
  intros s s'. unfold start_recording.
  destruct (radio_running (flags s)) eqn:U; simpl negb; cbv iota;
    [| intro E; apply some_inj in E; subst; apply moves_refl].
  destruct (ask make_filename s) as [file s0] eqn:Ea.
  assert (M0 : moves s (set_current_record_file (Some file) s0)).
  { replace s0 with (snd (ask make_filename s)) by now rewrite Ea.
    apply moves_frame; auto. }
  assert (N0 : next_pid (world (set_current_record_file (Some file) s0)) =
               next_pid (world s)).
  { replace s0 with (snd (ask make_filename s)) by now rewrite Ea. auto. }
  assert (U0 : radio_running (flags (set_current_record_file (Some file) s0))
               = true).
  { replace s0 with (snd (ask make_filename s)) by now rewrite Ea. auto. }
  cbv zeta. generalize dependent (set_current_record_file (Some file) s0).
  clear s0 Ea. intros s0 M0 N0 U0.
  pose proof (moves_new_process Ffmpeg s0) as M1.
  assert (P1 : pid_of Ffmpeg (set_proc_rec (Some (fst (new_process s0)))
                                 (snd (new_process s0))) =
               Some (next_pid (world s0))) by reflexivity.
  assert (U1 : radio_running (flags (set_proc_rec (Some (fst (new_process s0)))
                                 (snd (new_process s0)))) = true) by exact U0.
  destruct (new_process s0) as [r s1]. simpl fst in *. simpl snd in *.
  simpl set_proc in M1.
  generalize dependent (set_proc_rec (Some r) s1). intros s2 M1 P1 U1.
  destruct (start_and_wait_leaf no_handler Ffmpeg (pid r) "ffmpeg"
              (ffmpeg_args file) s2) as [b [s3 [E3 [L3 _]]]].
  rewrite E3.
  pose proof (start_and_wait_moves _ _ _ _ _ _ _ _ E3) as M3.
  assert (M : moves s s3) by eauto using moves_trans.
  destruct b.
  - destruct (ask datetime_now _) as [now s4] eqn:Eb.
    intro E. apply some_inj in E. subst s'.
    assert (P3 : pid_of Ffmpeg s3 = Some (next_pid (world s0))).
    { rewrite (leaf_pids _ _ L3). exact P1. }
    eapply (moves_recording_on s s3 _ _ M P3); try lia;
      replace s4 with (snd (ask datetime_now
        (set_status_text "Status: Listening & Recording"
           (set_record_btn "Stop Recording" (record_btn_style (controls
              (set_recording true s3))) (set_recording true s3)))))
        by (now rewrite Eb); auto.
    simpl. rewrite (leaf_flags _ _ L3). exact U1.
  - intro E. apply some_inj in E. subst s'.
    eapply moves_trans; [exact M |]. apply leaf_moves, leaf_message_box.
Qed.

Lemma toggle_recording_moves : moving toggle_recording.
Proof.
  intros s s'. unfold toggle_recording. destruct (recording (flags s)).
  - intro E. exact (quiet_moves _ _ (stop_recording_quiet _ _ E)).
  - apply start_recording_moves.
Qed.

Lemma deliver_moves fuel r p sig : moving (deliver (stop_stream fuel) r p sig).
Proof.
  intros s s' E.
  exact (quiet_moves _ _
           (deliver_quiet _ r p sig (stop_stream_quiet fuel) _ _ E)).
Qed.

Lemma step_moves fuel e : moving (step fuel e).
Proof.
  intros s s'. destruct e; simpl;
    try (intro E; apply some_inj in E; subst s').
  - destruct (radio_btn_enabled _);
      [apply toggle_radio_moves
      | intro E; apply some_inj in E; subst; apply moves_refl].
  - destruct (record_btn_enabled _);
      [apply toggle_recording_moves
      | intro E; apply some_inj in E; subst; apply moves_refl].
  - apply leaf_moves, leaf_set_log_text.
  - apply tune_preset_moves.
  - apply close_moves.
  - destruct (inputs_enabled _); [apply moves_set_inputs | apply moves_refl].
  - destruct (inputs_enabled _); [apply moves_set_inputs | apply moves_refl].
  - destruct (inputs_enabled _); [apply moves_set_inputs | apply moves_refl].
  - destruct (inputs_enabled _); [apply moves_set_inputs | apply moves_refl].
  - apply deliver_moves.
  - destruct (proc_of r s) as [q |] eqn:Hq; [| apply moves_refl].
    destruct (_ && _) eqn:C; [| apply moves_refl].
    apply leaf_moves, (leaf_set_same_pid r q _ s Hq). reflexivity.
Qed.

Lemma run_moves fuel es : moving (run fuel es).
Proof.
  induction es as [| e es IH]; intros s s'; simpl.
  - intro E. apply some_inj in E. subst. apply moves_refl.
  - destruct (step fuel e s) as [s1 |] eqn:E1; [| discriminate].
    intro E. eapply moves_trans; [exact (step_moves _ _ _ _ E1) |].
    exact (IH _ _ E).
Qed.

Lemma good_init i b e : good (init i b e).
Proof.
  constructor; simpl.
  - discriminate.
  - intros [] p; discriminate.
  - intros p d [].
Qed.

Lemma good_reachable s : reachable s -> good s.
Proof.
  induction 1 as [i b e | fuel ev s s' R IH E].
  - apply good_init.
  - exact (m_good _ _ (step_moves _ _ _ _ E) IH).
Qed.

(** * The properties of the specification *)

(** ** stop_recording *)

(** C8. Calling [stop_recording] while recording is off changes no field
    of the state, touches no process and shows no error; calling it
    twice is the same as calling it once. *)
Theorem stop_recording_noop_when_off : forall s,
  (recording (flags s) = false -> stop_recording s = Some s) /\
  (forall s', stop_recording s = Some s' -> stop_recording s' = Some s').
Proof.
  intro s. split.
  - intro R. unfold stop_recording. rewrite R. reflexivity.
  - intros s' E. destruct (stop_recording_spec s) as [x [Ex [_ [F _]]]].
    rewrite E in Ex. apply some_inj in Ex. subst x.
    unfold stop_recording. rewrite F. reflexivity.
Qed.

Lemma stop_recording_noop_when_off_witness :
  stop_recording demo = Some demo.
Proof.
  apply (proj1 (stop_recording_noop_when_off demo)). reflexivity.
Defined.

(** ** The BER series *)

Lemma lastn_all {A : Type} n (l : list A) : List.length l <= n -> lastn n l = l.
Proof.
  intro H. unfold lastn. replace (List.length l - n) with 0 by lia.
  reflexivity.
Qed.

Lemma lastn_length {A : Type} n (l : list A) :
  List.length (lastn n l) = Nat.min (List.length l) n.
Proof. unfold lastn. rewrite length_skipn. lia. Qed.

Lemma lastn_snoc {A : Type} n (l : list A) v :
  lastn n (lastn n l ++ [v]) = lastn n (l ++ [v]).
Proof.
  destruct (Nat.le_gt_cases (List.length l) n) as [H | H].
  - now rewrite (lastn_all n l H).
  - unfold lastn at 1 3. rewrite !length_app, lastn_length. simpl.
    replace (Nat.min (List.length l) n + 1 - n) with 1 by lia.
    unfold lastn.
    replace (List.length l + 1 - n) with (1 + (List.length l - n)) by lia.
    rewrite <- skipn_skipn. f_equal.
    rewrite skipn_app.
    replace (List.length l - n - List.length l) with 0 by lia.
    reflexivity.
Qed.

Lemma ber_history_update v s :
  ber_history (ber (_update_ber_graph v s)) =
  lastn ber_max_points (ber_history (ber s) ++ [v]).
Proof.
  unfold _update_ber_graph. cbv zeta. simpl ber_history.
  destruct (ber_max_points <? _) eqn:C; [reflexivity |].
  apply Nat.ltb_ge in C. symmetry. now apply lastn_all.
Qed.

Lemma ber_history_append_all vs s :
  List.length (ber_history (ber s)) <= ber_max_points ->
  ber_history (ber (append_all vs s)) =
  lastn ber_max_points (ber_history (ber s) ++ vs).
Proof.
  intro H. induction vs as [| v vs IH] using rev_ind.
  - simpl. rewrite app_nil_r. symmetry. now apply lastn_all.
  - unfold append_all in *. rewrite fold_left_app. cbn [fold_left].
    rewrite ber_history_update, IH, app_assoc. apply lastn_snoc.
Qed.

(** C4. After any [n] appends to an empty BER series, the series holds
    the last [min n 300] appended values in the order they were
    appended, so its length is [min n 300]. *)
Theorem ber_series_keeps_last_300 : forall vs s,
  ber_history (ber s) = [] ->
  ber_history (ber (append_all vs s)) = skipn (List.length vs - 300) vs /\
  List.length (ber_history (ber (append_all vs s))) =
    Nat.min (List.length vs) 300.
Proof.
  intros vs s H.
  assert (E : ber_history (ber (append_all vs s)) = lastn ber_max_points vs).
  { rewrite ber_history_append_all; rewrite H; simpl; auto.
    unfold ber_max_points. lia. }
  split.
  - exact E.
  - rewrite E. apply lastn_length.
Qed.

Lemma ber_series_keeps_last_300_witness :
  ber_history (ber (append_all [float_10; float_100; float_1_1] demo)) =
  [float_10; float_100; float_1_1].
Proof.
  apply (proj1 (ber_series_keeps_last_300
                  [float_10; float_100; float_1_1] demo eq_refl)).
Defined.

(** ** The station location *)

Lemma station_scan_ber line s : station (scan_ber line s) = station s.
Proof.
  unfold scan_ber. destruct (Re.search _ _ _); auto.
  destruct (PyFloat.of_str _); reflexivity.
Qed.

Lemma station_scan_metadata line s b :
  station (fst (scan_metadata line (s, b))) = station s.
Proof.
  unfold scan_metadata. cbv zeta.
  repeat match goal with
         | |- context [Re.search ?i ?p ?l] => destruct (Re.search i p l)
         end; reflexivity.
Qed.

Lemma no_station_in_empty_line :
  Re.search true re_station_loc "" = None.
Proof. vm_compute. reflexivity. Qed.

(** C6. A line that matches the station-location pattern replaces the
    three station fields together when all three numbers convert, and
    leaves all three as they were when any of them does not. *)
Theorem station_location_is_replaced_whole : forall acc line m,
  Re.search true re_station_loc (PyStr.strip line) = Some m ->
  station (fst (scan_line acc line)) =
  match PyFloat.of_str (group 1 m), PyFloat.of_str (group 2 m),
        PyFloat.of_str (group 3 m) with
  | Some lat, Some lon, Some alt =>
      {| station_lat := Some lat; station_lon := Some lon;
         station_alt := Some alt |}
  | _, _, _ => station (fst acc)
  end.
Proof.
  intros [s b] line m H. unfold scan_line. cbv zeta.
  destruct (PyStr.strip line) as [| c l] eqn:El.
  - rewrite no_station_in_empty_line in H. discriminate.
  - simpl fst. simpl snd.
    destruct (scan_metadata _ _) as [s1 ch] eqn:E. simpl fst.
    assert (S1 : station s1 = station s).
    { change s1 with (fst (s1, ch)). rewrite <- E.
      rewrite station_scan_metadata, station_scan_ber. reflexivity. }
    unfold scan_station. rewrite H.
    destruct (PyFloat.of_str (group 1 m)); auto.
    destruct (PyFloat.of_str (group 2 m)); auto.
    destruct (PyFloat.of_str (group 3 m)); auto.
Qed.

Lemma station_location_is_replaced_whole_witness :
  station (fst (scan_line (demo, false) "Station location: 35.90,-95.77,300m"))
  = match PyFloat.of_str "35.90", PyFloat.of_str "-95.77",
          PyFloat.of_str "300" with
    | Some lat, Some lon, Some alt =>
        {| station_lat := Some lat; station_lon := Some lon;
           station_alt := Some alt |}
    | _, _, _ => station demo
    end.
Proof.
  apply (station_location_is_replaced_whole (demo, false)
           "Station location: 35.90,-95.77,300m" ["35.90"; "-95.77"; "300"]).
  vm_compute. reflexivity.
Defined.

(** ** The sign of the BER samples *)

Lemma float_100_value :
  float_100 = S754_finite false 7036874417766400 (-46).
Proof. vm_compute. reflexivity. Qed.

Lemma round_keeps_non_negative mx ex lx :
  non_negative (binary_round_aux PyFloat.prec PyFloat.emax false mx ex lx)
  = true.
Proof.
  unfold binary_round_aux.
  destruct (shr_fexp _ _ _ _ _) as [mrs e'].
  destruct (shr_fexp _ _ _ _ _) as [mrs' e''].
  destruct (shr_m mrs'); [reflexivity | | reflexivity].
  destruct (Z.leb _ _); reflexivity.
Qed.

Lemma percent_keeps_non_negative v :
  non_negative v = true -> non_negative (PyFloat.mul v float_100) = true.
Proof.
  rewrite float_100_value. unfold PyFloat.mul.
  destruct v as [[] | [] | | [] m e]; try reflexivity; try discriminate.
  intros _. unfold SFmul. apply round_keeps_non_negative.
Qed.

Lemma all_non_negative_lastn n l :
  all_non_negative l -> all_non_negative (lastn n l).
Proof.
  unfold all_non_negative, lastn. intro H.
  rewrite <- (firstn_skipn (List.length l - n) l) in H.
  apply Forall_app in H. apply H.
Qed.

Lemma ber_scan_metadata line s b :
  ber (fst (scan_metadata line (s, b))) = ber s.
Proof.
  unfold scan_metadata. cbv zeta.
  repeat match goal with
         | |- context [Re.search ?i ?p ?l] => destruct (Re.search i p l)
         end; reflexivity.
Qed.

Lemma ber_scan_station line s : ber (scan_station line s) = ber s.
Proof.
  unfold scan_station. destruct (Re.search _ _ _); auto.
  repeat (destruct (PyFloat.of_str _); auto).
Qed.

(** C7, as the code has it. The sample appended for a line is 100 times
    the number read after "BER:"; the series stays free of negative
    samples as long as no line carries a negative number. *)
Theorem ber_series_non_negative_for_non_negative_readings : forall acc line,
  (forall m v,
      Re.search false re_ber (PyStr.strip line) = Some m ->
      PyFloat.of_str (group 1 m) = Some v ->
      ber_history (ber (fst (scan_line acc line))) =
      lastn ber_max_points
        (ber_history (ber (fst acc)) ++ [PyFloat.mul v float_100])) /\
  (all_non_negative (ber_history (ber (fst acc))) ->
   (forall m v,
       Re.search false re_ber (PyStr.strip line) = Some m ->
       PyFloat.of_str (group 1 m) = Some v -> non_negative v = true) ->
   all_non_negative (ber_history (ber (fst (scan_line acc line))))).
Proof.
  intros [s b] line.
  assert (E : forall c l, PyStr.strip line = String c l ->
    ber (fst (scan_line (s, b) line)) = ber (scan_ber (String c l) s)).
  { intros c l El. unfold scan_line. cbv zeta. rewrite El.
    simpl fst. simpl snd.
    destruct (scan_metadata _ _) as [s1 ch] eqn:Em. simpl fst.
    rewrite ber_scan_station.
    change s1 with (fst (s1, ch)). rewrite <- Em, ber_scan_metadata.
    unfold scan_ber.
    destruct (Re.search false re_ber (String c l)); auto.
    destruct (PyFloat.of_str _); reflexivity. }
  destruct (PyStr.strip line) as [| c l] eqn:El.
  - split.
    + intros m v Hm. vm_compute in Hm. discriminate Hm.
    + intros H _. unfold scan_line. cbv zeta. rewrite El. exact H.
  - rewrite (E c l eq_refl). unfold scan_ber. simpl fst. split.
    + intros m v Hm Hv. rewrite Hm, Hv. apply ber_history_update.
    + intros H Hv.
      destruct (Re.search false re_ber (String c l)) as [m |]; [| exact H].
      destruct (PyFloat.of_str (group 1 m)) as [v |] eqn:Ev; [| exact H].
      rewrite ber_history_update. apply all_non_negative_lastn.
      apply Forall_app. split; [exact H |]. constructor; [| constructor].
      apply percent_keeps_non_negative. exact (Hv m v eq_refl Ev).
Qed.

Lemma ber_series_non_negative_for_non_negative_readings_witness :
  all_non_negative
    (ber_history (ber (fst (scan_line (demo, false) "BER: 0.015")))).
Proof.
  apply (proj2 (ber_series_non_negative_for_non_negative_readings
                  (demo, false) "BER: 0.015")).
  - constructor.
  - intros m v Hm Hv. vm_compute in Hm. injection Hm as <-.
    vm_compute in Hv. injection Hv as <-. reflexivity.
Defined.

(** C7, as the spec words it, fails: the pattern lets a sign through, and
    "BER: -5" stores the sample -500.0. *)
Lemma negative_ber_sample_is_stored :
  all_non_negative (ber_history (ber demo)) /\
  ~ all_non_negative
      (ber_history (ber (fst (scan_line (demo, false) "BER: -5")))).
Proof.
  split.
  - constructor.
  - intro H. vm_compute in H. inversion H as [| v l Hv _]. discriminate Hv.
Qed.

(** ** Classifying process errors and exits *)




(** ** Start-up validation *)



(** ** Recording only while the radio runs *)

Lemma reachable_run fuel es : forall s s',
  reachable s -> run fuel es s = Some s' -> reachable s'.
Proof.
  induction es as [| e es IH]; intros s s' R; simpl.
  - intro E. apply some_inj in E. now subst.
  - destruct (step fuel e s) as [s1 |] eqn:E1; [| discriminate].
    apply IH. eapply reach_step; eauto.
Qed.

(** C3. In every state the window can reach, [recording] implies
    [radio_running]. *)
Theorem recording_implies_radio_running : forall s,
  reachable s -> recording (flags s) = true -> radio_running (flags s) = true.
Proof.
  intros s R. exact (g_flags _ (good_reachable s R)).
Qed.

Lemma demo_recording_reachable : reachable demo_recording.
Proof.
  apply (reachable_run 2 [Click_radio_btn; Click_record_btn] demo).
  - apply reach_init.
  - vm_compute. reflexivity.
Qed.

Lemma recording_implies_radio_running_witness :
  radio_running (flags demo_recording) = true.
Proof.
  apply (recording_implies_radio_running demo_recording).
  - exact demo_recording_reachable.
  - vm_compute. reflexivity.
Defined.

(** ** The producer exits on its own *)



(** ** A recorder that does not start *)

Lemma world_on_consumer_error name e s :
  String.eqb name "nrsc5" = false ->
  world (_on_process_error name e s) = world s.
Proof.
  intro N. unfold _on_process_error. rewrite N.
  destruct (_ && _); reflexivity.
Qed.

Lemma consumer_errors_world h r p errs : forall s,
  r <> Nrsc5 ->
  exists s', deliver_all h r p (map SigError errs) s = Some s' /\
             world s' = world s.
Proof.
  induction errs as [| e errs IH]; intros s N; simpl.
  - eauto.
  - assert (E : exists s1, deliver h r p (SigError e) s = Some s1 /\
                           world s1 = world s).
    { unfold deliver. destruct r; [now elim N | |]; simpl; eexists;
        (split; [reflexivity |]);
        rewrite world_on_consumer_error by reflexivity;
        unfold update_object; simpl proc_of;
        match goal with |- context [match ?x with _ => _ end] =>
          destruct x as [q |] end; auto;
        destruct (pid q =? p); reflexivity. }
    destruct E as [s1 [E1 W1]]. rewrite E1.
    destruct (IH s1 N) as [s2 [E2 W2]]. exists s2. split; congruence.
Qed.

Lemma world_set_state_of r p st s : world (set_state_of r p st s) = world s.
Proof.
  unfold set_state_of. destruct (proc_of r s) as [q |]; auto.
  destruct (pid q =? p); destruct r; reflexivity.
Qed.

(** A consumer that fails to start: the Spawn is all the world sees. *)
Lemma consumer_start_failed h r p program args s errs still :
  r <> Nrsc5 ->
  qt_start (env (world s)) (tick (world s)) = NotStarted errs still ->
  exists s',
    start_and_wait h r p program args s = Some (false, s') /\
    leaf (emit (Spawn p program args) s) s' /\
    trace (world s') = trace (world s) ++ [Spawn p program args] /\
    next_pid (world s') = next_pid (world s).
Proof.
  intros N Q.
  destruct (start_and_wait_leaf h r p program args s) as [b [s' [E [L B]]]].
  rewrite Q in B. subst b. exists s'. split; [exact E |]. split; [exact L |].
  revert E. unfold start_and_wait. cbv zeta. unfold ask.
  rewrite !world_set_state_of. simpl env. simpl tick. rewrite Q.
  match goal with |- context [deliver_all h r p ?l ?x] =>
    destruct (consumer_errors_world h r p errs x N) as [s2 [E2 W2]] end.
  rewrite E2. intro E. injection E as <-.
  rewrite world_set_state_of, W2. simpl. rewrite ?world_set_state_of.
  split; reflexivity.
Qed.

(** C10. When the recorder does not start within its wait,
    [start_recording] leaves [recording] off, the duration timer and
    clock untouched, the record button as it was, and shows one
    warning; audio is never written to that recorder afterwards,
    whatever happens next. *)
Theorem failed_recorder_start_leaves_recording_off : forall s errs still,
  reachable s ->
  radio_running (flags s) = true ->
  recording (flags s) = false ->
  qt_start (env (world s)) (S (tick (world s))) = NotStarted errs still ->
  let recorder := next_pid (world s) in
  let file := make_filename (env (world s)) (tick (world s)) in
  exists s1,
    start_recording s = Some s1 /\
    recording (flags s1) = false /\
    rclock s1 = rclock s /\
    controls s1 = controls s /\
    pid_of Ffmpeg s1 = Some recorder /\
    trace (world s1) =
      trace (world s) ++
        [Spawn recorder "ffmpeg" (ffmpeg_args file);
         MessageBox Warning "Error" "Could not start ffmpeg recorder."] /\
    forall fuel es s2 data,
      run fuel es s1 = Some s2 ->
      ~ In (Write recorder data) (trace (world s2)).
Proof.
  intros s errs still Hr U R Q recorder file.
  pose proof (good_reachable s Hr) as [_ G2 G3].
  unfold start_recording. rewrite U. simpl negb. cbv iota.
  unfold ask at 1. cbv zeta. fold file.
  set (sa := set_current_record_file (Some file) _).
  unfold new_process. simpl fst. simpl snd.
  set (sb := set_proc_rec _ _).
  assert (Qb : qt_start (env (world sb)) (tick (world sb)) =
               NotStarted errs still) by exact Q.
  destruct (consumer_start_failed no_handler Ffmpeg recorder "ffmpeg"
              (ffmpeg_args file) sb errs still role_neq_ffmpeg Qb)
    as [s3 [E3 [L3 [T3 N3]]]].
  change (pid {| pid := next_pid (world sa); state := NotRunning;
                 stdout_buf := ""; stderr_buf := "" |}) with recorder.
  rewrite E3.
  set (s1 := message_box Warning "Error" "Could not start ffmpeg recorder." s3).
  assert (F1 : flags s1 = flags s) by exact (leaf_flags _ _ L3).
  assert (P1 : forall r, pid_of r s1 = pid_of r sb)
    by exact (leaf_pids _ _ L3).
  assert (T1 : trace (world s1) =
               trace (world s) ++
                 [Spawn recorder "ffmpeg" (ffmpeg_args file);
                  MessageBox Warning "Error" "Could not start ffmpeg recorder."]).
  { unfold s1. simpl. rewrite T3. simpl. rewrite <- app_assoc. reflexivity. }
  assert (N1 : next_pid (world s1) = S recorder) by (unfold s1; simpl; now rewrite N3).
  exists s1. split; [reflexivity |]. split; [now rewrite F1 |].
  split; [exact (leaf_rclock _ _ L3) |]. split; [exact (leaf_controls _ _ L3) |].
  split; [now rewrite P1 |]. split; [exact T1 |].
  intros fuel es s2 data Hrun Hin.
  destruct (m_trace _ _ (run_moves fuel es _ _ Hrun)) as [ext [Te Fe]].
  rewrite Te, T1, !in_app_iff in Hin.
  destruct Hin as [[Hin | Hin] | Hin].
  - specialize (G3 _ _ Hin). unfold recorder in G3. lia.
  - simpl in Hin. destruct Hin as [H | [H | []]]; discriminate H.
  - rewrite Forall_forall in Fe. specialize (Fe _ Hin). simpl in Fe.
    destruct Fe as [[Hw | [Hw _]] | Hw].
    + rewrite P1 in Hw. specialize (G2 Ffplay recorder Hw).
      unfold recorder in G2. lia.
    + rewrite F1, R in Hw. discriminate.
    + rewrite N1 in Hw. lia.
Qed.

Lemma demo_no_recorder_reachable : reachable demo_no_recorder.
Proof.
  apply (reachable_run 2 [Click_radio_btn]
           (init demo_inputs true demo_env_no_recorder)).
  - apply reach_init.
  - vm_compute. reflexivity.
Qed.

Lemma failed_recorder_start_leaves_recording_off_witness :
  exists s1,
    start_recording demo_no_recorder = Some s1 /\
    recording (flags s1) = false /\
    forall fuel es s2 data,
      run fuel es s1 = Some s2 -> ~ In (Write 2 data) (trace (world s2)).
Proof.
  destruct (failed_recorder_start_leaves_recording_off demo_no_recorder
              [FailedToStart] false) as [s1 [E [R [_ [_ [_ [_ H]]]]]]].
  - exact demo_no_recorder_reachable.
  - vm_compute. reflexivity.
  - vm_compute. reflexivity.
  - vm_compute. reflexivity.
  - exists s1. split; [exact E |]. split; [exact R |]. exact H.
Defined.

(** ** Presets: the round trip *)

Module PresetsRoundTrip.

Import Presets.

Lemma importable_is_dict meta : importable meta = true -> is_dict meta = true.
Proof. destruct meta; simpl; auto. Qed.

Lemma filter_importable l :
  forallb importable l = true -> filter is_dict l = l.
Proof.
  induction l as [| m l IH]; simpl; auto.
  intro H. apply andb_true_iff in H. destruct H as [H1 H2].
  rewrite (importable_is_dict m H1), (IH H2). reflexivity.
Qed.

Lemma import_loop_importable data : forall items,
  forallb importable data = true ->
  import_loop data items = (items ++ data, false).
Proof.
  induction data as [| m data IH]; intros items H; simpl.
  - now rewrite app_nil_r.
  - simpl in H. apply andb_true_iff in H. destruct H as [H1 H2].
    destruct m; try discriminate H1. simpl in H1.
    apply andb_true_iff in H1. destruct H1 as [T R].
    rewrite T. apply negb_true_iff in R. rewrite R. simpl.
    rewrite (IH _ H2), <- app_assoc. reflexivity.
Qed.

(** Whatever is imported is importable again. *)
Lemma import_loop_keeps_importable data : forall items,
  forallb importable items = true ->
  forallb importable (fst (import_loop data items)) = true.
Proof.
  induction data as [| m data IH]; intros items H; simpl; auto.
  destruct m; auto.
  destruct (negb (truthy _)) eqn:T; auto.
  destruct (label_raises _ _ _) eqn:R; auto.
  apply IH. rewrite forallb_app, H. simpl.
  apply negb_false_iff in T. rewrite T, R. reflexivity.
Qed.

Lemma add_preset_keeps_importable freq_text prog_num name_text t :
  forallb importable (preset_list t) = true ->
  forallb importable
    (preset_list (_add_preset freq_text prog_num name_text t)) = true.
Proof.
  intro H. unfold _add_preset. cbv zeta.
  destruct (PyStr.strip freq_text) as [| c f] eqn:F; auto.
  simpl preset_list. rewrite forallb_app, H. simpl.
  unfold label_raises. simpl. rewrite !andb_true_r, andb_false_r. reflexivity.
Qed.

Lemma load_loop_keeps_importable data : forall items,
  forallb importable items = true ->
  forallb importable (fst (load_loop data items)) = true.
Proof.
  induction data as [| m data IH]; intros items H; simpl; auto.
  destruct m; auto.
  destruct (negb (truthy _)) eqn:T; auto.
  destruct (label_raises _ _ _) eqn:R; auto.
  apply IH. rewrite forallb_app, H. simpl.
  apply negb_false_iff in T. rewrite T, R. reflexivity.
Qed.

Lemma forallb_firstn_skipn {A : Type} (f : A -> bool) n l :
  forallb f l = true ->
  forallb f (firstn n l) = true /\ forallb f (skipn n l) = true.
Proof.
  intro H. rewrite <- (firstn_skipn n l), forallb_app in H.
  now apply andb_true_iff in H.
Qed.

Lemma forallb_remove_at {A : Type} (f : A -> bool) n l :
  forallb f l = true -> forallb f (remove_at n l) = true.
Proof.
  intro H. unfold remove_at. rewrite forallb_app.
  rewrite (proj1 (forallb_firstn_skipn f n l H)).
  rewrite (proj2 (forallb_firstn_skipn f (S n) l H)). reflexivity.
Qed.

Lemma forallb_insert_at {A : Type} (f : A -> bool) n x l :
  f x = true -> forallb f l = true -> forallb f (insert_at n x l) = true.
Proof.
  intros Hx H. unfold insert_at. rewrite forallb_app. simpl.
  rewrite (proj1 (forallb_firstn_skipn f n l H)), Hx.
  rewrite (proj2 (forallb_firstn_skipn f n l H)). reflexivity.
Qed.

(** Every preset the tab shows is importable. *)
Lemma reachable_tab_importable t :
  reachable_tab t -> forallb importable (preset_list t) = true.
Proof.
  induction 1 as [saved fs | a t R IH].
  - unfold _load_presets. cbv zeta.
    pose proof (load_loop_keeps_importable
                  match saved with Some (JList l) => l | _ => [] end
                  [] eq_refl) as H.
    destruct (load_loop _ _). exact H.
  - destruct a; simpl.
    + now apply add_preset_keeps_importable.
    + unfold _remove_selected_preset. destruct (0 <=? row)%Z; auto.
      now apply forallb_remove_at.
    + unfold _move_preset. destruct (row <? 0)%Z; auto. cbv zeta.
      destruct (_ || _); auto.
      destruct (nth_error _ _) as [item |] eqn:E; auto. simpl.
      apply forallb_insert_at; [| now apply forallb_remove_at].
      rewrite forallb_forall in IH. apply IH. eapply nth_error_In, E.
    + unfold _import_presets. destruct filename; auto.
      destruct (read_file _ _) as [[] |]; auto.
      pose proof (import_loop_keeps_importable l _ IH) as H.
      destruct (import_loop _ _). exact H.
    + unfold _export_presets. destruct filename; auto. cbv zeta.
      destruct ok; auto.
    + exact IH.
Qed.

(** C9. For every preset list the tab can show, exporting it and then
    importing the exported file adds the exported records, equal and
    in the same order, to the list; imported into an empty list, the
    result is the exported list. *)
Theorem export_then_import_round_trip : forall t filename e e' current,
  reachable_tab t ->
  filename <> "" ->
  let exported := _export_presets filename true e t in
  _import_presets filename e' (with_list current exported) =
    (with_list (current ++ preset_list t) exported, false) /\
  preset_list (fst (_import_presets filename e' (with_list [] exported))) =
    preset_list t.
Proof.
  intros t filename e e' current R N exported.
  pose proof (reachable_tab_importable t R) as H.
  assert (E : forall cur,
    _import_presets filename e' (with_list cur exported) =
    (with_list (cur ++ preset_list t) exported, false)).
  { intro cur. unfold exported, _export_presets, _import_presets.
    destruct filename as [| c f]; [now elim N |].
    simpl. rewrite String.eqb_refl, Ascii.eqb_refl.
    rewrite (filter_importable _ H), (import_loop_importable _ _ H).
    reflexivity. }
  split; [apply E |]. rewrite E. reflexivity.
Qed.

Lemma export_then_import_round_trip_witness :
  preset_list
    (fst (_import_presets "presets.json" ""
            (with_list [] (_export_presets "presets.json" true "" demo_tab))))
  = preset_list demo_tab.
Proof.
  destruct (export_then_import_round_trip demo_tab "presets.json" "" "" [])
    as [_ H].
  - repeat apply tab_acted. apply tab_loaded.
  - discriminate.
  - exact H.
Defined.

End PresetsRoundTrip.

(** * Further properties of the code *)

(** ** The log of a chunk *)


Lemma log_append_log_line line s :
  log_text (_append_log_line line s) =
  lastn max_log_lines (log_text s ++ [line]).
Proof. reflexivity. Qed.









(** ** Lines the scanner does not recognise *)






(** ** A BER reading that is no number *)

(** X3. When the text after "BER:" does not convert to a float, the
    [ValueError] is swallowed: the BER series and the plot stay as they
    were. *)
Theorem malformed_ber_is_ignored : forall s b line m,
  Re.search false re_ber (PyStr.strip line) = Some m ->
  PyFloat.of_str (group 1 m) = None ->
  ber (fst (scan_line (s, b) line)) = ber s.
Proof.
  intros s b line m M F. unfold scan_line.
  destruct (PyStr.strip line) as [| c l] eqn:S; [reflexivity |].
  cbn [fst snd].
  destruct (scan_metadata _ _) as [s1 b1] eqn:E.
  cbn [fst]. rewrite ber_scan_station.
  change s1 with (fst (s1, b1)). rewrite <- E, ber_scan_metadata.
  unfold scan_ber. rewrite M, F. reflexivity.
Qed.

Lemma malformed_ber_is_ignored_witness :
  ber (fst (scan_line (demo_running, false) "BER: 1e")) = ber demo_running.
Proof.
  apply (malformed_ber_is_ignored demo_running false "BER: 1e" ["1e"]).
  - vm_compute. reflexivity.
  - vm_compute. reflexivity.
Defined.

(** ** The history of what was played *)

(** X4. [_maybe_add_history_entry] records a title, artist and album
    once: called again with the labels unchanged it does nothing. *)
Theorem history_entry_is_added_once : forall s,
  _maybe_add_history_entry (_maybe_add_history_entry s) =
  _maybe_add_history_entry s.
Proof.
  intro s.
  remember (_maybe_add_history_entry s) as s1 eqn:E.
  unfold _maybe_add_history_entry in E.
  destruct (blank_or_dash (PyStr.strip (title_label (playing s))) &&
            blank_or_dash (PyStr.strip (artist_label (playing s))) &&
            blank_or_dash (PyStr.strip (album_label (playing s)))) eqn:B.
  - subst s1. unfold _maybe_add_history_entry. now rewrite B.
  - destruct (same_as_last _ _ && same_as_last _ _ && same_as_last _ _) eqn:D.
    + subst s1. unfold _maybe_add_history_entry. now rewrite B, D.
    + subst s1. unfold _maybe_add_history_entry. simpl.
      rewrite B. simpl. rewrite !String.eqb_refl. reflexivity.
Qed.

(** ** The telemetry stays in order *)

Lemma ltb_antisym a b : PyFloat.ltb a b = true -> PyFloat.ltb b a = false.
Proof.
  unfold PyFloat.ltb, SFltb.
  destruct a as [sa | sa | | sa ma ea], b as [sb | sb | | sb mb eb];
    simpl; try discriminate; try reflexivity;
    try (destruct sa; (discriminate || reflexivity));
    try (destruct sb; (discriminate || reflexivity));
    try (destruct sa, sb; (discriminate || reflexivity)).
  pose proof (Pos.compare_cont_antisym ma mb Eq) as A. simpl in A.
  destruct sa, sb; try discriminate; try reflexivity;
    rewrite (Z.compare_antisym ea eb);
    destruct (ea ?= eb)%Z; simpl; try discriminate; try reflexivity;
    rewrite <- A; destruct (Pos.compare_cont Eq ma mb); simpl;
    discriminate || reflexivity.
Qed.

Lemma max2_not_below v : PyFloat.ltb (PyFloat.max2 float_10 v) float_10 = false.
Proof.
  unfold PyFloat.max2. destruct (PyFloat.ltb float_10 v) eqn:C.
  - now apply ltb_antisym.
  - vm_compute. reflexivity.
Qed.

Lemma data_ok_same s s' : data s' = data s -> data_ok s -> data_ok s'.
Proof.
  unfold data. intros E D. injection E as E1 E2 E3.
  destruct D. constructor; rewrite ?E1, ?E2, ?E3; assumption.
Qed.

Lemma data_ok_append_log_line line s :
  data_ok s -> data_ok (_append_log_line line s).
Proof.
  intro D. destruct D. constructor; try assumption.
  rewrite log_append_log_line, lastn_length. lia.
Qed.

Lemma data_ok_update_ber_graph v s :
  data_ok s -> data_ok (_update_ber_graph v s).
Proof.
  intro D.
  assert (L : List.length (ber_history (ber (_update_ber_graph v s))) <=
              ber_max_points).
  { rewrite ber_history_update, lastn_length. lia. }
  revert L. unfold _update_ber_graph. cbv zeta.
  remember (if ber_max_points <? _ then _ else _) as h eqn:Eh.
  remember (PyFloat.max2 _ _) as u eqn:Eu.
  cbn [ber set_ber ber_history]. intro L.
  destruct D. constructor; cbn [ber set_ber log_text playing ber_history
    ber_curve ber_xrange ber_yrange fst snd]; try assumption.
  - reflexivity.
  - destruct (List.length h <? ber_max_points) eqn:C; [reflexivity |].
    apply Nat.ltb_ge in C.
    replace (List.length h) with ber_max_points by lia. reflexivity.
  - split; [reflexivity |]. subst u. apply max2_not_below.
Qed.

Lemma shown_artist_dash : shown_artist dash = dash.
Proof. vm_compute. reflexivity. Qed.

Lemma data_ok_set_title t s : data_ok s -> data_ok (set_title t s).
Proof. intro D. destruct D. constructor; auto. Qed.

Lemma data_ok_set_artist t s :
  data_ok s -> data_ok (set_artist t (shown_artist t) s).
Proof. intro D. destruct D. constructor; auto. Qed.

Lemma data_ok_set_album t s : data_ok s -> data_ok (set_album t s).
Proof. intro D. destruct D. constructor; auto. Qed.

Lemma lastn_S_snoc {A : Type} n (l : list A) x :
  lastn (S n) (l ++ [x]) = lastn n l ++ [x].
Proof.
  unfold lastn. rewrite length_app. simpl List.length.
  replace (List.length l + 1 - S n) with (List.length l - n) by lia.
  rewrite skipn_app.
  replace (List.length l - n - List.length l) with 0 by lia.
  reflexivity.
Qed.

Lemma last_row_snoc rows x : last_row (rows ++ [x]) = Some x.
Proof. unfold last_row. rewrite map_app. simpl. apply last_last. Qed.

Lemma last_row_cons a rows r :
  last_row rows = Some r -> last_row (a :: rows) = Some r.
Proof. destruct rows; [discriminate | auto]. Qed.

Lemma last_row_skipn rows : forall k r,
  last_row (skipn k rows) = Some r -> last_row rows = Some r.
Proof.
  induction rows as [| a rows IH]; intros k r H.
  - rewrite skipn_nil in H. discriminate.
  - destruct k; [exact H |]. rewrite skipn_cons in H.
    apply last_row_cons. now apply IH with k.
Qed.

Lemma no_repeat_skipn rows : forall k, no_repeat rows -> no_repeat (skipn k rows).
Proof.
  induction rows as [| a rows IH]; intros k H.
  - now rewrite skipn_nil.
  - destruct k; [exact H |]. rewrite skipn_cons. apply IH. apply H.
Qed.

Lemma no_repeat_snoc rows x :
  no_repeat rows ->
  (forall r, last_row rows = Some r -> row_meta r <> row_meta x) ->
  no_repeat (rows ++ [x]).
Proof.
  induction rows as [| r1 rest IH]; intros H L.
  - simpl. auto.
  - destruct rest as [| r2 rest'].
    + simpl. split; [| auto]. apply L. reflexivity.
    + destruct H as [H1 H2].
      change ((r1 :: r2 :: rest') ++ [x])
        with (r1 :: ((r2 :: rest') ++ [x])).
      split; [exact H1 |]. apply IH; [exact H2 |].
      intros r E. apply L. now apply last_row_cons.
Qed.

Lemma same_as_last_true t l : same_as_last t l = true -> l = Some t.
Proof.
  destruct l; simpl; [| discriminate]. intro H.
  apply String.eqb_eq in H. now subst.
Qed.

Lemma data_ok_maybe_add_history_entry s :
  data_ok s -> data_ok (_maybe_add_history_entry s).
Proof.
  intro D. unfold _maybe_add_history_entry.
  destruct (_ && _ && _); [exact D |].
  destruct (same_as_last _ _ && same_as_last _ _ && same_as_last _ _) eqn:Same;
    [exact D |].
  cbn [ask fst snd].
  match goal with
  | |- context [skipn (List.length ?l - max_history_rows) ?l] =>
      change (skipn (List.length l - max_history_rows) l)
        with (lastn (S 499) l)
  end.
  rewrite lastn_S_snoc.
  destruct D. constructor; cbn [log_text playing ber set_playing set_world
    history_table display_title_label title_label display_artist_label
    artist_label]; try assumption.
  - rewrite length_app, lastn_length. simpl. unfold max_history_rows. lia.
  - rewrite last_row_snoc. reflexivity.
  - apply no_repeat_snoc; [now apply no_repeat_skipn |].
    intros r E. apply last_row_skipn in E.
    rewrite E in d_last0. simpl in d_last0. intro M.
    rewrite M in d_last0. unfold last_recorded in d_last0.
    destruct (last_title (playing s)) as [lt |]; [| discriminate].
    destruct (last_artist (playing s)) as [la |]; [| discriminate].
    destruct (last_album (playing s)) as [lal |]; [| discriminate].
    injection d_last0 as <- <- <-.
    simpl in Same. rewrite !String.eqb_refl in Same. discriminate.
Qed.

Lemma data_ok_reset_labels s : data_ok s -> data_ok (_reset_labels s).
Proof.
  intro D. destruct D.
  constructor; simpl; auto using Nat.le_0_l.
Qed.

Lemma data_ok_clear_log s : data_ok s -> data_ok (set_log_text [] s).
Proof.
  intro D. destruct D. constructor; auto. simpl. apply Nat.le_0_l.
Qed.

Lemma data_ok_on_process_error name e s :
  data_ok s -> data_ok (_on_process_error name e s).
Proof.
  intro D. unfold _on_process_error.
  destruct (_ && _); [now apply data_ok_append_log_line |].
  destruct (String.eqb name "nrsc5").
  - eapply data_ok_same; [| apply data_ok_append_log_line, D]. reflexivity.
  - now apply data_ok_append_log_line.
Qed.

Lemma data_ok_on_process_finished name c st s :
  data_ok s -> data_ok (_on_process_finished name c st s).
Proof.
  intro D. unfold _on_process_finished.
  destruct (stopping_radio (flags s)), st; now apply data_ok_append_log_line.
Qed.

Lemma data_distribute s : data (_distribute_audio_data s) = data s.
Proof.
  unfold _distribute_audio_data.
  destruct (proc_nrsc5 (handles s)) as [n |]; [| reflexivity].
  destruct (stdout_buf n); [reflexivity |].
  simpl.
  destruct (proc_play (handles s)) as [p |];
    [destruct (is_running (state p)) |];
    simpl;
    (destruct (proc_rec (handles s)) as [r |];
     [destruct (recording (flags s) && is_running (state r)) |]);
    reflexivity.
Qed.

Lemma data_ok_scan_ber line s : data_ok s -> data_ok (scan_ber line s).
Proof.
  intro D. unfold scan_ber. destruct (Re.search _ _ _); auto.
  destruct (PyFloat.of_str _); auto. now apply data_ok_update_ber_graph.
Qed.

Lemma data_ok_scan_metadata line s b :
  data_ok s -> data_ok (fst (scan_metadata line (s, b))).
Proof.
  intro D. unfold scan_metadata.
  destruct (Re.search true re_title line);
    destruct (Re.search true re_artist line);
    destruct (Re.search true re_album line); cbn [fst];
    repeat first [ exact D | apply data_ok_set_album
                 | apply (data_ok_set_artist _ _) | apply data_ok_set_title ].
Qed.

Lemma data_ok_scan_station line s : data_ok s -> data_ok (scan_station line s).
Proof.
  intro D. unfold scan_station. destruct (Re.search _ _ _); auto.
  repeat (destruct (PyFloat.of_str _); auto).
  revert D. apply data_ok_same. reflexivity.
Qed.

Lemma data_ok_scan_line s b line :
  data_ok s -> data_ok (fst (scan_line (s, b) line)).
Proof.
  intro D. unfold scan_line. destruct (PyStr.strip line); [exact D |].
  cbn [fst snd].
  destruct (scan_metadata _ _) as [s1 b1] eqn:E. cbn [fst].
  apply data_ok_scan_station.
  change s1 with (fst (s1, b1)). rewrite <- E.
  now apply data_ok_scan_metadata, data_ok_scan_ber, data_ok_append_log_line.
Qed.

Lemma data_ok_scan_lines lines : forall s b,
  data_ok s -> data_ok (fst (fold_left scan_line lines (s, b))).
Proof.
  induction lines as [| line lines IH]; intros s b D; [exact D |].
  cbn [fold_left]. destruct (scan_line (s, b) line) as [s1 b1] eqn:E.
  apply IH. change s1 with (fst (s1, b1)). rewrite <- E.
  now apply data_ok_scan_line.
Qed.

Lemma data_ok_parse_metadata_output s :
  data_ok s -> data_ok (_parse_metadata_output s).
Proof.
  intro D. unfold _parse_metadata_output.
  destruct (proc_nrsc5 (handles s)) as [n |]; [| exact D].
  destruct (fold_left _ _ _) as [s1 b1] eqn:E.
  assert (D1 : data_ok s1).
  { change s1 with (fst (s1, b1)). rewrite <- E. apply data_ok_scan_lines.
    revert D. apply data_ok_same. reflexivity. }
  destruct b1; [now apply data_ok_maybe_add_history_entry | exact D1].
Qed.

Lemma data_set_proc r q s : data (set_proc r q s) = data s.
Proof. destruct r; reflexivity. Qed.

Lemma data_update_object r p sig s : data (update_object r p sig s) = data s.
Proof.
  unfold update_object. destruct (proc_of r s); [| reflexivity].
  destruct (_ =? _); [apply data_set_proc | reflexivity].
Qed.

Lemma data_set_state_of r p st s : data (set_state_of r p st s) = data s.
Proof.
  unfold set_state_of. destruct (proc_of r s); [| reflexivity].
  destruct (_ =? _); [apply data_set_proc | reflexivity].
Qed.

Lemma data_set_world w s : data (set_world w s) = data s.
Proof. reflexivity. Qed.

Lemma keeps_no_handler P : keeps P no_handler.
Proof. intros x y _ H. discriminate H. Qed.

Lemma data_ok_slots h r sig : keeps data_ok h -> keeps data_ok (slots h r sig).
Proof.
  intros K x y D E. destruct r, sig; simpl in E;
    try (apply some_inj in E; subst y);
    auto using data_ok_on_process_error, data_ok_on_process_finished,
               data_ok_parse_metadata_output.
  - revert D. apply data_ok_same, data_distribute.
  - unfold _on_nrsc5_finished in E.
    destruct (_ && _).
    + apply K in E; auto. now apply data_ok_on_process_finished.
    + apply some_inj in E. subst y. now apply data_ok_on_process_finished.
Qed.

Lemma data_ok_deliver h r p sig :
  keeps data_ok h -> keeps data_ok (deliver h r p sig).
Proof.
  intros K x y D E. unfold deliver in E.
  apply (data_ok_slots h r sig K) in E; auto.
  revert D. apply data_ok_same, data_update_object.
Qed.

Lemma data_ok_deliver_all h r p l :
  keeps data_ok h -> keeps data_ok (deliver_all h r p l).
Proof.
  intro K. induction l as [| sig l IH]; intros x y D E; simpl in E.
  - apply some_inj in E. now subst.
  - destruct (deliver h r p sig x) as [x1 |] eqn:E1; [| discriminate].
    apply IH with x1; auto. now apply (data_ok_deliver h r p sig K x).
Qed.

Lemma data_ok_wait h r p s b s' :
  keeps data_ok h -> data_ok s ->
  waitForFinished h r p s = Some (b, s') -> data_ok s'.
Proof.
  intros K D E. unfold waitForFinished in E. cbn [ask] in E.
  match type of E with
  | context [deliver_all h r p ?l ?x] =>
      destruct (deliver_all h r p l x) as [s1 |] eqn:E1; [| discriminate];
      assert (D1 : data_ok s1)
        by (apply (data_ok_deliver_all h r p l K x); auto;
            revert D; apply data_ok_same; reflexivity)
  end.
  destruct (exited _) as [[code st] |].
  - destruct (deliver h r p _ s1) as [s2 |] eqn:E2; [| discriminate].
    apply some_inj in E. injection E as _ <-.
    exact (data_ok_deliver h r p _ K s1 _ D1 E2).
  - apply some_inj in E. injection E as _ <-. exact D1.
Qed.

Lemma data_ok_start_and_wait h r p program args s b s' :
  keeps data_ok h -> data_ok s ->
  start_and_wait h r p program args s = Some (b, s') -> data_ok s'.
Proof.
  intros K D E. unfold start_and_wait in E. cbn [ask] in E.
  destruct (qt_start _ _) as [| errors still].
  - apply some_inj in E. injection E as _ <-.
    revert D. apply data_ok_same.
    now rewrite data_set_state_of, data_set_world, data_set_state_of.
  - match type of E with
    | context [deliver_all h r p ?l ?x] =>
        destruct (deliver_all h r p l x) as [s1 |] eqn:E1; [| discriminate];
        assert (D1 : data_ok s1)
          by (apply (data_ok_deliver_all h r p l K x); auto;
              revert D; apply data_ok_same;
              now rewrite data_set_world, data_set_state_of)
    end.
    apply some_inj in E. injection E as _ <-.
    revert D1. apply data_ok_same, data_set_state_of.
Qed.

Ltac same_data :=
  match goal with
  | H : data_ok ?x |- data_ok _ => revert H; apply data_ok_same; reflexivity
  end.

Ltac done_here E :=
  apply some_inj in E; subst; try assumption.

Lemma data_ok_kill_process h r :
  keeps data_ok h -> keeps data_ok (_kill_process h r).
Proof.
  intros K x y D E. unfold _kill_process in E.
  destruct (proc_of r x) as [q |]; [| now done_here E].
  destruct (negb _); [| now done_here E].
  destruct (waitForFinished _ _ _ _) as [[fin x1] |] eqn:W; [| discriminate].
  assert (D1 : data_ok x1).
  { apply (data_ok_wait h r _ _ _ _ K) in W; auto. same_data. }
  destruct fin; done_here E. same_data.
Qed.

Lemma data_ok_close_recorder : keeps data_ok close_recorder.
Proof.
  intros x y D E. unfold close_recorder in E.
  destruct (proc_rec (handles x)) as [r |]; [| now done_here E].
  destruct (is_running (state r)); [| now done_here E].
  destruct (waitForFinished _ _ _ _) as [[fin x1] |] eqn:W; [| discriminate].
  assert (D1 : data_ok x1).
  { apply (data_ok_wait _ _ _ _ _ _ (keeps_no_handler _)) in W; auto.
    same_data. }
  destruct (proc_rec (handles x1)) as [r' |];
    [destruct (is_running (state r')) |]; done_here E. same_data.
Qed.

Lemma data_report_saved s : data (report_saved s) = data s.
Proof.
  unfold report_saved.
  destruct (current_record_file _) as [[| c f] |]; try reflexivity.
  cbn [ask]. destruct (path_exists _ _); reflexivity.
Qed.

Lemma data_ok_stop_recording : keeps data_ok stop_recording.
Proof.
  intros x y D E. unfold stop_recording in E.
  destruct (negb _); [now done_here E |].
  destruct (close_recorder x) as [x1 |] eqn:C; [| discriminate].
  apply data_ok_close_recorder in C; auto.
  done_here E. revert C. apply data_ok_same.
  etransitivity; [apply (data_set_proc Ffmpeg) |].
  now rewrite data_report_saved.
Qed.

Lemma data_ok_start_recording : keeps data_ok start_recording.
Proof.
  intros x y D E. unfold start_recording in E.
  destruct (negb _); [now done_here E |].
  cbn [ask new_process] in E.
  destruct (start_and_wait _ _ _ _ _ _) as [[started x1] |] eqn:W;
    [| discriminate].
  apply data_ok_start_and_wait in W;
    [| apply keeps_no_handler | same_data].
  destruct started; done_here E; same_data.
Qed.

Lemma data_ok_toggle_recording : keeps data_ok toggle_recording.
Proof.
  intros x y D E. unfold toggle_recording in E.
  destruct (recording (flags x));
    [eapply data_ok_stop_recording | eapply data_ok_start_recording]; eauto.
Qed.

Lemma data_validate_start_inputs s :
  data (snd (_validate_start_inputs s)) = data s.
Proof.
  unfold _validate_start_inputs, warn_input. cbv zeta.
  repeat match goal with
         | |- context [match ?x with _ => _ end] => destruct x
         end; reflexivity.
Qed.

Lemma data_update_ui_state b s : data (_update_ui_state b s) = data s.
Proof.
  unfold _update_ui_state. destruct b; [| reflexivity].
  cbv zeta. destruct (negb _); reflexivity.
Qed.

Lemma data_ok_stop_stream_body h :
  keeps data_ok h -> keeps data_ok (stop_stream_body h).
Proof.
  intros K x y D E. unfold stop_stream_body in E.
  destruct (stop_recording x) as [x1 |] eqn:E1; [| discriminate].
  apply data_ok_stop_recording in E1; auto.
  destruct (_kill_process h Nrsc5 x1) as [x2 |] eqn:E2; [| discriminate].
  apply (data_ok_kill_process h Nrsc5 K) in E2; auto.
  destruct (_kill_process h Ffplay x2) as [x3 |] eqn:E3; [| discriminate].
  apply (data_ok_kill_process h Ffplay K) in E3; auto.
  done_here E. revert E3. apply data_ok_same.
  now rewrite data_update_ui_state.
Qed.

Lemma data_ok_stop_stream fuel : keeps data_ok (stop_stream fuel).
Proof.
  induction fuel as [| fuel IH]; [apply keeps_no_handler |].
  now apply data_ok_stop_stream_body.
Qed.

Lemma data_ok_start_stream fuel : keeps data_ok (start_stream fuel).
Proof.
  intros x y D E. unfold start_stream in E.
  destruct (radio_running (flags x)); [now done_here E |].
  pose proof (data_validate_start_inputs x) as V.
  destruct (_validate_start_inputs x) as [valid x0]. simpl snd in V.
  assert (D0 : data_ok x0) by (revert D; now apply data_ok_same).
  destruct valid; simpl negb in E; cbv iota in E; [| now done_here E].
  cbn [new_process] in E.
  destruct (start_and_wait _ Ffplay _ _ _ _) as [[started x1] |] eqn:W1;
    [| discriminate].
  apply data_ok_start_and_wait in W1;
    [| apply data_ok_stop_stream | same_data].
  destruct started; simpl negb in E; cbv iota in E.
  - destruct (start_and_wait _ Nrsc5 _ _ _ _) as [[started x2] |] eqn:W2;
      [| discriminate].
    apply data_ok_start_and_wait in W2;
      [| apply data_ok_stop_stream | same_data].
    destruct started.
    + done_here E. apply data_ok_reset_labels.
      revert W2. apply data_ok_same. now rewrite data_update_ui_state.
    + apply data_ok_stop_stream in E; auto. same_data.
  - destruct (_kill_process _ Ffplay _) as [x2 |] eqn:E2; [| discriminate].
    apply (data_ok_kill_process _ _ (data_ok_stop_stream fuel)) in E2;
      [| same_data].
    done_here E. same_data.
Qed.

Lemma data_ok_toggle_radio fuel : keeps data_ok (toggle_radio fuel).
Proof.
  intros x y D E. unfold toggle_radio in E.
  destruct (negb _); [now done_here E |].
  cbv zeta in E.
  match type of E with context [if ?c then _ else _] => destruct c end.
  - destruct (stop_stream fuel _) as [x1 |] eqn:E1; [| discriminate].
    apply data_ok_stop_stream in E1; [| same_data].
    done_here E. same_data.
  - destruct (start_stream fuel _) as [x1 |] eqn:E1; [| discriminate].
    apply data_ok_start_stream in E1; [| same_data].
    done_here E. same_data.
Qed.

Lemma data_select_program prog s :
  data (_select_program_by_number prog s) = data s.
Proof.
  unfold _select_program_by_number. destruct (find_program _ _ _); reflexivity.
Qed.

Lemma data_ok_tune_preset_item fuel meta :
  keeps data_ok (_tune_preset_item fuel meta).
Proof.
  intros x y D E. unfold _tune_preset_item in E.
  destruct meta as [| kv meta]; [now done_here E |].
  cbv zeta in E.
  match type of E with
  | context [_select_program_by_number ?p ?z] =>
      assert (D1 : data_ok (_select_program_by_number p z))
        by (revert D; apply data_ok_same; rewrite data_select_program;
            destruct (dict_get _ "freq" _); reflexivity);
      generalize dependent (_select_program_by_number p z)
  end.
  intros x1 E D1.
  destruct (radio_running (flags x1)); [| now done_here E].
  destruct (stop_stream fuel _) as [x2 |] eqn:E2; [| discriminate].
  apply data_ok_stop_stream in E2; [| same_data].
  apply data_ok_start_stream in E; auto. same_data.
Qed.

Lemma data_ok_step fuel e : keeps data_ok (step fuel e).
Proof.
  intros x y D E. destruct e; simpl in E.
  - destruct (radio_btn_enabled _);
      [eapply data_ok_toggle_radio; eauto | now done_here E].
  - destruct (record_btn_enabled _);
      [eapply data_ok_toggle_recording; eauto | now done_here E].
  - done_here E. now apply data_ok_clear_log.
  - eapply data_ok_tune_preset_item; eauto.
  - unfold closeEvent in E. apply data_ok_stop_stream in E; auto. same_data.
  - done_here E. destruct (inputs_enabled _); [same_data | assumption].
  - done_here E. destruct (inputs_enabled _); [same_data | assumption].
  - done_here E. destruct (inputs_enabled _); [same_data | assumption].
  - done_here E. destruct (inputs_enabled _); [same_data | assumption].
  - eapply data_ok_deliver; [apply data_ok_stop_stream | |]; eauto.
  - done_here E. destruct (proc_of r x); [| assumption].
    destruct (_ && _); [| assumption].
    revert D. apply data_ok_same, data_set_proc.
Qed.

Lemma data_ok_init i b e : data_ok (init i b e).
Proof.
  constructor; simpl; auto using Nat.le_0_l.
Qed.

Lemma data_ok_reachable s : reachable s -> data_ok s.
Proof.
  induction 1 as [i b e | fuel ev s s' _ IH E].
  - apply data_ok_init.
  - exact (data_ok_step fuel ev s s' IH E).
Qed.

(** X5. The log never holds more than 10000 lines, the history never
    more than 500 rows and the BER series never more than 300 samples,
    whatever happened to the window. *)
Theorem buffers_stay_bounded : forall s,
  reachable s ->
  List.length (log_text s) <= max_log_lines /\
  List.length (history_table (playing s)) <= max_history_rows /\
  List.length (ber_history (ber s)) <= ber_max_points.
Proof.
  intros s R. destruct (data_ok_reachable s R). auto.
Qed.

Lemma buffers_stay_bounded_witness :
  List.length (log_text demo_recording) <= max_log_lines /\
  List.length (history_table (playing demo_recording)) <= max_history_rows /\
  List.length (ber_history (ber demo_recording)) <= ber_max_points.
Proof.
  apply (buffers_stay_bounded demo_recording).
  apply demo_recording_reachable.
Defined.

(** X6. The BER plot always shows the same window: x from 0 to 299 (the
    series is trimmed before the range is chosen, so the range never
    scrolls), y from 0 to a bound that is never below 10, and the curve
    is the series drawn against 0, 1, 2, ... *)
Theorem ber_plot_window_is_fixed : forall s,
  reachable s ->
  ber_xrange (ber s) = (0, 299)%Z /\
  fst (ber_yrange (ber s)) = PyFloat.zero /\
  PyFloat.ltb (snd (ber_yrange (ber s))) float_10 = false /\
  ber_curve (ber s) =
    (range (List.length (ber_history (ber s))), ber_history (ber s)).
Proof.
  intros s R. destruct (data_ok_reachable s R). tauto.
Qed.

Lemma ber_plot_window_is_fixed_witness :
  ber_xrange (ber demo_recording) = (0, 299)%Z /\
  fst (ber_yrange (ber demo_recording)) = PyFloat.zero /\
  PyFloat.ltb (snd (ber_yrange (ber demo_recording))) float_10 = false /\
  ber_curve (ber demo_recording) =
    (range (List.length (ber_history (ber demo_recording))),
     ber_history (ber demo_recording)).
Proof.
  apply (ber_plot_window_is_fixed demo_recording).
  apply demo_recording_reachable.
Defined.

(** X7. The Display tab mirrors the Info tab: its title is the title
    label's text, and its artist is the artist label's text unless that
    contains "bieber" in any letter case, when the placeholder is shown;
    the artist label itself always keeps the real text. *)
Theorem display_tab_mirrors_labels : forall s,
  reachable s ->
  display_title_label (playing s) = title_label (playing s) /\
  display_artist_label (playing s) =
    if PyStr.contains "bieber" (PyStr.lower (artist_label (playing s)))
    then "[artist choice not endorsed]" else artist_label (playing s).
Proof.
  intros s R. destruct (data_ok_reachable s R). split; assumption.
Qed.

Lemma display_tab_mirrors_labels_witness :
  display_title_label (playing demo_recording) =
    title_label (playing demo_recording) /\
  display_artist_label (playing demo_recording) =
    if PyStr.contains "bieber"
         (PyStr.lower (artist_label (playing demo_recording)))
    then "[artist choice not endorsed]"
    else artist_label (playing demo_recording).
Proof.
  apply (display_tab_mirrors_labels demo_recording).
  apply demo_recording_reachable.
Defined.

(** X8. The history never shows the same title, artist and album in two
    neighbouring rows, and its last row is the key remembered in
    last_title, last_artist and last_album. *)
Theorem history_has_no_repeated_rows : forall s,
  reachable s ->
  no_repeat (history_table (playing s)) /\
  option_map row_meta (last_row (history_table (playing s))) =
    last_recorded (playing s).
Proof.
  intros s R. destruct (data_ok_reachable s R). split; assumption.
Qed.

Lemma history_has_no_repeated_rows_witness :
  no_repeat (history_table (playing demo_recording)) /\
  option_map row_meta (last_row (history_table (playing demo_recording))) =
    last_recorded (playing demo_recording).
Proof.
  apply (history_has_no_repeated_rows demo_recording).
  apply demo_recording_reachable.
Defined.

(** ** The controls follow the flags *)

Lemma held_pid_of r s :
  held r s = match pid_of r s with Some _ => true | None => false end.
Proof. unfold held, pid_of. now destruct (proc_of r s). Qed.

Lemma held_same_pid r s s' : pid_of r s' = pid_of r s -> held r s' = held r s.
Proof. intro H. now rewrite !held_pid_of, H. Qed.

Lemma run_tidy_same s s' :
  flags s' = flags s -> controls s' = controls s ->
  held Nrsc5 s' = held Nrsc5 s -> held Ffplay s' = held Ffplay s ->
  run_tidy s -> run_tidy s'.
Proof.
  intros F C N Y T. destruct T.
  constructor; rewrite ?F, ?C, ?N, ?Y; assumption.
Qed.

Lemma rec_tidy_same s s' :
  flags s' = flags s -> controls s' = controls s -> rclock s' = rclock s ->
  (recording (flags s) = true -> held Ffmpeg s = true -> held Ffmpeg s' = true) ->
  rec_tidy s -> rec_tidy s'.
Proof.
  intros F C K M T. destruct T.
  constructor; rewrite ?F, ?C, ?K; auto.
Qed.

Lemma run_tidy_leaf s s' : leaf s s' -> run_tidy s -> run_tidy s'.
Proof.
  intro L. destruct L.
  apply run_tidy_same; auto using held_same_pid.
Qed.

Lemma rec_tidy_leaf s s' : leaf s s' -> rec_tidy s -> rec_tidy s'.
Proof.
  intro L. destruct L.
  apply rec_tidy_same; auto. intros _ H.
  now rewrite (held_same_pid Ffmpeg s s' (leaf_pids0 Ffmpeg)).
Qed.

Lemma tidy_leaf s s' : leaf s s' -> tidy s -> tidy s'.
Proof.
  intros L [A B]. split; [eapply run_tidy_leaf | eapply rec_tidy_leaf]; eauto.
Qed.

(** What is kept by every slot but the finished slot of nrsc5 is kept
    by waiting for a process and by killing it, if the handler that the
    finished slot calls keeps it. *)
Section LeafKept.

Variable P : gui -> Prop.
Hypothesis P_leaf : forall s s', leaf s s' -> P s -> P s'.

Lemma kept_slots h r sig : keeps P h -> keeps P (slots h r sig).
Proof.
  intros K x y Px E. destruct (calls_stop r sig) eqn:C.
  - destruct r, sig as [e | d | t | code st]; try discriminate C.
    simpl in E. unfold _on_nrsc5_finished in E.
    assert (P1 : P (_on_process_finished "nrsc5" code st x))
      by (eapply P_leaf; [apply leaf_on_process_finished | exact Px]).
    destruct (_ && _); [now apply K in E | now done_here E].
  - destruct (slots_leaf h r sig x C) as [s' [E' L]].
    rewrite E' in E. done_here E. eauto.
Qed.

Lemma kept_deliver h r p sig : keeps P h -> keeps P (deliver h r p sig).
Proof.
  intros K x y Px E. unfold deliver in E.
  apply (kept_slots h r sig K) in E; auto.
  eapply P_leaf; [apply leaf_update_object | exact Px].
Qed.

Lemma kept_deliver_all h r p l : keeps P h -> keeps P (deliver_all h r p l).
Proof.
  intro K. induction l as [| sig l IH]; intros x y Px E; simpl in E.
  - now done_here E.
  - destruct (deliver h r p sig x) as [x1 |] eqn:E1; [| discriminate].
    apply IH with x1; auto. exact (kept_deliver h r p sig K x x1 Px E1).
Qed.

Lemma kept_wait h r p s b s' :
  keeps P h -> P s -> waitForFinished h r p s = Some (b, s') -> P s'.
Proof.
  intros K Ps E. unfold waitForFinished in E.
  pose proof (leaf_ask qt_wait s) as L.
  destruct (ask qt_wait s) as [w s0]. simpl snd in L.
  destruct (deliver_all h r p _ s0) as [s1 |] eqn:E1; [| discriminate].
  assert (P1 : P s1)
    by (exact (kept_deliver_all h r p _ K s0 s1 (P_leaf _ _ L Ps) E1)).
  destruct (exited w) as [[code st] |].
  - destruct (deliver h r p _ s1) as [s2 |] eqn:E2; [| discriminate].
    apply some_inj in E. injection E as _ <-.
    exact (kept_deliver h r p _ K s1 _ P1 E2).
  - apply some_inj in E. injection E as _ <-. exact P1.
Qed.

Lemma kept_kill_process h r : keeps P h -> keeps P (_kill_process h r).
Proof.
  intros K x y Px E. unfold _kill_process in E.
  destruct (proc_of r x) as [q |]; [| now done_here E].
  destruct (negb _); [| now done_here E].
  destruct (waitForFinished _ _ _ _) as [[fin x1] |] eqn:W; [| discriminate].
  assert (P1 : P x1).
  { apply (kept_wait h r _ _ _ _ K) in W; auto.
    eapply P_leaf; [apply leaf_emit | exact Px]. exact I. }
  destruct fin; done_here E.
  eapply P_leaf; [apply leaf_emit | exact P1]. exact I.
Qed.

End LeafKept.

Lemma steady_refl s : steady s s.
Proof. now constructor. Qed.

Lemma steady_trans s1 s2 s3 : steady s1 s2 -> steady s2 s3 -> steady s1 s3.
Proof.
  intros [A1 A2 A3 A4] [B1 B2 B3 B4].
  constructor; congruence.
Qed.

Lemma leaf_steady s s' : leaf s s' -> steady s s'.
Proof.
  intros [F Pd K C _ _ _ _ _]. constructor; auto. now apply held_same_pid.
Qed.

Lemma rec_tidy_steady s s' : steady s s' -> rec_tidy s -> rec_tidy s'.
Proof.
  intros [F C K H] T. destruct T.
  constructor; rewrite ?F, ?C, ?K, ?H; auto.
Qed.

Lemma rec_tidy_frame s s' :
  recording (flags s') = recording (flags s) ->
  record_btn_text (controls s') = record_btn_text (controls s) ->
  record_btn_style (controls s') = record_btn_style (controls s) ->
  rclock s' = rclock s -> held Ffmpeg s' = held Ffmpeg s ->
  rec_tidy s -> rec_tidy s'.
Proof.
  intros F X Y K H T. destruct T.
  constructor; rewrite ?F, ?X, ?Y, ?K, ?H; auto.
Qed.

Lemma rec_tidy_off s :
  recording (flags s) = false ->
  record_timer_active (rclock s) = false ->
  record_start_time (rclock s) = None ->
  record_btn_text (controls s) = "Start Recording" ->
  record_btn_style (controls s) = "" ->
  rec_tidy s.
Proof.
  intros R T S X Y. constructor; rewrite ?R, ?S; auto. discriminate.
Qed.

Lemma rec_tidy_is_off s :
  rec_tidy s -> recording (flags s) = false ->
  record_timer_active (rclock s) = false /\
  record_start_time (rclock s) = None /\
  record_btn_text (controls s) = "Start Recording" /\
  record_btn_style (controls s) = "".
Proof.
  intros [T S X Y _] R. rewrite R in *.
  repeat split; auto.
  destruct (record_start_time (rclock s)); [discriminate | reflexivity].
Qed.

(** The window after [stop_recording] has stopped a recording. *)
Lemma stop_recording_shape s s' :
  stop_recording s = Some s' -> recording (flags s) = true ->
  flags s' = flags_stopped (flags s) /\
  controls s' =
    {| radio_btn_text := radio_btn_text (controls s);
       radio_btn_enabled := radio_btn_enabled (controls s);
       record_btn_text := "Start Recording"; record_btn_style := "";
       record_btn_enabled := record_btn_enabled (controls s);
       inputs_enabled := inputs_enabled (controls s) |} /\
  record_timer_active (rclock s') = false /\
  record_start_time (rclock s') = None /\
  others_kept Ffmpeg s s'.
Proof.
  intros E R.
  destruct (stop_recording_spec s) as [s2 [E2 [_ [Fl [O _]]]]].
  rewrite E in E2. apply some_inj in E2. subst s2.
  split; [exact Fl |]. split; [| split; [| split; [| exact O]]];
    clear Fl O; unfold stop_recording in E; rewrite R in E; simpl negb in E;
    cbv iota in E;
    destruct (close_recorder_spec s) as [x1 [C [L _]]]; rewrite C in E;
    apply some_inj in E; subst s';
    match goal with
    | |- context [report_saved ?X] =>
        pose proof (leaf_report_saved X) as LR;
        generalize dependent (report_saved X)
    end; intros Y LR; destruct LR as [_ _ K1 C1 _ _ _ _ _];
    destruct L as [_ _ K0 C0 _ _ _ _ _].
  - change (controls (set_proc_rec None Y)) with (controls Y).
    rewrite C1. simpl. now rewrite C0.
  - change (rclock (set_proc_rec None Y)) with (rclock Y).
    now rewrite K1.
  - change (rclock (set_proc_rec None Y)) with (rclock Y).
    now rewrite K1.
Qed.

Lemma held_others_kept r r' s s' :
  others_kept r s s' -> r' <> r -> held r' s' = held r' s.
Proof. intros O N. unfold held. now rewrite (O r' N). Qed.

Lemma rec_tidy_stop_recording : keeps rec_tidy stop_recording.
Proof.
  intros x y T E. destruct (recording (flags x)) eqn:R.
  - destruct (stop_recording_shape x y E R) as [F [C [A [B _]]]].
    apply rec_tidy_off; rewrite ?F, ?C; auto.
  - unfold stop_recording in E. rewrite R in E. now done_here E.
Qed.

Lemma run_tidy_stop_recording : keeps run_tidy stop_recording.
Proof.
  intros x y T E. destruct (recording (flags x)) eqn:R.
  - destruct (stop_recording_shape x y E R) as [F [C [_ [_ O]]]].
    destruct T. constructor; rewrite ?F, ?C; simpl; auto; try discriminate.
    + rewrite (held_others_kept Ffmpeg Nrsc5 x y O); [auto | discriminate].
    + rewrite (held_others_kept Ffmpeg Ffplay x y O); [auto | discriminate].
  - unfold stop_recording in E. rewrite R in E. now done_here E.
Qed.

Lemma rec_tidy_stop_stream_body h :
  keeps rec_tidy h -> keeps rec_tidy (stop_stream_body h).
Proof.
  intros K x y T E. unfold stop_stream_body in E.
  destruct (stop_recording x) as [x1 |] eqn:E1; [| discriminate].
  apply rec_tidy_stop_recording in E1; auto.
  destruct (_kill_process h Nrsc5 x1) as [x2 |] eqn:E2; [| discriminate].
  apply (kept_kill_process rec_tidy rec_tidy_leaf h Nrsc5 K) in E2; auto.
  destruct (_kill_process h Ffplay x2) as [x3 |] eqn:E3; [| discriminate].
  apply (kept_kill_process rec_tidy rec_tidy_leaf h Ffplay K) in E3; auto.
  done_here E. revert E3. now apply rec_tidy_frame.
Qed.

Lemma rec_tidy_stop_stream fuel : keeps rec_tidy (stop_stream fuel).
Proof.
  induction fuel as [| fuel IH]; [apply keeps_no_handler |].
  now apply rec_tidy_stop_stream_body.
Qed.

Lemma stop_stream_inputs_enabled fuel s s' :
  stop_stream fuel s = Some s' -> inputs_enabled (controls s') = true.
Proof.
  destruct fuel as [| fuel]; [discriminate |]. simpl.
  unfold stop_stream_body.
  destruct (stop_recording s) as [x1 |]; [| discriminate].
  destruct (_kill_process _ Nrsc5 x1) as [x2 |]; [| discriminate].
  destruct (_kill_process _ Ffplay x2) as [x3 |]; [| discriminate].
  intro E. apply some_inj in E. subst s'. reflexivity.
Qed.

Lemma run_tidy_stop_stream fuel s s' :
  stop_stream fuel s = Some s' -> run_tidy s'.
Proof.
  intro E. pose proof (stop_stream_inputs_enabled _ _ _ E) as I.
  destruct (stop_stream_idle _ _ _ E) as [F [N [Y [_ [B R]]]]].
  constructor; unfold held; simpl; rewrite ?F, ?N, ?Y; simpl; auto.
Qed.

Lemma tidy_stop_stream fuel : keeps tidy (stop_stream fuel).
Proof.
  intros x y [_ T] E. split.
  - now apply run_tidy_stop_stream with fuel x.
  - now apply (rec_tidy_stop_stream fuel x).
Qed.

Lemma consumer_kill_leaf h r s s' :
  r <> Nrsc5 -> _kill_process h r s = Some s' -> leaf s s'.
Proof.
  intros N E. unfold _kill_process in E.
  destruct (proc_of r s) as [q |]; [| done_here E; apply leaf_refl].
  destruct (negb _); [| done_here E; apply leaf_refl].
  destruct (waitForFinished _ _ _ _) as [[fin x1] |] eqn:W; [| discriminate].
  apply (consumer_wait_leaf h r _ _ _ _ N) in W.
  assert (L : leaf s x1).
  { eapply leaf_trans; [| exact W]. apply leaf_emit. exact I. }
  destruct fin; done_here E.
  eapply leaf_trans; [exact L |]. apply leaf_emit. exact I.
Qed.

Lemma update_ui_state_fields b s :
  flags (_update_ui_state b s) = flags s /\
  handles (_update_ui_state b s) = handles s /\
  rclock (_update_ui_state b s) = rclock s /\
  controls (_update_ui_state b s) =
    {| radio_btn_text := radio_btn_text (controls s);
       radio_btn_enabled := true;
       record_btn_text := record_btn_text (controls s);
       record_btn_style := record_btn_style (controls s);
       record_btn_enabled := b; inputs_enabled := negb b |}.
Proof.
  unfold _update_ui_state. cbv zeta. destruct b; [| now repeat split].
  destruct (negb _); now repeat split.
Qed.

Lemma held_same_handles r s s' : handles s' = handles s -> held r s' = held r s.
Proof. intro H. unfold held. destruct r; simpl; now rewrite H. Qed.

(** The window when [start_stream] has started both processes. *)
Lemma tidy_started s :
  recording (flags s) = false -> rec_tidy s ->
  held Nrsc5 s = true -> held Ffplay s = true ->
  tidy (_reset_labels
          (_update_ui_state true
             (set_radio_btn "Stop Radio"
                (radio_btn_enabled (controls (set_radio_running true s)))
                (set_radio_running true s)))).
Proof.
  intros R T N Y.
  destruct (rec_tidy_is_off s T R) as [_ [_ [X Z]]].
  match goal with
  | |- tidy (_reset_labels (_update_ui_state true ?z)) =>
      destruct (update_ui_state_fields true z) as [F [H [K C]]];
      generalize dependent (_update_ui_state true z)
  end.
  intros u F H K C. simpl in F, H, K, C.
  assert (Hn : held Nrsc5 (_reset_labels u) = true)
    by (rewrite <- N; apply held_same_handles; simpl; exact H).
  assert (Hy : held Ffplay (_reset_labels u) = true)
    by (rewrite <- Y; apply held_same_handles; simpl; exact H).
  split.
  - constructor; rewrite ?Hn, ?Hy; simpl; rewrite ?F, ?C; simpl; auto.
  - apply rec_tidy_off; simpl; rewrite ?F, ?C; simpl; auto.
Qed.

Lemma tidy_start_stream fuel : keeps tidy (start_stream fuel).
Proof.
  intros x y [RT CT] E. unfold start_stream in E.
  destruct (radio_running (flags x)) eqn:U; [done_here E; now split |].
  assert (R : recording (flags x) = false).
  { destruct (recording (flags x)) eqn:R; auto.
    apply (t_sound x RT) in R. congruence. }
  pose proof (leaf_validate_start_inputs x) as L0.
  destruct (_validate_start_inputs x) as [valid x0]. simpl snd in L0.
  destruct valid; simpl negb in E; cbv iota in E;
    [| done_here E; apply (tidy_leaf x); [exact L0 | now split]].
  cbn [new_process] in E.
  match type of E with
  | context [start_and_wait ?h Ffplay ?pp ?prog ?args ?s1] =>
      destruct (start_and_wait_leaf h Ffplay pp prog args s1)
        as [b [s2 [E2 [L2 _]]]]; rewrite E2 in E; clear E2
  end.
  assert (S2 : steady x s2).
  { apply steady_trans with x0; [now apply leaf_steady |].
    eapply steady_trans; [| apply leaf_steady; exact L2]. now constructor. }
  assert (N2 : held Nrsc5 s2 = held Nrsc5 x).
  { rewrite (held_same_pid _ _ _ (leaf_pids _ _ L2 Nrsc5)).
    rewrite <- (held_same_pid _ _ _ (leaf_pids _ _ L0 Nrsc5)). reflexivity. }
  assert (Y2 : held Ffplay s2 = true).
  { rewrite (held_same_pid _ _ _ (leaf_pids _ _ L2 Ffplay)). reflexivity. }
  clear L2.
  destruct b; simpl negb in E; cbv iota in E.
  - cbn [new_process] in E.
    match type of E with
    | context [start_and_wait ?h Nrsc5 ?pp ?prog ?args ?s3] =>
        destruct (start_and_wait_leaf h Nrsc5 pp prog args s3)
          as [b [s4 [E4 [L4 _]]]]; rewrite E4 in E; clear E4
    end.
    assert (S4 : steady x s4).
    { apply steady_trans with s2; [exact S2 |].
      eapply steady_trans; [| apply leaf_steady; exact L4]. now constructor. }
    assert (N4 : held Nrsc5 s4 = true).
    { rewrite (held_same_pid _ _ _ (leaf_pids _ _ L4 Nrsc5)). reflexivity. }
    assert (Y4 : held Ffplay s4 = true).
    { rewrite (held_same_pid _ _ _ (leaf_pids _ _ L4 Ffplay)).
      rewrite <- Y2. reflexivity. }
    clear L4.
    destruct b.
    + done_here E. apply tidy_started; auto.
      * now rewrite (st_flags _ _ S4).
      * now apply (rec_tidy_steady x).
    + split; [exact (run_tidy_stop_stream _ _ _ E) |].
      apply (rec_tidy_stop_stream fuel _ _) in E; auto.
      apply rec_tidy_leaf with s4; [apply leaf_message_box |].
      now apply (rec_tidy_steady x).
  - destruct (_kill_process _ Ffplay _) as [x3 |] eqn:E3; [| discriminate].
    apply (consumer_kill_leaf _ _ _ _ role_neq_ffplay) in E3.
    done_here E.
    assert (S3 : steady x x3).
    { apply steady_trans with s2; [exact S2 |].
      apply leaf_steady. eapply leaf_trans; [| exact E3].
      apply leaf_message_box. }
    assert (N3 : held Nrsc5 x3 = held Nrsc5 x).
    { rewrite (held_same_pid _ _ _ (leaf_pids _ _ E3 Nrsc5)). exact N2. }
    split.
    + destruct S3 as [F C _ _]. destruct RT.
      constructor; simpl; rewrite ?F, ?C; auto.
      change (held Nrsc5 (set_proc_play None x3)) with (held Nrsc5 x3).
      now rewrite N3.
    + apply rec_tidy_steady with x3; [now constructor |].
      now apply (rec_tidy_steady x).
Qed.

Lemma tidy_start_recording s s' :
  recording (flags s) = false -> tidy s ->
  start_recording s = Some s' -> tidy s'.
Proof.
  intros R [RT CT] E. unfold start_recording in E.
  destruct (radio_running (flags s)) eqn:U; simpl negb in E; cbv iota in E;
    [| done_here E; now split].
  cbn [ask new_process] in E.
  match type of E with
  | context [start_and_wait ?h Ffmpeg ?pp ?prog ?args ?s1] =>
      destruct (start_and_wait_leaf h Ffmpeg pp prog args s1)
        as [b [s2 [E2 [L2 _]]]]; rewrite E2 in E; clear E2
  end.
  assert (F2 : flags s2 = flags s) by (now rewrite (leaf_flags _ _ L2)).
  assert (C2 : controls s2 = controls s) by (now rewrite (leaf_controls _ _ L2)).
  assert (K2 : rclock s2 = rclock s) by (now rewrite (leaf_rclock _ _ L2)).
  assert (N2 : held Nrsc5 s2 = held Nrsc5 s)
    by (now rewrite (held_same_pid _ _ _ (leaf_pids _ _ L2 Nrsc5))).
  assert (Y2 : held Ffplay s2 = held Ffplay s)
    by (now rewrite (held_same_pid _ _ _ (leaf_pids _ _ L2 Ffplay))).
  assert (M2 : held Ffmpeg s2 = true)
    by (now rewrite (held_same_pid _ _ _ (leaf_pids _ _ L2 Ffmpeg))).
  clear L2.
  destruct (rec_tidy_is_off s CT R) as [T1 [T2 [T3 T4]]].
  destruct RT.
  destruct b.
  - cbn [ask] in E. done_here E.
    match goal with
    | |- tidy ?z =>
        assert (HN : held Nrsc5 z = held Nrsc5 s)
          by (rewrite <- N2; reflexivity);
        assert (HY : held Ffplay z = held Ffplay s)
          by (rewrite <- Y2; reflexivity);
        assert (HM : held Ffmpeg z = true) by (rewrite <- M2; reflexivity)
    end.
    split.
    + constructor; rewrite ?HN, ?HY; simpl; rewrite ?F2, ?C2; auto.
    + constructor; rewrite ?HM; simpl; auto.
  - done_here E.
    match goal with
    | |- tidy ?z =>
        assert (HN : held Nrsc5 z = held Nrsc5 s)
          by (rewrite <- N2; reflexivity);
        assert (HY : held Ffplay z = held Ffplay s)
          by (rewrite <- Y2; reflexivity)
    end.
    split.
    + constructor; rewrite ?HN, ?HY; simpl; rewrite ?F2, ?C2; auto.
    + apply rec_tidy_off; simpl; rewrite ?F2, ?C2, ?K2; auto.
Qed.

Lemma tidy_toggle_recording : keeps tidy toggle_recording.
Proof.
  intros x y T E. unfold toggle_recording in E.
  destruct (recording (flags x)) eqn:R.
  - destruct T as [RT CT]. split.
    + exact (run_tidy_stop_recording x y RT E).
    + exact (rec_tidy_stop_recording x y CT E).
  - now apply tidy_start_recording with x.
Qed.

Lemma tidy_frame s s' :
  flags s' = flags s -> handles s' = handles s -> rclock s' = rclock s ->
  radio_btn_text (controls s') = radio_btn_text (controls s) ->
  record_btn_text (controls s') = record_btn_text (controls s) ->
  record_btn_style (controls s') = record_btn_style (controls s) ->
  record_btn_enabled (controls s') = record_btn_enabled (controls s) ->
  inputs_enabled (controls s') = inputs_enabled (controls s) ->
  tidy s -> tidy s'.
Proof.
  intros F H K C1 C2 C3 C4 C5 [[] []].
  split; constructor;
    rewrite ?(held_same_handles _ s s' H), ?F, ?K, ?C1, ?C2, ?C3, ?C4, ?C5;
    assumption.
Qed.

Lemma tidy_set_stopping b s : tidy s -> tidy (set_stopping_radio b s).
Proof. intros [[] []]. split; constructor; assumption. Qed.

Lemma tidy_toggle_radio fuel : keeps tidy (toggle_radio fuel).
Proof.
  intros x y T E. unfold toggle_radio in E.
  destruct (negb _); [now done_here E |].
  cbv zeta in E.
  match type of E with context [if ?c then _ else _] => destruct c end.
  - destruct (stop_stream fuel _) as [x1 |] eqn:E1; [| discriminate].
    apply tidy_stop_stream in E1;
      [| apply tidy_set_stopping; revert T; now apply tidy_frame].
    done_here E. apply (tidy_set_stopping false) in E1.
    revert E1. apply tidy_frame; reflexivity.
  - destruct (start_stream fuel _) as [x1 |] eqn:E1; [| discriminate].
    apply tidy_start_stream in E1; [| revert T; now apply tidy_frame].
    done_here E. revert E1. now apply tidy_frame.
Qed.

Lemma tidy_select_program prog s :
  tidy s -> tidy (_select_program_by_number prog s).
Proof.
  unfold _select_program_by_number.
  destruct (find_program _ _ _); auto. now apply tidy_frame.
Qed.

Lemma tidy_tune_preset_item fuel meta :
  keeps tidy (_tune_preset_item fuel meta).
Proof.
  intros x y T E. unfold _tune_preset_item in E.
  destruct meta as [| kv meta]; [now done_here E |].
  cbv zeta in E.
  match type of E with
  | context [_select_program_by_number ?p ?z] =>
      assert (T1 : tidy (_select_program_by_number p z))
        by (apply tidy_select_program; destruct (dict_get _ "freq" _);
            [exact T | revert T; now apply tidy_frame]);
      generalize dependent (_select_program_by_number p z)
  end.
  intros x1 E T1.
  destruct (radio_running (flags x1)); [| now done_here E].
  destruct (stop_stream fuel _) as [x2 |] eqn:E2; [| discriminate].
  apply tidy_stop_stream in E2; [| now apply tidy_set_stopping].
  apply tidy_start_stream in E; auto. now apply tidy_set_stopping.
Qed.

Lemma tidy_step fuel e : keeps tidy (step fuel e).
Proof.
  intros x y T E. destruct e; simpl in E.
  - destruct (radio_btn_enabled _);
      [eapply tidy_toggle_radio; eauto | now done_here E].
  - destruct (record_btn_enabled _);
      [eapply tidy_toggle_recording; eauto | now done_here E].
  - done_here E. revert T. now apply tidy_frame.
  - eapply tidy_tune_preset_item; eauto.
  - unfold closeEvent in E. apply tidy_stop_stream in E; auto.
    now apply tidy_set_stopping.
  - done_here E. destruct (inputs_enabled _); [| assumption].
    revert T. now apply tidy_frame.
  - done_here E. destruct (inputs_enabled _); [| assumption].
    revert T. now apply tidy_frame.
  - done_here E. destruct (inputs_enabled _); [| assumption].
    revert T. now apply tidy_frame.
  - done_here E. destruct (inputs_enabled _); [| assumption].
    revert T. now apply tidy_frame.
  - exact (kept_deliver tidy tidy_leaf _ r p sig (tidy_stop_stream fuel)
             x y T E).
  - done_here E. destruct (proc_of r x) as [q |] eqn:Hq; [| assumption].
    destruct (_ && _); [| assumption].
    apply tidy_leaf with x; [| exact T].
    apply (leaf_set_same_pid r q _ x Hq). reflexivity.
Qed.

Lemma tidy_init i b e : tidy (init i b e).
Proof. split; constructor; simpl; auto; discriminate. Qed.

Lemma tidy_reachable s : reachable s -> tidy s.
Proof.
  induction 1 as [i b e | fuel ev s s' _ IH E].
  - apply tidy_init.
  - exact (tidy_step fuel ev s s' IH E).
Qed.

(** X9. The controls follow [radio_running] in every state the window
    can reach: the record button is enabled exactly while the radio
    runs, the frequency, host, port, program and directory inputs
    exactly while it does not, and the radio button reads "Stop Radio"
    while it runs and "Start Radio" otherwise. *)
Theorem controls_follow_radio_running : forall s,
  reachable s ->
  record_btn_enabled (controls s) = radio_running (flags s) /\
  inputs_enabled (controls s) = negb (radio_running (flags s)) /\
  radio_btn_text (controls s) =
    if radio_running (flags s) then "Stop Radio" else "Start Radio".
Proof.
  intros s R. destruct (tidy_reachable s R) as [[] _]. auto.
Qed.

Lemma controls_follow_radio_running_witness :
  record_btn_enabled (controls demo_recording) =
    radio_running (flags demo_recording) /\
  inputs_enabled (controls demo_recording) =
    negb (radio_running (flags demo_recording)) /\
  radio_btn_text (controls demo_recording) =
    if radio_running (flags demo_recording)
    then "Stop Radio" else "Start Radio".
Proof.
  apply (controls_follow_radio_running demo_recording).
  apply demo_recording_reachable.
Defined.

(** X10. The window holds the nrsc5 and the ffplay process objects
    exactly while [radio_running] is set: both are there while the
    radio runs, and both handles are cleared whenever it does not,
    also after a start that failed half way. *)
Theorem producer_and_player_held_while_running : forall s,
  reachable s ->
  (radio_running (flags s) = true ->
   proc_nrsc5 (handles s) <> None /\ proc_play (handles s) <> None) /\
  (radio_running (flags s) = false ->
   proc_nrsc5 (handles s) = None /\ proc_play (handles s) = None).
Proof.
  intros s R. destruct (tidy_reachable s R) as [[_ _ _ _ N Y] _].
  unfold held in N, Y. simpl in N, Y.
  split; intro U; rewrite U in N, Y;
    destruct (proc_nrsc5 (handles s)), (proc_play (handles s));
    try discriminate; split; congruence.
Qed.

Lemma producer_and_player_held_while_running_witness :
  (radio_running (flags demo_recording) = true ->
   proc_nrsc5 (handles demo_recording) <> None /\
   proc_play (handles demo_recording) <> None) /\
  (radio_running (flags demo_recording) = false ->
   proc_nrsc5 (handles demo_recording) = None /\
   proc_play (handles demo_recording) = None).
Proof.
  apply (producer_and_player_held_while_running demo_recording).
  apply demo_recording_reachable.
Defined.

(** X11. The recording controls follow [recording] in every state the
    window can reach: the duration timer is active and the start time
    is set exactly while recording, the record button reads "Stop
    Recording" on a red background while recording and "Start
    Recording" on the default one otherwise, and a recorder process
    object is held while recording. *)
Theorem recording_controls_follow_recording : forall s,
  reachable s ->
  record_timer_active (rclock s) = recording (flags s) /\
  (record_start_time (rclock s) <> None <-> recording (flags s) = true) /\
  record_btn_text (controls s) =
    (if recording (flags s) then "Stop Recording" else "Start Recording") /\
  record_btn_style (controls s) =
    (if recording (flags s) then "background-color: #ffcccc" else "") /\
  (recording (flags s) = true -> proc_rec (handles s) <> None).
Proof.
  intros s R. destruct (tidy_reachable s R) as [_ [T S X Y M]].
  repeat split; auto.
  - destruct (record_start_time (rclock s)); [auto | congruence].
  - intros U. destruct (record_start_time (rclock s)); congruence.
  - intros U H. apply M in U. unfold held in U. simpl in U.
    rewrite H in U. discriminate.
Qed.

Lemma recording_controls_follow_recording_witness :
  record_timer_active (rclock demo_recording) =
    recording (flags demo_recording) /\
  (record_start_time (rclock demo_recording) <> None <->
   recording (flags demo_recording) = true) /\
  record_btn_text (controls demo_recording) =
    (if recording (flags demo_recording)
     then "Stop Recording" else "Start Recording") /\
  record_btn_style (controls demo_recording) =
    (if recording (flags demo_recording)
     then "background-color: #ffcccc" else "") /\
  (recording (flags demo_recording) = true ->
   proc_rec (handles demo_recording) <> None).
Proof.
  apply (recording_controls_follow_recording demo_recording).
  apply demo_recording_reachable.
Defined.

(** ** Stopping twice *)

Lemma gui_ext s s' :
  flags s = flags s' -> handles s = handles s' -> station s = station s' ->
  ber s = ber s' -> playing s = playing s' -> rclock s = rclock s' ->
  controls s = controls s' -> inputs s = inputs s' ->
  status_text s = status_text s' -> log_text s = log_text s' ->
  world s = world s' -> s = s'.
Proof. destruct s, s'. simpl. intros. now subst. Qed.

Lemma stop_stream_controls fuel s s' :
  stop_stream fuel s = Some s' ->
  controls s' =
    {| radio_btn_text := "Start Radio"; radio_btn_enabled := true;
       record_btn_text := record_btn_text (controls s');
       record_btn_style := record_btn_style (controls s');
       record_btn_enabled := false; inputs_enabled := true |}.
Proof.
  destruct fuel as [| fuel]; [discriminate |]. simpl.
  unfold stop_stream_body.
  destruct (stop_recording s) as [x1 |]; [| discriminate].
  destruct (_kill_process _ Nrsc5 x1) as [x2 |]; [| discriminate].
  destruct (_kill_process _ Ffplay x2) as [x3 |]; [| discriminate].
  intro E. apply some_inj in E. subst s'. reflexivity.
Qed.

(** X12. [stop_stream] is idempotent: run on the window it has left, it
    changes nothing and has no effect, so a second teardown (from the
    finished slot of nrsc5, from closing the window) is harmless. *)
Theorem stop_stream_is_idempotent : forall fuel fuel' s s',
  stop_stream fuel s = Some s' -> stop_stream (S fuel') s' = Some s'.
Proof.
  intros fuel fuel' s s' E.
  pose proof (stop_stream_controls _ _ _ E) as C.
  destruct (stop_stream_idle _ _ _ E) as [F [N [Y [T _]]]].
  simpl. unfold stop_stream_body.
  assert (R : stop_recording s' = Some s')
    by (unfold stop_recording; now rewrite F).
  rewrite R.
  assert (K1 : _kill_process (stop_stream fuel') Nrsc5 s' = Some s')
    by (unfold _kill_process; simpl; now rewrite N).
  rewrite K1.
  assert (K2 : _kill_process (stop_stream fuel') Ffplay s' = Some s')
    by (unfold _kill_process; simpl; now rewrite Y).
  rewrite K2. f_equal.
  apply gui_ext; try reflexivity.
  - cbn. rewrite F. reflexivity.
  - cbn. destruct (handles s') as [pn pp pr cf]. simpl in N, Y.
    now subst.
  - symmetry. exact C.
  - cbn. now rewrite T.
Qed.

Lemma stop_stream_is_idempotent_witness :
  stop_stream 1 demo_stopped = Some demo_stopped.
Proof.
  apply (stop_stream_is_idempotent 2 0 demo_recording demo_stopped).
  vm_compute. reflexivity.
Defined.

(** ** Inputs that pass the validation *)

Lemma validate_start_inputs_spec s :
  (fst (_validate_start_inputs s) = true <->
   ~ invalid_start_inputs (inputs s)) /\
  (fst (_validate_start_inputs s) = true ->
   snd (_validate_start_inputs s) = s).
Proof.
  unfold invalid_start_inputs, _validate_start_inputs, warn_input.
  cbv zeta.
  destruct (PyFloat.of_str (PyStr.strip (freq_edit (inputs s)))) as [v |];
    [| simpl; split; [split; [discriminate | intro H; elim H; auto]
                     | discriminate]].
  destruct (PyFloat.leb v PyFloat.zero) eqn:Lv.
  { simpl. split; [split; [discriminate |] | discriminate].
    intro H. elim H. right. left. eauto. }
  destruct (PyStr.strip (host_edit (inputs s))) as [| c host].
  { simpl. split; [split; [| reflexivity] | reflexivity].
    intros _ [H | [[v' [Hv Hl]] | [Hh _]]];
      [discriminate | | now elim Hh].
    injection Hv as <-. congruence. }
  destruct (PyStr.strip (port_edit (inputs s))) as [| d port].
  { simpl. split; [split; [discriminate |] | discriminate].
    intro H. elim H. right. right. split; [discriminate | auto]. }
  destruct (PyStr.int_of_str (String d port)) as [n |].
  2:{ simpl. split; [split; [discriminate |] | discriminate].
      intro H. elim H. right. right. split; [discriminate | auto]. }
  destruct ((1 <=? n) && (n <=? 65535))%Z eqn:B.
  - simpl. split; [split; [| reflexivity] | reflexivity].
    apply andb_true_iff in B. destruct B as [B1 B2].
    apply Z.leb_le in B1. apply Z.leb_le in B2.
    intros _ [H | [[v' [Hv Hl]] | [_ [Hp | [Hp | [n' [Hn Hr]]]]]]];
      try discriminate.
    + injection Hv as <-. congruence.
    + injection Hn as <-. elim Hr. lia.
  - simpl. split; [split; [discriminate |] | discriminate].
    intro H. elim H. right. right. split; [discriminate |].
    right. right. exists n. split; [reflexivity |].
    intros [B1 B2]. apply Z.leb_le in B1. apply Z.leb_le in B2.
    rewrite B1, B2 in B. discriminate.
Qed.


Lemma valid_inputs_pass s :
  ~ invalid_start_inputs (inputs s) -> _validate_start_inputs s = (true, s).
Proof.
  intro V. destruct (validate_start_inputs_spec s) as [[_ A] B].
  specialize (A V). specialize (B A).
  destruct (_validate_start_inputs s) as [b s0]. simpl in *. now subst.
Qed.

(** ** A missing binary *)

Lemma dormant_leaf s s' : leaf s s' -> dormant s -> dormant s'.
Proof.
  intros [F _ _ C _ _ _ _ [ext [T Q]]] [A B R S].
  constructor; rewrite ?F, ?C, ?T; auto.
  apply Forall_app. split; [exact S |].
  eapply Forall_impl; [| exact Q].
  intros e. destruct e; simpl; auto. contradiction.
Qed.

Lemma dormant_frame s s' :
  flags s' = flags s -> controls s' = controls s -> world s' = world s ->
  dormant s -> dormant s'.
Proof.
  intros F C W [A B R S]. constructor; rewrite ?F, ?C, ?W; auto.
Qed.

Lemma dormant_step fuel e s s' :
  is_close e = false -> dormant s -> step fuel e s = Some s' -> dormant s'.
Proof.
  intros N D E. destruct e; simpl in E; try discriminate N.
  - rewrite (dm_radio_btn s D) in E. now done_here E.
  - rewrite (dm_record_btn s D) in E. now done_here E.
  - done_here E. revert D. now apply dormant_frame.
  - unfold _tune_preset_item in E.
    destruct meta as [| kv meta]; [now done_here E |].
    cbv zeta in E.
    match type of E with
    | context [_select_program_by_number ?p ?z] =>
        assert (D1 : dormant (_select_program_by_number p z))
          by (unfold _select_program_by_number;
              destruct (find_program _ _ _); destruct (dict_get _ "freq" _);
              first [exact D | revert D; now apply dormant_frame]);
        generalize dependent (_select_program_by_number p z)
    end.
    intros x1 E D1. rewrite (dm_running x1 D1) in E. now done_here E.
  - done_here E. destruct (inputs_enabled _); [| assumption].
    revert D. now apply dormant_frame.
  - done_here E. destruct (inputs_enabled _); [| assumption].
    revert D. now apply dormant_frame.
  - done_here E. destruct (inputs_enabled _); [| assumption].
    revert D. now apply dormant_frame.
  - done_here E. destruct (inputs_enabled _); [| assumption].
    revert D. now apply dormant_frame.
  - unfold deliver in E.
    assert (D0 : dormant (update_object r p sig s))
      by (apply dormant_leaf with s; [apply leaf_update_object | exact D]).
    generalize dependent (update_object r p sig s). clear D. intros x E D.
    destruct (calls_stop r sig) eqn:C.
    + destruct r, sig as [er | d | t | code st]; try discriminate C.
      simpl in E. unfold _on_nrsc5_finished in E.
      assert (D1 : dormant (_on_process_finished "nrsc5" code st x))
        by (apply dormant_leaf with x;
            [apply leaf_on_process_finished | exact D]).
      rewrite (dm_running _ D1) in E. simpl in E. now done_here E.
    + destruct (slots_leaf (stop_stream fuel) r sig x C) as [y [E' L]].
      rewrite E' in E. done_here E. now apply dormant_leaf with x.
  - done_here E. destruct (proc_of r s) as [q |] eqn:Hq; [| assumption].
    destruct (_ && _); [| assumption].
    apply dormant_leaf with s; [| exact D].
    apply (leaf_set_same_pid r q _ s Hq). reflexivity.
Qed.

Lemma dormant_run fuel es : forall s s',
  forallb (fun e => negb (is_close e)) es = true ->
  dormant s -> run fuel es s = Some s' -> dormant s'.
Proof.
  induction es as [| e es IH]; intros s s' N D E; simpl in E.
  - now done_here E.
  - simpl in N. apply andb_prop in N as [N1 N2].
    destruct (step fuel e s) as [s1 |] eqn:E1; [| discriminate].
    apply IH with s1; auto.
    apply dormant_step with fuel e s; auto.
    now destruct (is_close e).
Qed.

Lemma dormant_check_dependency found binary s :
  (found = false \/ radio_btn_enabled (controls s) = false) ->
  record_btn_enabled (controls s) = false ->
  radio_running (flags s) = false ->
  Forall (fun e => is_spawn e = false) (trace (world s)) ->
  dormant (_check_dependency found binary s).
Proof.
  intros H B R S. unfold _check_dependency.
  destruct found.
  - destruct H as [H | H]; [discriminate |]. now constructor.
  - constructor; simpl; auto.
    apply Forall_app. split; [exact S |]. now constructor.
Qed.

(** X14. When nrsc5, ffmpeg or ffplay is not installed, the dependency
    check leaves the radio button disabled, and from then on no event
    short of closing the window makes the program start a process: the
    radio never runs and nothing is ever spawned. *)
Theorem missing_binary_never_spawns : forall which i e fuel es s,
  which "nrsc5" && which "ffmpeg" && which "ffplay" = false ->
  forallb (fun ev => negb (is_close ev)) es = true ->
  run fuel es (init_checked which i e) = Some s ->
  radio_running (flags s) = false /\
  radio_btn_enabled (controls s) = false /\
  forallb (fun x => negb (is_spawn x)) (trace (world s)) = true.
Proof.
  intros which i e fuel es s W N E.
  assert (D : dormant (init_checked which i e)).
  { unfold init_checked.
    destruct (which "nrsc5") eqn:W1; simpl in W.
    - destruct (which "ffmpeg") eqn:W2; simpl in W.
      + rewrite W. apply dormant_check_dependency; simpl; auto.
      + apply dormant_check_dependency; simpl; auto.
    - set (s1 := _check_dependency false "nrsc5" (init i true e)).
      assert (D1 : dormant s1)
        by (apply dormant_check_dependency; simpl; auto).
      set (s2 := _check_dependency (which "ffmpeg") "ffmpeg" s1).
      assert (D2 : dormant s2).
      { destruct D1. apply dormant_check_dependency; auto. }
      destruct D2. apply dormant_check_dependency; auto. }
  apply (dormant_run fuel es _ s N) in D; auto.
  destruct D as [A B R S]. repeat split; auto.
  apply forallb_forall. intros x Hx.
  rewrite Forall_forall in S. now rewrite (S x Hx).
Qed.

Lemma missing_binary_never_spawns_witness :
  radio_running (flags demo_dormant) = false /\
  radio_btn_enabled (controls demo_dormant) = false /\
  forallb (fun x => negb (is_spawn x)) (trace (world demo_dormant)) = true.
Proof.
  apply (missing_binary_never_spawns
           (fun b => negb (String.eqb b "ffmpeg")) demo_inputs demo_env 2
           [Click_radio_btn; Activate_preset [("freq", "88.5")];
            Click_record_btn] demo_dormant).
  - vm_compute. reflexivity.
  - vm_compute. reflexivity.
  - vm_compute. reflexivity.
Defined.

(** ** The program selector *)

Lemma program_number_of_index s :
  (0 <= prog_combo (inputs s) < 4)%Z ->
  _get_current_program_number s = prog_combo (inputs s).
Proof.
  intro H. unfold _get_current_program_number. cbv zeta.
  assert (C : prog_combo (inputs s) = 0%Z \/ prog_combo (inputs s) = 1%Z \/
              prog_combo (inputs s) = 2%Z \/ prog_combo (inputs s) = 3%Z)
    by lia.
  destruct C as [C | [C | [C | C]]]; rewrite C; vm_compute; reflexivity.
Qed.

(** X15. The program selector and the saved program number agree: for
    a selected index within the four items the program number is the
    index, and selecting by that number (as the settings and the
    presets do) on any window selects the same index again; with no
    item selected, or an index off the list, the number is 0. *)
Theorem program_selection_round_trip : forall s,
  ((0 <= prog_combo (inputs s) < 4)%Z ->
   _get_current_program_number s = prog_combo (inputs s) /\
   forall s0,
     prog_combo
       (inputs (_select_program_by_number
                  (PyStr.str_of_int (_get_current_program_number s)) s0)) =
     prog_combo (inputs s)) /\
  (~ (0 <= prog_combo (inputs s) < 4)%Z ->
   _get_current_program_number s = 0%Z).
Proof.
  intro s. split.
  - intro H. split; [now apply program_number_of_index |].
    intro s0. rewrite program_number_of_index by exact H.
    assert (C : prog_combo (inputs s) = 0%Z \/ prog_combo (inputs s) = 1%Z \/
                prog_combo (inputs s) = 2%Z \/ prog_combo (inputs s) = 3%Z)
      by lia.
    unfold _select_program_by_number.
    destruct C as [C | [C | [C | C]]]; rewrite C; reflexivity.
  - intro H. unfold _get_current_program_number. cbv zeta.
    destruct (prog_combo (inputs s) <? 0)%Z eqn:L; [reflexivity |].
    apply Z.ltb_ge in L.
    rewrite nth_overflow; [vm_compute; reflexivity |].
    change (List.length prog_items) with 4. lia.
Qed.

(** ** Tuning to a preset *)

(** X16. With the radio off, activating a preset with a frequency and a
    program from 0 to 3 puts the frequency in the frequency field and
    selects the program, and does nothing else: no process is touched
    and nothing is started. *)
Theorem tuning_while_idle_applies_the_preset : forall fuel name f k s,
  radio_running (flags s) = false -> f <> "" -> (0 <= k < 4)%Z ->
  _tune_preset_item fuel
    [("name", name); ("freq", f); ("prog", PyStr.str_of_int k)] s =
  Some (set_prog_combo k (set_freq_edit f s)).
Proof.
  intros fuel name f k s R F K. unfold _tune_preset_item. cbv zeta.
  change (dict_get [("name", name); ("freq", f); ("prog", PyStr.str_of_int k)]
            "freq" "") with f.
  change (dict_get [("name", name); ("freq", f); ("prog", PyStr.str_of_int k)]
            "prog" "0") with (PyStr.str_of_int k).
  destruct f as [| c f]; [now elim F |].
  assert (S : forall x, _select_program_by_number (PyStr.str_of_int k) x =
                        set_prog_combo k x).
  { intro x. unfold _select_program_by_number.
    assert (C : k = 0%Z \/ k = 1%Z \/ k = 2%Z \/ k = 3%Z) by lia.
    destruct C as [C | [C | [C | C]]]; rewrite C; reflexivity. }
  rewrite S. simpl. rewrite R. reflexivity.
Qed.

Lemma tuning_while_idle_applies_the_preset_witness :
  _tune_preset_item 0 [("name", "Jazz"); ("freq", "88.5"); ("prog", "2")] demo =
  Some (set_prog_combo 2 (set_freq_edit "88.5" demo)).
Proof.
  apply (tuning_while_idle_applies_the_preset 0 "Jazz" "88.5" 2 demo).
  - reflexivity.
  - discriminate.
  - lia.
Defined.

(** ** The data pump *)

(** X17. When nrsc5 signals audio on its standard output, everything
    read (what was buffered and the new bytes) is written unchanged,
    once, to the player if it runs and then to the recorder if the
    window records and the recorder runs; nothing is written for an
    empty read, the buffer is left empty, and nothing else happens. *)
Theorem audio_is_forwarded_to_the_running_sinks : forall fuel s n d,
  proc_nrsc5 (handles s) = Some n ->
  exists s',
    step fuel (Process_signal Nrsc5 (pid n) (SigStdout d)) s = Some s' /\
    trace (world s') =
      (trace (world s) ++
       match (stdout_buf n ++ d)%string with
       | EmptyString => []
       | data => map (fun p => Write p data) (audio_sinks s)
       end)%list /\
    proc_nrsc5 (handles s') = Some (with_stdout "" n) /\
    set_world (world s) (set_proc_nrsc5 (Some n) s') = s.
Proof.
  intros fuel s n d P. eexists. split.
  - simpl. unfold deliver, update_object. simpl proc_of. rewrite P.
    rewrite Nat.eqb_refl. simpl slots. reflexivity.
  - unfold _distribute_audio_data, audio_sinks. simpl.
    destruct (stdout_buf n ++ d)%string as [| c data] eqn:B.
    + simpl. rewrite app_nil_r. repeat split.
      apply gui_ext; simpl; try reflexivity;
        try (destruct (handles s) as [pn pp' pr cf]; simpl in *;
             congruence);
        try (destruct (world s); reflexivity).
    + destruct (proc_play (handles s)) as [p |];
        [destruct (is_running (state p)) |]; simpl;
        (destruct (proc_rec (handles s)) as [r |];
         [destruct (recording (flags s) && is_running (state r)) |]);
        simpl; rewrite <- ?app_assoc, ?app_nil_r;
        (split; [reflexivity | split; [reflexivity |]]);
        apply gui_ext; simpl; try reflexivity;
        try (destruct (handles s) as [pn pp' pr cf]; simpl in *;
             congruence);
        try (destruct (world s); reflexivity).
Qed.

Lemma audio_is_forwarded_to_the_running_sinks_witness :
  option_map (fun s => trace (world s))
    (step 2 (Process_signal Nrsc5 1 (SigStdout "pcm")) demo_recording) =
  Some (trace (world demo_recording) ++ [Write 0 "pcm"; Write 2 "pcm"]).
Proof.
  destruct (audio_is_forwarded_to_the_running_sinks 2 demo_recording
              demo_producer "pcm" eq_refl) as [s' [E [T _]]].
  simpl pid in E. rewrite E. simpl option_map. rewrite T.
  vm_compute. reflexivity.
Defined.

(** ** The Presets tab *)

Module PresetsFacts.

Import Presets.

Lemma remove_at_overflow {A : Type} n (l : list A) :
  List.length l <= n -> remove_at n l = l.
Proof.
  intro H. unfold remove_at.
  rewrite firstn_all2 by exact H. rewrite skipn_all2 by lia.
  apply app_nil_r.
Qed.

Lemma nth_error_remove_at {A : Type} n (l : list A) i :
  nth_error (remove_at n l) i =
  nth_error l (if i <? n then i else S i).
Proof.
  unfold remove_at. destruct (Nat.le_gt_cases (List.length l) n) as [H | H].
  - rewrite firstn_all2 by exact H. rewrite skipn_all2 by lia.
    rewrite app_nil_r. destruct (i <? n) eqn:C; [reflexivity |].
    apply Nat.ltb_ge in C.
    rewrite (proj2 (nth_error_None l i)) by lia.
    rewrite (proj2 (nth_error_None l (S i))) by lia. reflexivity.
  - destruct (i <? n) eqn:C.
    + rewrite nth_error_app1.
      * rewrite nth_error_firstn, C. reflexivity.
      * apply Nat.ltb_lt in C. rewrite length_firstn. lia.
    + apply Nat.ltb_ge in C. rewrite nth_error_app2.
      * rewrite length_firstn, nth_error_skipn.
        f_equal. lia.
      * rewrite length_firstn. lia.
Qed.

Lemma skipn_nth_error {A : Type} (l : list A) : forall n x,
  nth_error l n = Some x -> skipn n l = x :: skipn (S n) l.
Proof.
  induction l as [| a l IH]; intros n x H.
  - destruct n; discriminate.
  - destruct n.
    + injection H as <-. reflexivity.
    + rewrite !skipn_cons. apply IH. exact H.
Qed.

Lemma insert_remove_at {A : Type} n (l : list A) x :
  nth_error l n = Some x -> insert_at n x (remove_at n l) = l.
Proof.
  intro H. unfold insert_at, remove_at.
  assert (L : n < List.length l)
    by (apply nth_error_Some; congruence).
  assert (F : List.length (firstn n l) = n) by (rewrite length_firstn; lia).
  rewrite firstn_app, F, Nat.sub_diag, firstn_O, app_nil_r.
  rewrite firstn_all2 by lia.
  rewrite skipn_app, F, Nat.sub_diag, skipn_O.
  rewrite (skipn_all2 (firstn n l)) by lia.
  simpl. rewrite <- (skipn_nth_error l n x H).
  apply firstn_skipn.
Qed.

Lemma remove_insert_at {A : Type} n (l : list A) x :
  n <= List.length l -> remove_at n (insert_at n x l) = l.
Proof.
  intro L. unfold insert_at, remove_at.
  assert (F : List.length (firstn n l) = n) by (rewrite length_firstn; lia).
  rewrite firstn_app, F, Nat.sub_diag, firstn_O, app_nil_r.
  rewrite firstn_all2 by lia.
  rewrite skipn_app, F.
  rewrite (skipn_all2 (firstn n l)) by lia.
  replace (S n - n) with 1 by lia. simpl.
  rewrite skipn_cons, skipn_O. apply firstn_skipn.
Qed.

Lemma nth_error_insert_at {A : Type} n (l : list A) x :
  n <= List.length l -> nth_error (insert_at n x l) n = Some x.
Proof.
  intro L. unfold insert_at.
  assert (F : List.length (firstn n l) = n) by (rewrite length_firstn; lia).
  rewrite nth_error_app2 by lia. rewrite F, Nat.sub_diag. reflexivity.
Qed.

Lemma length_remove_at {A : Type} n (l : list A) :
  n < List.length l -> List.length (remove_at n l) = List.length l - 1.
Proof.
  intro H. unfold remove_at.
  rewrite length_app, length_firstn, length_skipn. lia.
Qed.

Lemma length_insert_at {A : Type} n (l : list A) x :
  List.length (insert_at n x l) = S (List.length l).
Proof.
  unfold insert_at. rewrite length_app. simpl.
  rewrite length_firstn, length_skipn. lia.
Qed.

Lemma Permutation_insert_at {A : Type} n (l : list A) x :
  Permutation (insert_at n x l) (x :: l).
Proof.
  unfold insert_at. rewrite <- (firstn_skipn n l) at 3.
  symmetry. apply Permutation_middle.
Qed.

Lemma Permutation_remove_at {A : Type} n (l : list A) x :
  nth_error l n = Some x -> Permutation (x :: remove_at n l) l.
Proof.
  intro H. transitivity (insert_at n x (remove_at n l)).
  - symmetry. apply Permutation_insert_at.
  - now rewrite insert_remove_at.
Qed.

(** X18. [_remove_selected_preset] with no row selected, or a row off
    the list, leaves the list as it is; with a row of the list it takes
    out exactly that preset: the list is one shorter and the other
    presets keep their order. *)
Theorem remove_takes_out_the_selected_row : forall row t,
  let l := preset_list t in
  let l' := preset_list (_remove_selected_preset row t) in
  ((row < 0 \/ Z.of_nat (List.length l) <= row)%Z -> l' = l) /\
  ((0 <= row < Z.of_nat (List.length l))%Z ->
   List.length l' = List.length l - 1 /\
   forall i, nth_error l' i =
             nth_error l (if i <? Z.to_nat row then i else S i)).
Proof.
  intros row t l l'. subst l l'. unfold _remove_selected_preset. split.
  - intros [H | H].
    + destruct (0 <=? row)%Z eqn:C; [| reflexivity].
      apply Z.leb_le in C. lia.
    + destruct (0 <=? row)%Z; [| reflexivity]. simpl.
      apply remove_at_overflow. lia.
  - intro H. destruct (0 <=? row)%Z eqn:C;
      [| apply Z.leb_gt in C; lia].
    simpl. split.
    + apply length_remove_at. lia.
    + intro i. apply nth_error_remove_at.
Qed.

(** X19. [_move_preset] never loses or duplicates a preset: whatever
    the direction and the current row, the list afterwards is a
    permutation of the list before, and nothing is shown or written. *)
Theorem move_keeps_the_presets : forall direction row t,
  Permutation (preset_list (_move_preset direction row t)) (preset_list t) /\
  disk (_move_preset direction row t) = disk t /\
  boxes (_move_preset direction row t) = boxes t.
Proof.
  intros d row t. unfold _move_preset.
  destruct (row <? 0)%Z; [now repeat split |]. cbv zeta.
  destruct (_ || _); [now repeat split |].
  destruct (nth_error _ _) as [item |] eqn:E; [| now repeat split].
  simpl. repeat split.
  rewrite Permutation_insert_at. now apply Permutation_remove_at.
Qed.

Lemma move_there_and_back n l (item : json) :
  nth_error l n = Some item -> S n < List.length l ->
  let l1 := insert_at (S n) item (remove_at n l) in
  nth_error l1 (S n) = Some item /\
  insert_at n item (remove_at (S n) l1) = l.
Proof.
  intros E L l1. subst l1.
  assert (R : List.length (remove_at n l) = List.length l - 1)
    by (apply length_remove_at; lia).
  split.
  - apply nth_error_insert_at. lia.
  - rewrite remove_insert_at by lia. now apply insert_remove_at.
Qed.

Lemma move_back_and_there n l (item : json) :
  nth_error l (S n) = Some item ->
  let l1 := insert_at n item (remove_at (S n) l) in
  nth_error l1 n = Some item /\
  insert_at (S n) item (remove_at n l1) = l.
Proof.
  intros E l1. subst l1.
  assert (L : S n < List.length l) by (apply nth_error_Some; congruence).
  assert (R : List.length (remove_at (S n) l) = List.length l - 1)
    by (apply length_remove_at; lia).
  split.
  - apply nth_error_insert_at. lia.
  - rewrite remove_insert_at by lia. now apply insert_remove_at.
Qed.

(** X20. Moving the current preset one row and then back restores the
    tab: "Move Up" followed by "Move Down" on the row it landed on (and
    "Move Down" followed by "Move Up") gives back the list it started
    from. *)
Theorem move_and_move_back_restores : forall direction row t,
  direction = 1%Z \/ direction = (-1)%Z ->
  (0 <= row < Z.of_nat (List.length (preset_list t)))%Z ->
  (0 <= row + direction < Z.of_nat (List.length (preset_list t)))%Z ->
  _move_preset (- direction) (row + direction) (_move_preset direction row t)
  = t.
Proof.
  intros d row t D H1 H2.
  assert (M : forall d' r' t', (0 <= r')%Z ->
            (0 <= r' + d' < Z.of_nat (List.length (preset_list t')))%Z ->
            _move_preset d' r' t' =
            match nth_error (preset_list t') (Z.to_nat r') with
            | Some item =>
                with_list (insert_at (Z.to_nat (r' + d')) item
                             (remove_at (Z.to_nat r') (preset_list t'))) t'
            | None => t'
            end).
  { intros d' r' t' A B. unfold _move_preset.
    destruct (r' <? 0)%Z eqn:C1; [apply Z.ltb_lt in C1; lia |]. cbv zeta.
    destruct (r' + d' <? 0)%Z eqn:C2; [apply Z.ltb_lt in C2; lia |].
    destruct (_ <=? r' + d')%Z eqn:C3; [apply Z.leb_le in C3; lia |].
    reflexivity. }
  rewrite (M d row t) by lia.
  destruct (nth_error (preset_list t) (Z.to_nat row)) as [item |] eqn:E.
  2:{ apply nth_error_None in E. lia. }
  destruct D as [-> | ->].
  - destruct (move_there_and_back (Z.to_nat row) (preset_list t) item E)
      as [A B]; [lia |].
    replace (Z.to_nat (row + 1)) with (S (Z.to_nat row)) by lia.
    rewrite M; simpl preset_list;
      [| lia | rewrite length_insert_at, length_remove_at; lia].
    replace (Z.to_nat (row + 1)) with (S (Z.to_nat row)) by lia.
    rewrite A.
    replace (Z.to_nat (row + 1 + - (1))) with (Z.to_nat row) by lia.
    rewrite B. clear. now destruct t.
  - assert (P : Z.to_nat row = S (Z.to_nat (row + -1))) by lia.
    rewrite P in E.
    destruct (move_back_and_there (Z.to_nat (row + -1)) (preset_list t)
                item E) as [A B].
    rewrite P.
    rewrite M; simpl preset_list;
      [| lia | rewrite length_insert_at, length_remove_at; lia].
    rewrite A.
    replace (Z.to_nat (row + -1 + - -1)) with (S (Z.to_nat (row + -1)))
      by lia.
    rewrite B. clear. now destruct t.
Qed.

Lemma move_and_move_back_restores_witness :
  _move_preset 1 0 (_move_preset (-1) 1 demo_tab) = demo_tab.
Proof.
  apply (move_and_move_back_restores (-1) 1 demo_tab).
  - right. reflexivity.
  - vm_compute. split; [discriminate | reflexivity].
  - vm_compute. split; [discriminate | reflexivity].
Defined.

Lemma import_loop_appends data : forall items,
  exists added,
    fst (import_loop data items) = (items ++ added)%list /\
    incl added data /\ forallb importable added = true.
Proof.
  induction data as [| m data IH]; intro items.
  - exists []. simpl. rewrite app_nil_r. repeat split. apply incl_refl.
  - assert (Skip : exists added,
              fst (import_loop data items) = (items ++ added)%list /\
              incl added (m :: data) /\ forallb importable added = true).
    { destruct (IH items) as [added [A [B C]]]. exists added.
      repeat split; auto. now apply incl_tl. }
    simpl. destruct m; try exact Skip.
    destruct (negb (truthy _)) eqn:T; [exact Skip |].
    destruct (label_raises _ _ _) eqn:R.
    + exists []. simpl. rewrite app_nil_r. repeat split.
      apply incl_nil_l.
    + destruct (IH (items ++ [JDict d])%list) as [added [A [B C]]].
      exists (JDict d :: added). rewrite A, <- app_assoc. repeat split.
      * apply incl_cons; [now left | now apply incl_tl].
      * simpl. apply negb_false_iff in T. now rewrite T, R, C.
Qed.

(** X21. [_import_presets] only appends: the presets already in the
    list stay, in their order; what is added comes from the file, and
    every added entry is a dict with a frequency; nothing is added when
    the dialog is cancelled, the file cannot be read, or its content is
    no list; and the files are not touched. *)
Theorem import_only_appends : forall filename e t,
  let t' := fst (_import_presets filename e t) in
  disk t' = disk t /\
  exists added,
    preset_list t' = (preset_list t ++ added)%list /\
    forallb importable added = true /\
    (forall data,
       read_file (disk t) filename = Some (JList data) -> incl added data) /\
    (filename = "" \/
     (forall data, read_file (disk t) filename <> Some (JList data)) ->
     added = []).
Proof.
  intros filename e t t'. subst t'. unfold _import_presets.
  assert (Z0 : disk t = disk t /\
               exists added,
                 preset_list t = (preset_list t ++ added)%list /\
                 forallb importable added = true /\
                 (forall data,
                    read_file (disk t) filename = Some (JList data) ->
                    incl added data) /\
                 (filename = "" \/
                  (forall data,
                     read_file (disk t) filename <> Some (JList data)) ->
                  added = [])).
  { split; [reflexivity |]. exists []. rewrite app_nil_r.
    repeat split; auto. intros. apply incl_nil_l. }
  destruct filename as [| c f]; [exact Z0 |].
  destruct (read_file (disk t) (String c f)) as [v |] eqn:F; [| exact Z0].
  destruct v; try exact Z0.
  destruct (import_loop_appends l (preset_list t)) as [added [A [B C]]].
  destruct (import_loop l (preset_list t)) as [items raised].
  simpl in A. simpl. split; [reflexivity |].
  exists added. repeat split; auto.
  - intros data D. injection D as <-. exact B.
  - intros [H | H]; [discriminate |]. now elim (H l).
Qed.

Lemma load_loop_importable data : forall items,
  forallb importable data = true ->
  load_loop data items = ((items ++ data)%list, false).
Proof.
  induction data as [| m data IH]; intros items H; simpl.
  - now rewrite app_nil_r.
  - simpl in H. apply andb_true_iff in H. destruct H as [H1 H2].
    destruct m; try discriminate H1. simpl in H1.
    apply andb_true_iff in H1. destruct H1 as [T R].
    rewrite T. apply negb_true_iff in R. rewrite R. simpl.
    rewrite (IH _ H2), <- app_assoc. reflexivity.
Qed.

(** X22. The presets survive a restart: for every list the tab can
    show, what [_save_presets] stores is loaded back by [_load_presets]
    as the same presets in the same order, without an exception. *)
Theorem saved_presets_load_back : forall t t0,
  reachable_tab t ->
  _load_presets (Some (_save_presets t)) t0 =
  (with_list (preset_list t) t0, false).
Proof.
  intros t t0 R.
  pose proof (PresetsRoundTrip.reachable_tab_importable t R) as H.
  unfold _load_presets, _save_presets. cbv zeta.
  rewrite (PresetsRoundTrip.filter_importable _ H).
  rewrite (load_loop_importable _ _ H). reflexivity.
Qed.

Lemma saved_presets_load_back_witness :
  preset_list
    (fst (_load_presets (Some (_save_presets demo_tab))
            {| preset_list := []; disk := []; boxes := [] |})) =
  preset_list demo_tab.
Proof.
  rewrite (saved_presets_load_back demo_tab
             {| preset_list := []; disk := []; boxes := [] |}).
  - reflexivity.
  - repeat apply tab_acted. apply tab_loaded.
Defined.

(** X23. Every preset the tab can show is a dict with a frequency that
    is not empty: entries without one are skipped when presets are
    added, loaded or imported. *)
Theorem every_preset_has_a_frequency : forall t m,
  reachable_tab t -> In m (preset_list t) ->
  exists d, m = JDict d /\ truthy (dict_get d "freq" (JStr "")) = true.
Proof.
  intros t m R I.
  pose proof (PresetsRoundTrip.reachable_tab_importable t R) as H.
  rewrite forallb_forall in H. specialize (H m I).
  destruct m; try discriminate H. exists d. split; [reflexivity |].
  simpl in H. now apply andb_true_iff in H.
Qed.

Lemma every_preset_has_a_frequency_witness :
  exists d,
    JDict [("name", JStr "88.5 MHz P1"); ("freq", JStr "88.5");
           ("prog", JStr "1")] = JDict d /\
    truthy (dict_get d "freq" (JStr "")) = true.
Proof.
  apply (every_preset_has_a_frequency demo_tab).
  - repeat apply tab_acted. apply tab_loaded.
  - vm_compute. right. left. reflexivity.
Defined.

End PresetsFacts.


(** ** Where a recording is written *)

Example sanitize_examples :
  map _sanitize_filename
    ["  AC/DC: Back in <Black>? | \ * "; " / ";
     ("a" ++ String "009" "b ")%string; ""] =
  ["ACDC Back in Black"; ""; ("a" ++ String "009" "b")%string; ""].
Proof. vm_compute. reflexivity. Qed.

Example path_join_examples :
  map (fun p => path_join (fst p) (snd p))
    [("/home/u/Desktop", "x.mp3"); ("/home/u/", "x.mp3"); ("", "x.mp3");
     ("/a", "/x"); ("/a", ""); ("/a/", ""); ("", "")] =
  ["/home/u/Desktop/x.mp3"; "/home/u/x.mp3"; "x.mp3"; "/x"; "/a/"; "/a/"; ""].
Proof. vm_compute. reflexivity. Qed.

Lemma occurs_rev_append c s : forall acc,
  occurs c (PyStr.rev_append s acc) = occurs c s || occurs c acc.
Proof.
  induction s as [| x s IH]; intro acc; simpl; [reflexivity |].
  rewrite IH. simpl.
  destruct (Ascii.eqb c x), (occurs c s), (occurs c acc); reflexivity.
Qed.

Lemma occurs_rev c s : occurs c (PyStr.rev s) = occurs c s.
Proof. unfold PyStr.rev. rewrite occurs_rev_append. apply orb_false_r. Qed.

Lemma occurs_lstrip c s :
  occurs c (PyStr.lstrip s) = true -> occurs c s = true.
Proof.
  induction s as [| x s IH]; simpl; auto.
  destruct (PyStr.is_space x); simpl; auto.
  intro H. rewrite (IH H). apply orb_true_r.
Qed.

Lemma occurs_strip c s : occurs c (PyStr.strip s) = true -> occurs c s = true.
Proof.
  unfold PyStr.strip. rewrite occurs_rev. intro H.
  apply occurs_lstrip in H. rewrite occurs_rev in H.
  now apply occurs_lstrip.
Qed.

Lemma occurs_remove_unsafe c s :
  occurs c (remove_unsafe s) = true -> unsafe_char c = false.
Proof.
  induction s as [| x s IH]; simpl; [discriminate |].
  destruct (unsafe_char x) eqn:U; simpl; auto.
  destruct (Ascii.eqb c x) eqn:E; simpl; auto.
  apply Ascii.eqb_eq in E. now subst.
Qed.

Lemma remove_unsafe_clean s :
  (forall c, occurs c s = true -> unsafe_char c = false) ->
  remove_unsafe s = s.
Proof.
  induction s as [| x s IH]; intro H; simpl; [reflexivity |].
  rewrite (H x) by (simpl; now rewrite Ascii.eqb_refl).
  rewrite IH; [reflexivity |].
  intros c Hc. apply H. simpl. rewrite Hc. apply orb_true_r.
Qed.

Lemma rev_append_rev_append s : forall a,
  PyStr.rev_append (PyStr.rev_append s a) EmptyString = PyStr.rev_append a s.
Proof.
  induction s as [| x s IH]; intro a; simpl; [reflexivity |].
  now rewrite IH.
Qed.

Lemma rev_rev s : PyStr.rev (PyStr.rev s) = s.
Proof. unfold PyStr.rev. now rewrite rev_append_rev_append. Qed.

Lemma starts_clean_lstrip s : starts_clean (PyStr.lstrip s) = true.
Proof.
  induction s as [| x s IH]; simpl; [reflexivity |].
  destruct (PyStr.is_space x) eqn:E; [exact IH |]. simpl. now rewrite E.
Qed.

Lemma lstrip_clean s : starts_clean s = true -> PyStr.lstrip s = s.
Proof.
  destruct s as [| x s]; simpl; [reflexivity |].
  intro H. apply negb_true_iff in H. now rewrite H.
Qed.

Lemma string_app_assoc a b c :
  ((a ++ b) ++ c)%string = (a ++ (b ++ c))%string.
Proof.
  induction a as [| x a IH]; [reflexivity |].
  change (String x ((a ++ b) ++ c) = String x (a ++ (b ++ c)))%string.
  now rewrite IH.
Qed.

Lemma rev_append_app s : forall acc,
  PyStr.rev_append s acc = (PyStr.rev s ++ acc)%string.
Proof.
  unfold PyStr.rev.
  induction s as [| x s IH]; intro acc; simpl; [reflexivity |].
  rewrite IH, (IH (String x EmptyString)).
  rewrite string_app_assoc. reflexivity.
Qed.

Lemma rev_append_snoc s x : forall acc,
  PyStr.rev_append (s ++ String x EmptyString)%string acc =
  String x (PyStr.rev_append s acc).
Proof.
  induction s as [| y s IH]; intro acc; [reflexivity |].
  change (PyStr.rev_append (s ++ String x EmptyString)%string (String y acc) =
          String x (PyStr.rev_append s (String y acc))).
  apply IH.
Qed.

Lemma rev_snoc s x :
  PyStr.rev (s ++ String x EmptyString)%string = String x (PyStr.rev s).
Proof. apply rev_append_snoc. Qed.

(** Stripping on the left keeps a last character that is no space. *)
Lemma lstrip_snoc s x :
  PyStr.is_space x = false ->
  exists y, PyStr.lstrip (s ++ String x EmptyString)%string =
            (y ++ String x EmptyString)%string.
Proof.
  intro H. induction s as [| c s IH]; simpl.
  - rewrite H. now exists EmptyString.
  - destruct (PyStr.is_space c); [exact IH |].
    now exists (String c s).
Qed.

Lemma starts_clean_strip s : starts_clean (PyStr.strip s) = true.
Proof.
  unfold PyStr.strip.
  pose proof (starts_clean_lstrip s) as H.
  destruct (PyStr.lstrip s) as [| x a]; [reflexivity |].
  simpl in H. apply negb_true_iff in H.
  unfold PyStr.rev at 2. simpl. rewrite rev_append_app.
  destruct (lstrip_snoc (PyStr.rev a) x H) as [y E]. rewrite E.
  rewrite rev_snoc. simpl. now rewrite H.
Qed.

Lemma lstrip_lstrip s : PyStr.lstrip (PyStr.lstrip s) = PyStr.lstrip s.
Proof. apply lstrip_clean, starts_clean_lstrip. Qed.

Lemma strip_strip s : PyStr.strip (PyStr.strip s) = PyStr.strip s.
Proof.
  rewrite <- (lstrip_clean (PyStr.strip s) (starts_clean_strip s)) at 1.
  unfold PyStr.strip at 1.
  rewrite lstrip_lstrip.
  rewrite (lstrip_clean (PyStr.strip s) (starts_clean_strip s)).
  unfold PyStr.strip. rewrite rev_rev, lstrip_lstrip. reflexivity.
Qed.

Lemma sanitized_no_unsafe c text :
  unsafe_char c = true -> occurs c (_sanitize_filename text) = false.
Proof.
  intro U. destruct (occurs c (_sanitize_filename text)) eqn:O; auto.
  apply occurs_strip in O. apply occurs_remove_unsafe in O.
  rewrite O in U. discriminate.
Qed.

(** X24. [_sanitize_filename] gives a text with none of the characters
    backslash, slash, star, question mark, colon, double quote, angle
    brackets and bar, that does not begin with white space, and that
    sanitizing again leaves as it is. *)
Theorem sanitized_text_is_safe : forall text,
  (forall c, unsafe_char c = true ->
             occurs c (_sanitize_filename text) = false) /\
  starts_clean (_sanitize_filename text) = true /\
  _sanitize_filename (_sanitize_filename text) = _sanitize_filename text.
Proof.
  intro text.
  assert (C : forall c, occurs c (_sanitize_filename text) = true ->
                        unsafe_char c = false).
  { intros c H. apply occurs_strip in H.
    now apply occurs_remove_unsafe in H. }
  split; [| split].
  - intros c U. destruct (occurs c (_sanitize_filename text)) eqn:O; auto.
    rewrite (C c O) in U. discriminate.
  - apply starts_clean_strip.
  - unfold _sanitize_filename at 1. rewrite (remove_unsafe_clean _ C).
    apply strip_strip.
Qed.

Lemma occurs_app c a b :
  occurs c (a ++ b)%string = occurs c a || occurs c b.
Proof.
  induction a as [| x a IH]; [reflexivity |].
  change (Ascii.eqb c x || occurs c (a ++ b)%string =
          Ascii.eqb c x || occurs c a || occurs c b).
  rewrite IH. apply orb_assoc.
Qed.

Lemma occurs_replace_dot s :
  occurs "/" (replace_dot s) = occurs "/" s.
Proof.
  induction s as [| x s IH]; simpl; [reflexivity |].
  rewrite IH. f_equal.
  destruct (PyStr.code x =? 46)%N eqn:E; [| reflexivity].
  apply N.eqb_eq in E.
  assert (X : x = "."%char).
  { rewrite <- (ascii_N_embedding x). unfold PyStr.code in E.
    now rewrite E. }
  now subst.
Qed.

Lemma slash_is_unsafe : unsafe_char "/" = true.
Proof. reflexivity. Qed.

Lemma string_app_nil_r a : (a ++ "")%string = a.
Proof.
  induction a as [| x a IH]; [reflexivity |].
  change (String x (a ++ "") = String x a)%string. now rewrite IH.
Qed.

Lemma path_join_keeps_directory dir name :
  occurs "/" name = false ->
  path_join dir name = (dir_prefix dir ++ name)%string.
Proof.
  intro H. unfold path_join, dir_prefix.
  destruct name as [| c name].
  - destruct dir as [| d dir]; [reflexivity |].
    destruct (ends_with_slash (String d dir)).
    + now rewrite string_app_nil_r.
    + now rewrite string_app_nil_r.
  - simpl in H. apply orb_false_iff in H. destruct H as [H _].
    destruct (PyStr.code c =? 47)%N eqn:E.
    + apply N.eqb_eq in E.
      assert (X : c = "/"%char).
      { rewrite <- (ascii_N_embedding c). unfold PyStr.code in E.
        now rewrite E. }
      subst c. discriminate H.
    + destruct dir as [| d dir]; [reflexivity |].
      destruct (ends_with_slash (String d dir)); [reflexivity |].
      now rewrite string_app_assoc.
Qed.

(** X25. The file of a recording is always made inside the recording
    directory (the Desktop when the field is empty or names no
    directory): whatever the title and the artist that the station
    sends, the name that [_make_filename] appends to the directory
    contains no slash, given that the frequency, the program and the
    time stamps contain none. *)
Theorem recording_is_made_inside_the_directory :
  forall freq prog ts_short ts_long record_dir isdir desktop s,
  occurs "/" freq = false -> occurs "/" prog = false ->
  occurs "/" ts_short = false -> occurs "/" ts_long = false ->
  exists dir name,
    _make_filename freq prog ts_short ts_long record_dir isdir desktop s =
      (dir_prefix dir ++ name)%string /\
    (dir = desktop \/ dir = PyStr.strip record_dir /\ isdir = true) /\
    occurs "/" name = false.
Proof.
  intros freq prog ts1 ts2 record_dir isdir desktop s F P T1 T2.
  unfold _make_filename. cbv zeta.
  match goal with
  | |- context [path_join ?d ?n] =>
      exists d, n; assert (N : occurs "/" n = false)
  end.
  { destruct (_ && _); rewrite !occurs_app.
    - rewrite !(sanitized_no_unsafe _ _ slash_is_unsafe).
      now rewrite T1.
    - now rewrite occurs_replace_dot, F, P, T2. }
  split; [now apply path_join_keeps_directory |]. split; [| exact N].
  destruct (PyStr.strip record_dir); [now left |].
  destruct isdir; [right; now split | now left].
Qed.

Example make_filename_example :
  _make_filename "106.9" "0" "101500" "2026-01-01_10-15-00" " /tmp/rec "
    true "/home/user/Desktop"
    (set_artist "Band /B" "Band /B" (set_title "AC/DC: Live" demo)) =
  "/tmp/rec/ACDC Live - Band B_101500.mp3".
Proof. vm_compute. reflexivity. Qed.

Example make_filename_without_metadata :
  _make_filename "106.9" "0" "101500" "2026-01-01_10-15-00" "" false
    "/home/user/Desktop" demo =
  "/home/user/Desktop/Radio_106_9_P0_2026-01-01_10-15-00.mp3".
Proof. vm_compute. reflexivity. Qed.

Lemma recording_is_made_inside_the_directory_witness :
  exists dir name,
    _make_filename "106.9" "0" "101500" "2026-01-01_10-15-00" " /tmp/rec "
      true "/home/user/Desktop"
      (set_artist "../../x" "../../x" (set_title "AC/DC: Live" demo)) =
      (dir_prefix dir ++ name)%string /\
    (dir = "/home/user/Desktop" \/
     dir = PyStr.strip " /tmp/rec " /\ true = true) /\
    occurs "/" name = false.
Proof.
  apply (recording_is_made_inside_the_directory
           "106.9" "0" "101500" "2026-01-01_10-15-00" " /tmp/rec " true
           "/home/user/Desktop"
           (set_artist "../../x" "../../x" (set_title "AC/DC: Live" demo)));
    reflexivity.
Defined.


(** ** The duration of a recording *)

Example total_seconds_examples :
  map (fun us => int_of_float (total_seconds us))
    [0; 999999; 1000000; 1500000; 3725999999; 359999999999; -1; -1500000]%Z =
  map Some [0; 0; 1; 1; 3725; 359999; 0; -1]%Z.
Proof. vm_compute. reflexivity. Qed.

Example format_02_examples :
  map format_02 [0; 7; 59; 100; -1]%Z = ["00"; "07"; "59"; "100"; "-1"].
Proof. vm_compute. reflexivity. Qed.

Lemma format_02_two_digits n : (0 <= n < 100)%Z -> format_02 n = two_digits n.
Proof.
  intro H.
  assert (A : forallb (fun k => String.eqb (format_02 (Z.of_nat k))
                                  (two_digits (Z.of_nat k)))
                (seq 0 100) = true) by (vm_compute; reflexivity).
  rewrite forallb_forall in A.
  specialize (A (Z.to_nat n)). rewrite Z2Nat.id in A by lia.
  apply String.eqb_eq, A, in_seq. lia.
Qed.

Lemma update_record_duration_idle s :
  recording (flags s) = false \/ record_start_time (rclock s) = None ->
  _update_record_duration s = Some s.
Proof.
  intros [H | H]; unfold _update_record_duration; rewrite H;
    [reflexivity |]. now destruct (negb _).
Qed.

Lemma hh_mm_ss_format T :
  (0 <= T < 360000)%Z ->
  (format_02 (T / 3600) ++ ":" ++ format_02 (T mod 3600 / 60) ++
   ":" ++ format_02 (T mod 60))%string = hh_mm_ss T.
Proof.
  intro H. unfold hh_mm_ss.
  rewrite !format_02_two_digits.
  - replace (T mod 3600 / 60)%Z with (T / 60 mod 60)%Z; [reflexivity |].
    rewrite (Z.div_mod T 3600) at 1 by lia.
    replace (3600 * (T / 3600) + T mod 3600)%Z
      with (T mod 3600 + (60 * (T / 3600)) * 60)%Z by lia.
    rewrite Z.div_add by lia.
    replace (60 * (T / 3600))%Z with ((T / 3600) * 60)%Z by lia.
    rewrite Z.mod_add by lia. apply Z.mod_small.
    pose proof (Z.mod_pos_bound T 3600).
    split; [apply Z.div_pos; lia | apply Z.div_lt_upper_bound; lia].
  - pose proof (Z.mod_pos_bound T 60). lia.
  - pose proof (Z.mod_pos_bound T 3600).
    split; [apply Z.div_pos; lia | apply Z.div_lt_upper_bound; lia].
  - split; [apply Z.div_pos; lia | apply Z.div_lt_upper_bound; lia].
Qed.

(** X26. The tick of the record timer does nothing while the window is
    not recording or has no start time; while it records, it shows the
    whole seconds since the start (below 100 hours) as hours, minutes
    and seconds of two digits each, in the duration text and in the
    label alike, and changes nothing else but the clock read. *)
Theorem record_duration_is_shown_as_hh_mm_ss : forall s,
  (recording (flags s) = false \/ record_start_time (rclock s) = None ->
   _update_record_duration s = Some s) /\
  (forall start seconds,
     recording (flags s) = true ->
     record_start_time (rclock s) = Some start ->
     int_of_float
       (total_seconds
          (datetime_now (env (world s)) (tick (world s)) - start)) =
       Some seconds ->
     (0 <= seconds < 360000)%Z ->
     _update_record_duration s =
     Some (set_rclock
             {| record_start_time := Some start;
                record_duration_text := hh_mm_ss seconds;
                record_timer_active := record_timer_active (rclock s);
                record_time_label := hh_mm_ss seconds |}
             (snd (ask datetime_now s)))).
Proof.
  intro s. split; [apply update_record_duration_idle |].
  intros start T R S E H. unfold _update_record_duration.
  rewrite R, S. simpl negb. cbv iota. cbn [ask fst snd]. rewrite E.
  cbn [rclock set_world]. rewrite S.
  rewrite (hh_mm_ss_format T H). reflexivity.
Qed.

(** One hour, two minutes and five seconds into a recording. *)
Example record_duration_example :
  option_map (fun s => record_time_label (rclock s))
    (_update_record_duration
       (set_rclock
          {| record_start_time := Some (-3725000000)%Z;
             record_duration_text := "00:00:00";
             record_timer_active := true;
             record_time_label := "00:00:00" |} demo_recording)) =
  Some "01:02:05".
Proof. vm_compute. reflexivity. Qed.


(** ** One nested teardown is enough *)















(** ** Starting the radio *)

Lemma quiet_effect_no_spawn s ext :
  Forall (quiet_effect s) ext ->
  forallb (fun e => negb (is_spawn e)) ext = true.
Proof.
  intro H. apply forallb_forall. intros e I.
  rewrite Forall_forall in H. specialize (H e I).
  destruct e; simpl in *; auto; contradiction.
Qed.

(** X28. When ffplay does not start, nrsc5 is never spawned: with valid
    inputs, [start_stream] spawns ffplay alone, reports "Failed to start
    ffplay.", and leaves the radio off with no player handle, the flags
    and the controls as they were. *)
Theorem player_failure_starts_no_producer : forall fuel s errors still,
  radio_running (flags s) = false ->
  ~ invalid_start_inputs (inputs s) ->
  qt_start (env (world s)) (tick (world s)) = NotStarted errors still ->
  exists s' ext,
    start_stream fuel s = Some s' /\
    flags s' = flags s /\ controls s' = controls s /\
    proc_play (handles s') = None /\
    trace (world s') =
      trace (world s) ++
      Spawn (next_pid (world s)) "ffplay" play_args :: ext /\
    forallb (fun e => negb (is_spawn e)) ext = true /\
    In (MessageBox Critical "Error" "Failed to start ffplay.") ext.
Proof.
  intros fuel s errors still R V Q. unfold start_stream.
  rewrite R, (valid_inputs_pass s V). simpl negb. cbv iota.
  cbn [new_process].
  match goal with
  | |- context [start_and_wait ?h Ffplay ?pp ?prog ?args ?s1] =>
      destruct (start_and_wait_leaf h Ffplay pp prog args s1)
        as [b [s2 [E2 [L2 B]]]]; rewrite E2; clear E2
  end.
  cbn [world set_proc_play set_handles set_world env tick] in B.
  rewrite Q in B. subst b. simpl negb. cbv iota.
  destruct (consumer_kill (stop_stream fuel) Ffplay
              (message_box Critical "Error" "Failed to start ffplay." s2)
              role_neq_ffplay) as [s3 [E3 _]].
  rewrite E3.
  apply (consumer_kill_leaf _ _ _ _ role_neq_ffplay) in E3.
  destruct L2 as [F2 _ _ C2 _ _ _ _ [ext2 [T2 Q2]]].
  destruct E3 as [F3 _ _ C3 _ _ _ _ [ext3 [T3 Q3]]].
  exists (set_proc_play None s3),
         (ext2 ++ MessageBox Critical "Error" "Failed to start ffplay." :: ext3).
  split; [reflexivity |].
  split; [simpl; now rewrite F3; simpl; rewrite F2 |].
  split; [simpl; now rewrite C3; simpl; rewrite C2 |].
  split; [reflexivity |].
  split; [| split].
  - simpl. rewrite T3. simpl. rewrite T2. simpl.
    rewrite <- !app_assoc. reflexivity.
  - rewrite forallb_app. simpl.
    now rewrite (quiet_effect_no_spawn _ _ Q2), (quiet_effect_no_spawn _ _ Q3).
  - apply in_or_app. right. now left.
Qed.

Lemma player_failure_starts_no_producer_witness :
  exists s' ext,
    start_stream 2 demo_no_player = Some s' /\
    proc_play (handles s') = None /\
    trace (world s') = Spawn 0 "ffplay" play_args :: ext /\
    forallb (fun e => negb (is_spawn e)) ext = true.
Proof.
  destruct (player_failure_starts_no_producer 2 demo_no_player
              [FailedToStart] false) as [s' [ext [E [_ [_ [P [T [N _]]]]]]]].
  - reflexivity.
  - apply (proj1 (proj1 (validate_start_inputs_spec demo_no_player))).
    vm_compute. reflexivity.
  - reflexivity.
  - exists s', ext. repeat split; assumption.
Defined.

(** X29. When both processes start, [start_stream] has spawned ffplay
    first and then nrsc5 with the host and port (when a host is given),
    the frequency and the program of the inputs, holds both as running,
    has set [radio_running], shows "Listening", and has cleared the
    log, the history, the BER series and the station location of the
    session before. *)
Theorem start_spawns_player_then_producer : forall fuel s,
  radio_running (flags s) = false ->
  recording (flags s) = false ->
  ~ invalid_start_inputs (inputs s) ->
  qt_start (env (world s)) (tick (world s)) = Started ->
  qt_start (env (world s)) (S (tick (world s))) = Started ->
  exists s',
    start_stream fuel s = Some s' /\
    flags s' = {| radio_running := true; recording := false;
                  stopping_radio := stopping_radio (flags s) |} /\
    trace (world s') =
      trace (world s) ++
      [Spawn (next_pid (world s)) "ffplay" play_args;
       Spawn (S (next_pid (world s))) "nrsc5"
         (nrsc_args (PyStr.strip (host_edit (inputs s)))
            (PyStr.strip (port_edit (inputs s)))
            (PyStr.strip (freq_edit (inputs s)))
            (PyStr.strip
               (PyStr.str_of_int (_get_current_program_number s))))] /\
    proc_play (handles s') =
      Some {| pid := next_pid (world s); state := Running;
              stdout_buf := ""; stderr_buf := "" |} /\
    proc_nrsc5 (handles s') =
      Some {| pid := S (next_pid (world s)); state := Running;
              stdout_buf := ""; stderr_buf := "" |} /\
    status_text s' = "Status: Listening" /\
    log_text s' = [] /\ history_table (playing s') = [] /\
    ber_history (ber s') = [] /\
    station s' = {| station_lat := None; station_lon := None;
                    station_alt := None |}.
Proof.
  intros fuel s R C V Q1 Q2. unfold start_stream.
  rewrite R, (valid_inputs_pass s V). simpl negb. cbv iota.
  unfold start_and_wait, set_state_of, new_process, ask, emit.
  cbn. rewrite Nat.eqb_refl. cbn. rewrite Q1. cbn.
  rewrite Nat.eqb_refl. cbn. rewrite Nat.eqb_refl. cbn. rewrite Q2. cbn.
  rewrite Nat.eqb_refl. cbn.
  eexists. split; [reflexivity |].
  unfold _reset_labels, _update_ui_state. cbn. rewrite C. cbn.
  rewrite <- app_assoc. repeat split. now rewrite C.
Qed.

Lemma start_spawns_player_then_producer_witness :
  option_map (fun s => (flags s, trace (world s))) (start_stream 0 demo) =
  Some ({| radio_running := true; recording := false;
           stopping_radio := false |},
        [Spawn 0 "ffplay" play_args;
         Spawn 1 "nrsc5"
           ["-H"; "192.168.0.162:1234"; "106.9"; "0"; "-o"; "-"]]).
Proof.
  destruct (start_spawns_player_then_producer 0 demo)
    as [s' [E [F [T _]]]].
  - reflexivity.
  - reflexivity.
  - apply (proj1 (proj1 (validate_start_inputs_spec demo))).
    vm_compute. reflexivity.
  - reflexivity.
  - reflexivity.
  - rewrite E. simpl option_map. rewrite F, T. vm_compute. reflexivity.
Defined.


(** ** A recorder whose input is closed *)

Lemma world_update_object r p sig s : world (update_object r p sig s) = world s.
Proof.
  unfold update_object. destruct (proc_of r s) as [q |]; auto.
  destruct (pid q =? p); destruct r; reflexivity.
Qed.

Lemma world_on_process_finished name c st s :
  world (_on_process_finished name c st s) = world s.
Proof.
  unfold _on_process_finished.
  destruct (stopping_radio (flags s)), st; reflexivity.
Qed.

(** The slots of ffmpeg only write to the log. *)
Lemma recorder_deliver_world h p sig s s' :
  deliver h Ffmpeg p sig s = Some s' -> world s' = world s.
Proof.
  unfold deliver. intro E.
  rewrite <- (world_update_object Ffmpeg p sig s).
  generalize dependent (update_object Ffmpeg p sig s). intros x E.
  destruct sig; simpl in E; apply some_inj in E; subst s'; auto.
  - now apply world_on_consumer_error.
  - apply world_on_process_finished.
Qed.

Lemma recorder_deliver_all_world h p l : forall s s',
  deliver_all h Ffmpeg p l s = Some s' -> world s' = world s.
Proof.
  induction l as [| sig l IH]; intros s s' E; cbn [deliver_all] in E.
  - apply some_inj in E. now subst.
  - destruct (deliver h Ffmpeg p sig s) as [s1 |] eqn:E1; [| discriminate].
    rewrite (IH _ _ E), (recorder_deliver_world _ _ _ _ _ E1). reflexivity.
Qed.

Lemma recorder_wait_trace h p s b s' :
  waitForFinished h Ffmpeg p s = Some (b, s') ->
  trace (world s') = trace (world s).
Proof.
  unfold waitForFinished. cbn [ask]. intro E.
  match type of E with
  | context [deliver_all h Ffmpeg p ?l ?x] =>
      destruct (deliver_all h Ffmpeg p l x) as [s1 |] eqn:E1; [| discriminate];
      apply recorder_deliver_all_world in E1
  end.
  destruct (exited _) as [[code st] |].
  - destruct (deliver h Ffmpeg p _ s1) as [s2 |] eqn:E2; [| discriminate].
    apply some_inj in E. injection E as _ <-.
    rewrite (recorder_deliver_world _ _ _ _ _ E2), E1. reflexivity.
  - apply some_inj in E. injection E as _ <-. now rewrite E1.
Qed.

(** What [stop_recording] does to a running recorder: its input is
    closed first, and nothing is written afterwards. *)
Lemma stop_recording_trace s s' r :
  recording (flags s) = true ->
  proc_rec (handles s) = Some r -> is_running (state r) = true ->
  stop_recording s = Some s' ->
  exists ext,
    trace (world s') = trace (world s) ++ CloseWriteChannel (pid r) :: ext /\
    forallb (fun e => negb (is_write e) && negb (is_spawn e)) ext = true.
Proof.
  intros R P U E. unfold stop_recording in E. rewrite R in E.
  simpl negb in E. cbv iota in E.
  destruct (close_recorder s) as [s1 |] eqn:C; [| discriminate].
  apply some_inj in E. subst s'.
  assert (T1 : exists ext,
             trace (world s1) =
               trace (world s) ++ CloseWriteChannel (pid r) :: ext /\
             forallb (fun e => negb (is_write e) && negb (is_spawn e)) ext
               = true).
  { unfold close_recorder in C. rewrite P, U in C.
    destruct (waitForFinished _ _ _ _) as [[fin x1] |] eqn:W; [| discriminate].
    apply recorder_wait_trace in W. simpl in W.
    destruct (proc_rec (handles x1)) as [r' |];
      [destruct (is_running (state r')) |];
      apply some_inj in C; subst s1; simpl; rewrite ?W.
    - exists [Terminate (pid r')]. rewrite <- app_assoc. now split.
    - exists []. now split.
    - exists []. now split. }
  destruct T1 as [ext1 [T1 N1]].
  match goal with
  | |- context [report_saved ?X] =>
      assert (TX : trace (world X) = trace (world s1)) by reflexivity;
      generalize dependent X
  end.
  intros X TX. simpl. unfold report_saved.
  destruct (current_record_file (handles X)) as [[| c f] |];
    try (exists ext1; rewrite TX; now split).
  cbn [ask]. destruct (path_exists _ _).
  - exists (ext1 ++ [Print ("Recording saved: " ++ String c f)%string]).
    simpl. rewrite TX, T1, <- app_assoc. split; [reflexivity |].
    rewrite forallb_app, N1. reflexivity.
  - exists ext1. simpl. rewrite TX. now split.
Qed.

(** X30. Once [stop_stream] has closed the input of a running recorder,
    nothing more is written to it: the audio that nrsc5 still delivers
    while the teardown waits goes to the player only, and nothing is
    started during the teardown. *)
Theorem closed_recorder_gets_no_more_audio : forall fuel s s' r,
  recording (flags s) = true ->
  proc_rec (handles s) = Some r -> is_running (state r) = true ->
  stop_stream fuel s = Some s' ->
  exists ext,
    trace (world s') = trace (world s) ++ CloseWriteChannel (pid r) :: ext /\
    (forall p d, In (Write p d) ext -> pid_of Ffplay s = Some p) /\
    forallb (fun e => negb (is_spawn e)) ext = true.
Proof.
  intros fuel s s' r R P U E.
  destruct fuel as [| fuel]; [discriminate |].
  change (stop_stream_body (stop_stream fuel) s = Some s') in E.
  destruct (stop_recording_spec s) as [s1 [E1 [_ [F1 [O1 _]]]]].
  destruct (stop_recording_trace s s1 r R P U E1) as [ext1 [T1 N1]].
  assert (R1 : recording (flags s1) = false) by (now rewrite F1).
  assert (E' : stop_stream_body (stop_stream fuel) s1 = Some s').
  { unfold stop_stream_body in *. rewrite E1 in E.
    unfold stop_recording at 1. rewrite R1. exact E. }
  destruct (stop_stream_body_quiet _ (stop_stream_quiet fuel) _ _ E')
    as [_ _ _ _ _ _ _ [ext2 [T2 Q2]]].
  exists (ext1 ++ ext2). split; [| split].
  - rewrite T2, T1, <- app_assoc. reflexivity.
  - intros p d I. apply in_app_or in I. destruct I as [I | I].
    + rewrite forallb_forall in N1. specialize (N1 _ I). discriminate N1.
    + rewrite Forall_forall in Q2. specialize (Q2 _ I). simpl in Q2.
      destruct Q2 as [Q | [Q _]]; [| congruence].
      unfold pid_of in *. rewrite <- (O1 Ffplay); [exact Q | discriminate].
  - rewrite forallb_app, (quiet_effect_no_spawn _ _ Q2), andb_true_r.
    apply forallb_forall. intros e I.
    rewrite forallb_forall in N1. specialize (N1 _ I).
    now apply andb_prop in N1.
Qed.

Lemma closed_recorder_gets_no_more_audio_witness :
  exists ext,
    trace (world demo_stopped) =
      trace (world demo_recording) ++ CloseWriteChannel 2 :: ext /\
    (forall p d, In (Write p d) ext -> p = 0).
Proof.
  destruct (closed_recorder_gets_no_more_audio 2 demo_recording demo_stopped
              {| pid := 2; state := Running; stdout_buf := "";
                 stderr_buf := "" |})
    as [ext [T [W _]]].
  - reflexivity.
  - reflexivity.
  - reflexivity.
  - vm_compute. reflexivity.
  - exists ext. split; [exact T |].
    intros p d I. specialize (W p d I). now injection W.
Defined.
